(** * llm9p: session store and synthetic file tree

    A shallow embedding of the Go packages [internal/llm] (session.go) and
    [internal/llmfs] (the per-session leaf files, the clone file [new] and
    the two directories), followed by the properties of the session store
    and of the file contracts.

    Conventions.
    - A Go [string] and a Go [[]byte] are both a [string] of bytes.
    - A Go [int] is a [Z] in the 64-bit two's-complement range; every
      arithmetic operation of the source is followed by [wrap].
    - A Go [float64] is a [spec_float] of the binary64 format.
    - A [*Session] is an index into the list of allocated session objects.
    - Locks are not modelled: every method runs as one atomic step. *)

From Stdlib Require Import ZArith String Ascii List Bool Lia.
From Stdlib Require Import SpecFloat DecimalString DecimalZ DecimalN DecimalPos.
From stdpp Require Import gmap list.

Open Scope Z_scope.
Open Scope string_scope.

(** ** Go primitives used by the two packages *)

Module golang.

(** [int] on a 64-bit platform. *)
Definition maxInt : Z := 2 ^ 63 - 1.
Definition minInt : Z := - 2 ^ 63.

Definition wrap (z : Z) : Z := (z + 2 ^ 63) mod 2 ^ 64 - 2 ^ 63.

Definition inInt (z : Z) : Prop := minInt <= z <= maxInt.

(** [len(s)] *)
Definition len (s : string) : Z := Z.of_nat (String.length s).

Definition byte (c : ascii) : N := N_of_ascii c.

Definition newline : ascii := ascii_of_N 10.
Definition nl : string := String newline EmptyString.

Definition rev_string (s : string) : string :=
  string_of_list_ascii (List.rev (list_ascii_of_string s)).

(** [strings.HasSuffix(s, "\n")] *)
Fixpoint HasSuffix_nl (s : string) : bool :=
  match s with
  | EmptyString => false
  | String c EmptyString => (byte c =? 10)%N
  | String _ r => HasSuffix_nl r
  end.

(** [strings.TrimSuffix(s, "\n")] *)
Fixpoint TrimSuffix_nl (s : string) : string :=
  match s with
  | EmptyString => EmptyString
  | String c EmptyString => if (byte c =? 10)%N then EmptyString else s
  | String c r => String c (TrimSuffix_nl r)
  end.

(** The table [asciiSpace] of package strings. *)
Definition asciiSpace (b : N) : bool :=
  ((b =? 9) || (b =? 10) || (b =? 11) || (b =? 12) || (b =? 13) || (b =? 32))%N.

(** The UTF-8 encodings of the white-space runes above U+007F
    ([unicode.IsSpace]): U+0085 and U+00A0 take two bytes; U+1680,
    U+2000..U+200A, U+2028, U+2029, U+202F, U+205F and U+3000 take three. *)
Definition space2 (b0 b1 : N) : bool :=
  ((b0 =? 194) && ((b1 =? 133) || (b1 =? 160)))%N.

Definition space3 (b0 b1 b2 : N) : bool :=
  (((b0 =? 225) && (b1 =? 154) && (b2 =? 128))
   || ((b0 =? 226) && (b1 =? 128)
       && (((128 <=? b2) && (b2 <=? 138)) || (b2 =? 168) || (b2 =? 169) || (b2 =? 175)))
   || ((b0 =? 226) && (b1 =? 129) && (b2 =? 159))
   || ((b0 =? 227) && (b1 =? 128) && (b2 =? 128)))%N.

(** Drops the white-space runes at the head of [s].  With [back = true] the
    string is read as the reversal of the original, so that the bytes of a
    rune come last byte first: that is how the end of a string is trimmed. *)
Fixpoint trimHead (back : bool) (s : string) : string :=
  match s with
  | EmptyString => s
  | String c0 r0 =>
      if asciiSpace (byte c0) then trimHead back r0 else
      match r0 with
      | EmptyString => s
      | String c1 r1 =>
          if (if back then space2 (byte c1) (byte c0) else space2 (byte c0) (byte c1))
          then trimHead back r1 else
          match r1 with
          | EmptyString => s
          | String c2 r2 =>
              if (if back then space3 (byte c2) (byte c1) (byte c0)
                  else space3 (byte c0) (byte c1) (byte c2))
              then trimHead back r2 else s
          end
      end
  end.

(** [strings.TrimSpace]: leading, then trailing white space is removed. *)
Definition TrimSpace (s : string) : string :=
  rev_string (trimHead true (rev_string (trimHead false s))).

(** [content[offset:]] followed by [copy(p, ...)] into a buffer of [cap]
    bytes: the bytes that reach the caller. *)
Fixpoint drop_string (n : nat) (s : string) : string :=
  match n, s with
  | O, _ => s
  | S n', String _ r => drop_string n' r
  | S _, EmptyString => EmptyString
  end.

Fixpoint take_string (n : nat) (s : string) : string :=
  match n, s with
  | S n', String c r => String c (take_string n' r)
  | _, _ => EmptyString
  end.

Definition copy (cap : nat) (src : string) : string := take_string cap src.

(** [strconv.Itoa] *)
Definition Itoa (z : Z) : string := NilZero.string_of_int (Z.to_int z).

(** The [*strconv.NumError] of [strconv.Atoi] and [strconv.ParseFloat]: the
    function and the offending text; its [Err] field (syntax or range) is
    not told apart. *)
Record NumError := { Func : string; Num : string }.

(** The values of the interface [error] that the two packages produce.
    [ProtocolErrorNum prefix e] is [protocol.Error(prefix + e.Error())].
    [PanicSliceBounds] stands for the run-time panic of [content[offset:]]
    at a negative offset. *)
Inductive error :=
  | ErrSessionNotFound
  | ErrSessionClosed
  | BackendError (msg : string)
  | ErrNotFound
  | ErrPermission
  | EOF
  | ProtocolError (msg : string)
  | ProtocolErrorNum (prefix : string) (e : NumError)
  | EncodingError (msg : string)
  | PanicSliceBounds.

(** [strconv.Atoi]: an optional sign, then one or more decimal digits, the
    value within the range of [int]. *)
Definition Atoi (s : string) : Z + NumError :=
  let bad := inr {| Func := "Atoi"; Num := s |} in
  let '(neg, digits) :=
    match s with
    | String c r =>
        if (byte c =? 45)%N then (true, r)
        else if (byte c =? 43)%N then (false, r)
        else (false, s)
    | EmptyString => (false, s)
    end in
  match digits with
  | EmptyString => bad
  | _ =>
      match NilEmpty.uint_of_string digits with
      | None => bad
      | Some d =>
          let n := Z.of_N (N.of_uint d) in
          let v := if neg then - n else n in
          if ((minInt <=? v) && (v <=? maxInt))%Z then inl v else bad
      end
  end.

(** [float64] and the two constants the source compares with. *)
Definition float64 : Type := spec_float.
Definition float_0_0 : float64 := S754_zero false.
Definition float_2_0 : float64 := S754_finite false 4503599627370496 (-51).
Definition float_0_7 : float64 := S754_finite false 6305039478318694 (-53).

End golang.

(** ** Package llm: sessions and the session manager (session.go) *)

Module llm.
Import golang.

(** [Message] is declared outside session.go; [AddMessage] fixes its two
    fields. *)
Record Message := { Role : string; Content : string }.

Module SessionDefaults.
Record t := {
  Model : string;
  Temperature : float64;
  SystemPrompt : string;
  ThinkingTokens : Z;
  Prefill : string;
}.
End SessionDefaults.

Definition DefaultSessionDefaults : SessionDefaults.t :=
  {| SessionDefaults.Model := "claude-sonnet-4-20250514";
     SessionDefaults.Temperature := float_0_7;
     SessionDefaults.SystemPrompt := "";
     SessionDefaults.ThinkingTokens := 0;
     SessionDefaults.Prefill := "" |}.

Record Session := {
  ID : Z;
  messages : list Message;
  lastResponse : string;
  lastTokens : Z;
  totalTokens : Z;
  model : string;
  temperature : float64;
  systemPrompt : string;
  thinkingTokens : Z;
  prefill : string;
  closed : bool;
}.

Definition NewSession (id : Z) (defaults : SessionDefaults.t) : Session :=
  {| ID := id;
     messages := [];
     lastResponse := "";
     lastTokens := 0;
     totalTokens := 0;
     model := SessionDefaults.Model defaults;
     temperature := SessionDefaults.Temperature defaults;
     systemPrompt := SessionDefaults.SystemPrompt defaults;
     thinkingTokens := SessionDefaults.ThinkingTokens defaults;
     prefill := SessionDefaults.Prefill defaults;
     closed := false |}.

(** The methods of [*Session] that write, as functions on the object. *)
Definition AddMessage (role content : string) (s : Session) : Session :=
  {| ID := ID s;
     messages := messages s ++ [{| Role := role; Content := content |}];
     lastResponse := lastResponse s; lastTokens := lastTokens s;
     totalTokens := totalTokens s; model := model s;
     temperature := temperature s; systemPrompt := systemPrompt s;
     thinkingTokens := thinkingTokens s; prefill := prefill s;
     closed := closed s |}.

Definition SetLastResponse (response : string) (s : Session) : Session :=
  {| ID := ID s; messages := messages s;
     lastResponse := response;
     lastTokens := lastTokens s; totalTokens := totalTokens s;
     model := model s; temperature := temperature s;
     systemPrompt := systemPrompt s; thinkingTokens := thinkingTokens s;
     prefill := prefill s; closed := closed s |}.

Definition AddTokens (tokens : Z) (s : Session) : Session :=
  {| ID := ID s; messages := messages s; lastResponse := lastResponse s;
     lastTokens := tokens;
     totalTokens := wrap (totalTokens s + tokens);
     model := model s; temperature := temperature s;
     systemPrompt := systemPrompt s; thinkingTokens := thinkingTokens s;
     prefill := prefill s; closed := closed s |}.

Definition Session_Reset (s : Session) : Session :=
  {| ID := ID s;
     messages := [];
     lastResponse := "";
     lastTokens := 0;
     totalTokens := 0;
     model := model s; temperature := temperature s;
     systemPrompt := systemPrompt s; thinkingTokens := thinkingTokens s;
     prefill := prefill s; closed := closed s |}.

Definition SetModel (m : string) (s : Session) : Session :=
  {| ID := ID s; messages := messages s; lastResponse := lastResponse s;
     lastTokens := lastTokens s; totalTokens := totalTokens s;
     model := m;
     temperature := temperature s; systemPrompt := systemPrompt s;
     thinkingTokens := thinkingTokens s; prefill := prefill s;
     closed := closed s |}.

Definition SetTemperature (temp : float64) (s : Session) : Session :=
  {| ID := ID s; messages := messages s; lastResponse := lastResponse s;
     lastTokens := lastTokens s; totalTokens := totalTokens s;
     model := model s;
     temperature := temp;
     systemPrompt := systemPrompt s; thinkingTokens := thinkingTokens s;
     prefill := prefill s; closed := closed s |}.

Definition SetSystemPrompt (prompt : string) (s : Session) : Session :=
  {| ID := ID s; messages := messages s; lastResponse := lastResponse s;
     lastTokens := lastTokens s; totalTokens := totalTokens s;
     model := model s; temperature := temperature s;
     systemPrompt := prompt;
     thinkingTokens := thinkingTokens s; prefill := prefill s;
     closed := closed s |}.

Definition SetThinkingTokens (tokens : Z) (s : Session) : Session :=
  {| ID := ID s; messages := messages s; lastResponse := lastResponse s;
     lastTokens := lastTokens s; totalTokens := totalTokens s;
     model := model s; temperature := temperature s;
     systemPrompt := systemPrompt s;
     thinkingTokens := tokens;
     prefill := prefill s; closed := closed s |}.

Definition SetPrefill (pre : string) (s : Session) : Session :=
  {| ID := ID s; messages := messages s; lastResponse := lastResponse s;
     lastTokens := lastTokens s; totalTokens := totalTokens s;
     model := model s; temperature := temperature s;
     systemPrompt := systemPrompt s; thinkingTokens := thinkingTokens s;
     prefill := pre;
     closed := closed s |}.

(** [session.closed = true] inside [SessionManager.Close]. *)
Definition markClosed (s : Session) : Session :=
  {| ID := ID s; messages := messages s; lastResponse := lastResponse s;
     lastTokens := lastTokens s; totalTokens := totalTokens s;
     model := model s; temperature := temperature s;
     systemPrompt := systemPrompt s; thinkingTokens := thinkingTokens s;
     prefill := prefill s;
     closed := true |}.

Module AskRequest.
Record t := {
  Messages : list Message;
  Prompt : string;
  Model : string;
  Temperature : float64;
  SystemPrompt : string;
  ThinkingTokens : Z;
  Prefill : string;
}.
End AskRequest.

(** The interface [Backend], as far as session.go calls it.  The call
    returns the response and its token count, or the text of the error; the
    backend may keep a state of its own. *)
Class Backend (B : Type) := {
  AskWithRequest : B -> AskRequest.t -> ((string * Z) + string) * B;
}.

(** [heap] holds every [Session] object that [NewSession] allocated, in
    allocation order; the registry [sessions] maps an id to the index of
    its object, which is what a [*Session] is here. *)
Record SessionManager (B : Type) := {
  heap : list Session;
  sessions : gmap Z nat;
  nextID : Z;
  apiClient : B;
  defaults : SessionDefaults.t;
}.
Arguments heap {B} _.
Arguments sessions {B} _.
Arguments nextID {B} _.
Arguments apiClient {B} _.
Arguments defaults {B} _.

Section manager.
Context {B : Type} `{!Backend B}.

Definition NewSessionManager (client : B) : SessionManager B :=
  {| heap := []; sessions := ∅; nextID := 0; apiClient := client;
     defaults := DefaultSessionDefaults |}.

(** A method call [session.m(...)] on the object behind pointer [p]. *)
Definition update (p : nat) (f : Session -> Session) (sm : SessionManager B)
  : SessionManager B :=
  {| heap := alter f p (heap sm); sessions := sessions sm;
     nextID := nextID sm; apiClient := apiClient sm;
     defaults := defaults sm |}.

(** The object behind a pointer; the zero value stands in where the index
    is outside the heap, which no pointer of the registry is. *)
Definition deref (sm : SessionManager B) (p : nat) : Session :=
  default (NewSession 0 {| SessionDefaults.Model := "";
                           SessionDefaults.Temperature := float_0_0;
                           SessionDefaults.SystemPrompt := "";
                           SessionDefaults.ThinkingTokens := 0;
                           SessionDefaults.Prefill := "" |})
          (heap sm !! p).

Definition SetDefaults (d : SessionDefaults.t) (sm : SessionManager B)
  : SessionManager B :=
  {| heap := heap sm; sessions := sessions sm; nextID := nextID sm;
     apiClient := apiClient sm; defaults := d |}.

Definition Create (sm : SessionManager B) : SessionManager B * Z :=
  let id := nextID sm in
  ({| heap := heap sm ++ [NewSession id (defaults sm)];
      sessions := <[id := length (heap sm)]> (sessions sm);
      nextID := wrap (nextID sm + 1);
      apiClient := apiClient sm;
      defaults := defaults sm |}, id).

(** [nil] is [None]. *)
Definition Get (sm : SessionManager B) (id : Z) : option nat :=
  sessions sm !! id.

Definition Close (sm : SessionManager B) (id : Z) : SessionManager B :=
  match sessions sm !! id with
  | None => sm
  | Some p =>
      {| heap := alter markClosed p (heap sm);
         sessions := delete id (sessions sm);
         nextID := nextID sm; apiClient := apiClient sm;
         defaults := defaults sm |}
  end.

Definition Reset (sm : SessionManager B) (id : Z) : SessionManager B :=
  match Get sm id with
  | None => sm
  | Some p => update p Session_Reset sm
  end.

Definition request (s : Session) (prompt : string) : AskRequest.t :=
  {| AskRequest.Messages := messages s;
     AskRequest.Prompt := prompt;
     AskRequest.Model := model s;
     AskRequest.Temperature := temperature s;
     AskRequest.SystemPrompt := systemPrompt s;
     AskRequest.ThinkingTokens := thinkingTokens s;
     AskRequest.Prefill := prefill s |}.

Definition with_client (b : B) (sm : SessionManager B) : SessionManager B :=
  {| heap := heap sm; sessions := sessions sm; nextID := nextID sm;
     apiClient := b; defaults := defaults sm |}.

(** [Ask]; the context argument is dropped (the caller passes
    [context.Background()]). *)
Definition Ask (sm : SessionManager B) (id : Z) (prompt : string)
  : SessionManager B * (string * option error) :=
  match Get sm id with
  | None => (sm, ("", Some ErrSessionNotFound))
  | Some p =>
      if closed (deref sm p) then (sm, ("", Some ErrSessionClosed)) else
      let '(r, b) := AskWithRequest (apiClient sm) (request (deref sm p) prompt) in
      let sm := with_client b sm in
      match r with
      | inr msg =>
          (update p (SetLastResponse ("Error: " ++ msg)) sm,
           ("", Some (BackendError msg)))
      | inl (response, tokens) =>
          let sm := update p (AddMessage "user" prompt) sm in
          let sm := update p (AddMessage "assistant" response) sm in
          let sm := update p (AddTokens tokens) sm in
          let sm := update p (SetLastResponse response) sm in
          (sm, (response, None))
      end
  end.

(** The order of a Go map iteration is unspecified; only membership in the
    result is meaningful. *)
Definition ListSessions (sm : SessionManager B) : list Z :=
  elements (dom (sessions sm)).

(** The registry points at live objects that are not closed, and no two
    ids share an object. *)
Definition registry_open (sm : SessionManager B) : Prop :=
  forall id p, sessions sm !! id = Some p ->
    exists s, heap sm !! p = Some s /\ closed s = false.

Definition registry_injective (sm : SessionManager B) : Prop :=
  forall id1 id2 p,
    sessions sm !! id1 = Some p -> sessions sm !! id2 = Some p -> id1 = id2.

Definition wf (sm : SessionManager B) : Prop :=
  registry_open sm /\ registry_injective sm.

End manager.

End llm.

(** ** Package llmfs: the file tree *)

Module llmfs.
Import golang llm.

(** Of [protocol.Stat] only the field [Length] is kept. *)
Record Stat := { Length : Z }.

(** What the file tree takes from outside the two packages:
    - [ParseFloat s] is [strconv.ParseFloat(s, 64)];
    - [Sprintf_2f t] is [fmt.Sprintf("%.2f", t)];
    - [MarshalIndent ms] is [json.MarshalIndent(ms, "", "  ")], failing with
      the text of its error;
    - [BaseFile_Stat name] is [Stat()] of [protocol.NewBaseFile(name, _)];
    - [BaseFile_Write name p offset] is the [Write] that a file type
      inherits from the embedded [*protocol.BaseFile] when it declares none. *)
Class Runtime := {
  ParseFloat : string -> float64 + NumError;
  Sprintf_2f : float64 -> string;
  MarshalIndent : list Message -> string + string;
  BaseFile_Stat : string -> Stat;
  BaseFile_Write : string -> string -> Z -> Z * option error;
}.

(** What a [Read] hands back: the bytes copied into the buffer (their
    number is the [int] result) and the error.  A [Write] returns the
    count and the error. *)
Definition ReadResult : Type := string * option error.
Definition WriteResult : Type := Z * option error.

(** The tail shared by every [Read]:
    [if offset >= int64(len(content)) { return 0, io.EOF }]
    [n := copy(p, content[offset:]); return n, nil]. *)
Definition read_at (content : string) (cap : nat) (offset : Z) : ReadResult :=
  if (len content <=? offset)%Z then ("", Some EOF)
  else if (offset <? 0)%Z then ("", Some PanicSliceBounds)
  else (copy cap (drop_string (Z.to_nat offset) content), None).

(** [content] with a newline added when it is non-empty and has none. *)
Definition terminate (content : string) : string :=
  if negb (content =? "")%string && negb (HasSuffix_nl content)
  then content ++ nl else content.

(** The nodes of the tree: each holds at most a session id. *)
Inductive File :=
  | SessionsDir
  | NewFile
  | SessionDir (id : Z)
  | SessionAskFile (id : Z)
  | SessionContextFile (id : Z)
  | SessionCtlFile (id : Z)
  | SessionModelFile (id : Z)
  | SessionTemperatureFile (id : Z)
  | SessionSystemFile (id : Z)
  | SessionThinkingFile (id : Z)
  | SessionPrefillFile (id : Z).

(** The name given to [protocol.NewBaseFile]. *)
Definition Name (f : File) : string :=
  match f with
  | SessionsDir => "llm"
  | NewFile => "new"
  | SessionDir id => Itoa id
  | SessionAskFile _ => "ask"
  | SessionContextFile _ => "context"
  | SessionCtlFile _ => "ctl"
  | SessionModelFile _ => "model"
  | SessionTemperatureFile _ => "temperature"
  | SessionSystemFile _ => "system"
  | SessionThinkingFile _ => "thinking"
  | SessionPrefillFile _ => "prefill"
  end.

Section files.
Context {B : Type} `{!Backend B} `{!Runtime}.

Definition with_length (n : Z) (s : Stat) : Stat := {| Length := n |}.

(** *** new *)

Definition NewFile_Read (sm : SessionManager B) (cap : nat) (offset : Z)
  : SessionManager B * ReadResult :=
  if (0 <? offset)%Z then (sm, ("", Some EOF))
  else
    let '(sm, id) := Create sm in
    let content := Itoa id ++ nl in
    (sm, (copy cap content, None)).

Definition NewFile_Write (p : string) (offset : Z) : WriteResult :=
  (0, Some ErrPermission).

Definition NewFile_Stat : Stat := with_length 0 (BaseFile_Stat "new").

(** *** ask *)

Definition SessionAskFile_content (s : Session) : string :=
  terminate (lastResponse s).

Definition SessionAskFile_Read (sm : SessionManager B) (id : Z)
    (cap : nat) (offset : Z) : ReadResult :=
  match Get sm id with
  | None => ("", Some ErrNotFound)
  | Some session => read_at (SessionAskFile_content (deref sm session)) cap offset
  end.

Definition SessionAskFile_Write (sm : SessionManager B) (id : Z)
    (p : string) (offset : Z) : SessionManager B * WriteResult :=
  let prompt := TrimSpace p in
  if (prompt =? "")%string then (sm, (len p, None))
  else
    let '(sm, (response, err)) := Ask sm id prompt in
    match err with
    | Some _ => (sm, (len p, None))
    | None => (sm, (len p, None))
    end.

Definition SessionAskFile_Stat (sm : SessionManager B) (id : Z) : Stat :=
  let s := BaseFile_Stat "ask" in
  match Get sm id with
  | Some session => with_length (len (lastResponse (deref sm session))) s
  | None => s
  end.

(** *** context *)

Definition SessionContextFile_Read (sm : SessionManager B) (id : Z)
    (cap : nat) (offset : Z) : ReadResult :=
  match Get sm id with
  | None => ("", Some ErrNotFound)
  | Some session =>
      match MarshalIndent (messages (deref sm session)) with
      | inr e => ("", Some (EncodingError e))
      | inl content => read_at (content ++ nl) cap offset
      end
  end.

Definition SessionContextFile_Stat (sm : SessionManager B) (id : Z) : Stat :=
  let s := BaseFile_Stat "context" in
  match Get sm id with
  | Some session =>
      match MarshalIndent (messages (deref sm session)) with
      | inl content => with_length (len content + 1) s
      | inr _ => s
      end
  | None => s
  end.

(** *** ctl *)

Definition SessionCtlFile_Read (cap : nat) (offset : Z) : ReadResult :=
  ("", Some EOF).

Definition SessionCtlFile_Write (sm : SessionManager B) (id : Z)
    (p : string) (offset : Z) : SessionManager B * WriteResult :=
  let cmd := TrimSpace p in
  if (cmd =? "reset")%string then (Reset sm id, (len p, None))
  else if (cmd =? "close")%string then (Close sm id, (len p, None))
  else (sm, (0, Some (ProtocolError ("unknown command: " ++ cmd)))).

Definition SessionCtlFile_Stat : Stat := BaseFile_Stat "ctl".

(** *** model *)

Definition SessionModelFile_Read (sm : SessionManager B) (id : Z)
    (cap : nat) (offset : Z) : ReadResult :=
  match Get sm id with
  | None => ("", Some ErrNotFound)
  | Some session => read_at (llm.model (deref sm session) ++ nl) cap offset
  end.

Definition SessionModelFile_Write (sm : SessionManager B) (id : Z)
    (p : string) (offset : Z) : SessionManager B * WriteResult :=
  match Get sm id with
  | None => (sm, (0, Some ErrNotFound))
  | Some session =>
      let model := TrimSpace p in
      let sm := if negb (model =? "")%string
                then update session (SetModel model) sm else sm in
      (sm, (len p, None))
  end.

Definition SessionModelFile_Stat (sm : SessionManager B) (id : Z) : Stat :=
  let s := BaseFile_Stat "model" in
  match Get sm id with
  | Some session => with_length (len (llm.model (deref sm session)) + 1) s
  | None => s
  end.

(** *** temperature *)

Definition SessionTemperatureFile_content (s : Session) : string :=
  Sprintf_2f (temperature s) ++ nl.

Definition SessionTemperatureFile_Read (sm : SessionManager B) (id : Z)
    (cap : nat) (offset : Z) : ReadResult :=
  match Get sm id with
  | None => ("", Some ErrNotFound)
  | Some session =>
      read_at (SessionTemperatureFile_content (deref sm session)) cap offset
  end.

Definition SessionTemperatureFile_Write (sm : SessionManager B) (id : Z)
    (p : string) (offset : Z) : SessionManager B * WriteResult :=
  match Get sm id with
  | None => (sm, (0, Some ErrNotFound))
  | Some session =>
      match ParseFloat (TrimSpace p) with
      | inr err => (sm, (0, Some (ProtocolErrorNum "invalid temperature: " err)))
      | inl temp =>
          if SFltb temp float_0_0 || SFltb float_2_0 temp
          then (sm, (0, Some (ProtocolError "temperature must be between 0.0 and 2.0")))
          else (update session (SetTemperature temp) sm, (len p, None))
      end
  end.

Definition SessionTemperatureFile_Stat (sm : SessionManager B) (id : Z) : Stat :=
  let s := BaseFile_Stat "temperature" in
  match Get sm id with
  | Some session =>
      with_length (len (SessionTemperatureFile_content (deref sm session))) s
  | None => s
  end.

(** *** system *)

Definition SessionSystemFile_content (s : Session) : string :=
  terminate (systemPrompt s).

Definition SessionSystemFile_Read (sm : SessionManager B) (id : Z)
    (cap : nat) (offset : Z) : ReadResult :=
  match Get sm id with
  | None => ("", Some ErrNotFound)
  | Some session =>
      read_at (SessionSystemFile_content (deref sm session)) cap offset
  end.

Definition SessionSystemFile_Write (sm : SessionManager B) (id : Z)
    (p : string) (offset : Z) : SessionManager B * WriteResult :=
  match Get sm id with
  | None => (sm, (0, Some ErrNotFound))
  | Some session =>
      let prompt := TrimSpace p in
      (update session (SetSystemPrompt prompt) sm, (len p, None))
  end.

Definition SessionSystemFile_Stat (sm : SessionManager B) (id : Z) : Stat :=
  let s := BaseFile_Stat "system" in
  match Get sm id with
  | Some session =>
      let content := systemPrompt (deref sm session) in
      if negb (content =? "")%string then with_length (len content + 1) s else s
  | None => s
  end.

(** *** thinking *)

Definition SessionThinkingFile_content (s : Session) : string :=
  let tokens := thinkingTokens s in
  if (tokens <? 0)%Z then "max" ++ nl
  else if (tokens =? 0)%Z then "disabled" ++ nl
  else Itoa tokens ++ nl.

Definition SessionThinkingFile_Read (sm : SessionManager B) (id : Z)
    (cap : nat) (offset : Z) : ReadResult :=
  match Get sm id with
  | None => ("", Some ErrNotFound)
  | Some session =>
      read_at (SessionThinkingFile_content (deref sm session)) cap offset
  end.

Definition SessionThinkingFile_Write (sm : SessionManager B) (id : Z)
    (p : string) (offset : Z) : SessionManager B * WriteResult :=
  match Get sm id with
  | None => (sm, (0, Some ErrNotFound))
  | Some session =>
      let value := TrimSpace p in
      if (value =? "max")%string || (value =? "-1")%string
      then (update session (SetThinkingTokens (-1)) sm, (len p, None))
      else if (value =? "disabled")%string || (value =? "off")%string
              || (value =? "0")%string
      then (update session (SetThinkingTokens 0) sm, (len p, None))
      else
        match Atoi value with
        | inr err => (sm, (0, Some (ProtocolErrorNum "invalid thinking budget: " err)))
        | inl tokens => (update session (SetThinkingTokens tokens) sm, (len p, None))
        end
  end.

Definition SessionThinkingFile_Stat : Stat :=
  with_length 16 (BaseFile_Stat "thinking").

(** *** prefill *)

Definition SessionPrefillFile_content (s : Session) : string :=
  terminate (llm.prefill s).

Definition SessionPrefillFile_Read (sm : SessionManager B) (id : Z)
    (cap : nat) (offset : Z) : ReadResult :=
  match Get sm id with
  | None => ("", Some ErrNotFound)
  | Some session =>
      read_at (SessionPrefillFile_content (deref sm session)) cap offset
  end.

Definition SessionPrefillFile_Write (sm : SessionManager B) (id : Z)
    (p : string) (offset : Z) : SessionManager B * WriteResult :=
  match Get sm id with
  | None => (sm, (0, Some ErrNotFound))
  | Some session =>
      let prefill := TrimSuffix_nl p in
      (update session (SetPrefill prefill) sm, (len p, None))
  end.

Definition SessionPrefillFile_Stat (sm : SessionManager B) (id : Z) : Stat :=
  let s := BaseFile_Stat "prefill" in
  match Get sm id with
  | Some session =>
      let content := llm.prefill (deref sm session) in
      if negb (content =? "")%string then with_length (len content + 1) s else s
  | None => s
  end.

(** *** The session directory and the root *)

Definition SessionDir_Children (sm : SessionManager B) (id : Z) : list File :=
  match Get sm id with
  | None => []
  | Some _ =>
      [SessionAskFile id; SessionContextFile id; SessionCtlFile id;
       SessionModelFile id; SessionTemperatureFile id; SessionSystemFile id;
       SessionThinkingFile id; SessionPrefillFile id]
  end.

Definition SessionDir_Lookup (sm : SessionManager B) (id : Z) (name : string)
  : File + error :=
  match Get sm id with
  | None => inr ErrNotFound
  | Some _ =>
      if (name =? "ask")%string then inl (SessionAskFile id)
      else if (name =? "context")%string then inl (SessionContextFile id)
      else if (name =? "ctl")%string then inl (SessionCtlFile id)
      else if (name =? "model")%string then inl (SessionModelFile id)
      else if (name =? "temperature")%string then inl (SessionTemperatureFile id)
      else if (name =? "system")%string then inl (SessionSystemFile id)
      else if (name =? "thinking")%string then inl (SessionThinkingFile id)
      else if (name =? "prefill")%string then inl (SessionPrefillFile id)
      else inr ErrNotFound
  end.

Definition SessionsDir_Children (sm : SessionManager B) : list File :=
  NewFile :: map SessionDir (ListSessions sm).

Definition SessionsDir_Lookup (sm : SessionManager B) (name : string)
  : File + error :=
  if (name =? "new")%string then inl NewFile
  else
    match Atoi name with
    | inr _ => inr ErrNotFound
    | inl id =>
        match Get sm id with
        | None => inr ErrNotFound
        | Some _ => inl (SessionDir id)
        end
    end.

(** *** Operations of a client

    The transport layer resolves a path to a node and calls [Read] or
    [Write] on it; [SetDefaults] is the one call made on the manager
    directly.  [Stat], [Lookup] and [Children] return no manager and are
    left out.  The packed listing that a directory [Read] produces depends
    on [protocol.Stat.Encode] and is not modelled; like every [Read] but
    that of [new], it leaves the manager as it is. *)
Inductive Op :=
  | OpRead (f : File) (cap : nat) (offset : Z)
  | OpWrite (f : File) (p : string) (offset : Z)
  | OpSetDefaults (d : SessionDefaults.t).

Definition Read (sm : SessionManager B) (f : File) (cap : nat) (offset : Z)
  : SessionManager B * option ReadResult :=
  match f with
  | NewFile => let '(sm, r) := NewFile_Read sm cap offset in (sm, Some r)
  | SessionAskFile id => (sm, Some (SessionAskFile_Read sm id cap offset))
  | SessionContextFile id => (sm, Some (SessionContextFile_Read sm id cap offset))
  | SessionCtlFile id => (sm, Some (SessionCtlFile_Read cap offset))
  | SessionModelFile id => (sm, Some (SessionModelFile_Read sm id cap offset))
  | SessionTemperatureFile id =>
      (sm, Some (SessionTemperatureFile_Read sm id cap offset))
  | SessionSystemFile id => (sm, Some (SessionSystemFile_Read sm id cap offset))
  | SessionThinkingFile id => (sm, Some (SessionThinkingFile_Read sm id cap offset))
  | SessionPrefillFile id => (sm, Some (SessionPrefillFile_Read sm id cap offset))
  | SessionsDir | SessionDir _ => (sm, None)
  end.

Definition Write (sm : SessionManager B) (f : File) (p : string) (offset : Z)
  : SessionManager B * WriteResult :=
  match f with
  | NewFile => (sm, NewFile_Write p offset)
  | SessionAskFile id => SessionAskFile_Write sm id p offset
  | SessionCtlFile id => SessionCtlFile_Write sm id p offset
  | SessionModelFile id => SessionModelFile_Write sm id p offset
  | SessionTemperatureFile id => SessionTemperatureFile_Write sm id p offset
  | SessionSystemFile id => SessionSystemFile_Write sm id p offset
  | SessionThinkingFile id => SessionThinkingFile_Write sm id p offset
  | SessionPrefillFile id => SessionPrefillFile_Write sm id p offset
  | SessionContextFile _ | SessionsDir | SessionDir _ =>
      (sm, BaseFile_Write (Name f) p offset)
  end.

Definition step (sm : SessionManager B) (op : Op) : SessionManager B :=
  match op with
  | OpRead f cap offset => fst (Read sm f cap offset)
  | OpWrite f p offset => fst (Write sm f p offset)
  | OpSetDefaults d => SetDefaults d sm
  end.

Definition run (sm : SessionManager B) (ops : list Op) : SessionManager B :=
  fold_left step ops sm.

(** The id that [sm.Create()] returns inside [op], when [op] calls it: only
    a [Read] of [new] at an offset that is not positive does. *)
Definition created (sm : SessionManager B) (op : Op) : option Z :=
  match op with
  | OpRead NewFile _ offset =>
      if (0 <? offset)%Z then None else Some (snd (Create sm))
  | _ => None
  end.

(** The ids issued along a run, oldest first. *)
Fixpoint issued (sm : SessionManager B) (ops : list Op) : list Z :=
  match ops with
  | [] => []
  | op :: ops =>
      match created sm op with
      | Some id => id :: issued (step sm op) ops
      | None => issued (step sm op) ops
      end
  end.

(** [op] writes the command [reset] to the [ctl] file of an id that is
    registered to the object behind [q]. *)
Definition resets (sm : SessionManager B) (op : Op) (q : nat) : Prop :=
  exists id p offset,
    op = OpWrite (SessionCtlFile id) p offset
    /\ sessions sm !! id = Some q
    /\ TrimSpace p = "reset".

(** [op] writes a prompt that is not blank to the [ask] file of an id that
    is registered to the object behind [q], whose value is [s] and which is
    not closed, and the backend answers the request with [tokens] tokens. *)
Definition answers (sm : SessionManager B) (op : Op) (q : nat) (s : Session)
    (tokens : Z) : Prop :=
  exists id p offset response b,
    op = OpWrite (SessionAskFile id) p offset
    /\ sessions sm !! id = Some q
    /\ TrimSpace p <> ""
    /\ closed s = false
    /\ AskWithRequest (apiClient sm) (request s (TrimSpace p))
       = (inl (response, tokens), b).

End files.

End llmfs.

(** ** Instances used to run the model

    A backend and a runtime on which the definitions above evaluate.  The
    theorems below hold for every backend and every runtime; these two
    serve the examples. *)

Module sample.
Import golang llm llmfs.

(** A backend that counts its calls, fails on the prompt [fail] and
    otherwise answers with the prompt and seven tokens. *)
#[export] Instance echo : Backend nat := {
  AskWithRequest n req :=
    (if (AskRequest.Prompt req =? "fail")%string
     then inr "backend unavailable"
     else inl ("echo: " ++ AskRequest.Prompt req, 7),
     S n);
}.

Definition lower (c : ascii) : ascii :=
  let b := byte c in
  if ((65 <=? b) && (b <=? 90))%N then ascii_of_N (b + 32) else c.

Fixpoint map_string (f : ascii -> ascii) (s : string) : string :=
  match s with
  | EmptyString => EmptyString
  | String c r => String (f c) (map_string f r)
  end.

(** [s] cut at the first byte that satisfies [stop]. *)
Fixpoint cut (stop : ascii -> bool) (s : string) : string * option string :=
  match s with
  | EmptyString => (EmptyString, None)
  | String c r =>
      if stop c then (EmptyString, Some r)
      else let '(a, b) := cut stop r in (String c a, b)
  end.

Definition sign_of (s : string) : bool * string :=
  match s with
  | String c r =>
      if (byte c =? 45)%N then (true, r)
      else if (byte c =? 43)%N then (false, r)
      else (false, s)
  | EmptyString => (false, s)
  end.

Definition digits_value (s : string) : option Z :=
  match NilEmpty.uint_of_string s with
  | Some d => Some (Z.of_N (N.of_uint d))
  | None => None
  end.

(** A decimal literal [digits [. digits] [e [sign] digits]] as a mantissa
    and a power of ten. *)
Definition decimal (s : string) : option (Z * Z) :=
  let '(mant, expo) := cut (fun c => (byte (lower c) =? 101)%N) s in
  let '(ip, fp) := cut (fun c => (byte c =? 46)%N) mant in
  let fp := default "" fp in
  if (ip ++ fp =? "")%string then None else
  match digits_value (ip ++ fp) with
  | None => None
  | Some m =>
      let e10 :=
        match expo with
        | None => Some 0
        | Some t =>
            let '(neg, ds) := sign_of t in
            if (ds =? "")%string then None
            else match digits_value ds with
                 | Some e => Some (if neg then - e else e)
                 | None => None
                 end
        end in
      match e10 with
      | None => None
      | Some e => Some (m, e - Z.of_nat (String.length fp))
      end
  end.

(** The binary64 number nearest to [m * 10 ^ e], ties to even. *)
Definition nearest (neg : bool) (m e : Z) : float64 :=
  match m with
  | Zpos pm =>
      if (0 <=? e)%Z
      then binary_normalize 53 1024 (if neg then - (m * 10 ^ e) else m * 10 ^ e) 0 false
      else
        let '(q, e2, l) := SFdiv_core_binary 53 1024 m 0 (10 ^ (- e)) 0 in
        binary_round_aux 53 1024 neg q e2 l
  | _ => S754_zero neg
  end.

(** Stands for [strconv.ParseFloat(s, 64)] on decimal literals without
    digit separators and on the special values; every other text,
    hexadecimal literals included, is refused here. *)
Definition parse_float (s : string) : float64 + NumError :=
  let bad := inr {| Func := "ParseFloat"; Num := s |} in
  let '(neg, body) := sign_of s in
  let word := map_string lower body in
  if (map_string lower s =? "nan")%string then inl S754_nan
  else if (word =? "inf")%string || (word =? "infinity")%string
  then inl (S754_infinity neg)
  else
    match decimal body with
    | None => bad
    | Some (m, e) =>
        match nearest neg m e with
        | S754_infinity _ => bad
        | v => inl v
        end
    end.

Definition udigits (n : Z) : string := NilZero.string_of_uint (N.to_uint (Z.to_N n)).

(** Stands for [fmt.Sprintf("%.2f", v)]: the exact value, rounded to
    hundredths with ties to even. *)
Definition sprintf_2f (v : float64) : string :=
  let fixed (neg : bool) (h : Z) :=
    (if neg then "-" else "") ++ udigits (h / 100) ++ "."
    ++ (if (h mod 100 <? 10)%Z then "0" else "") ++ udigits (h mod 100) in
  match v with
  | S754_nan => "NaN"
  | S754_infinity neg => if neg then "-Inf" else "+Inf"
  | S754_zero neg => fixed neg 0
  | S754_finite neg m e =>
      let num := Zpos m * 100 in
      if (0 <=? e)%Z then fixed neg (num * 2 ^ e)
      else
        let den := 2 ^ (- e) in
        let q := num / den in
        let r := num mod den in
        let up := match Z.compare (2 * r) den with
                  | Gt => true
                  | Eq => Z.odd q
                  | Lt => false
                  end in
        fixed neg (if up then q + 1 else q)
  end.

Definition quote : string := String (ascii_of_N 34) EmptyString.

(** Stands for [json.MarshalIndent]: one object per message, no escaping. *)
Definition marshal_indent (ms : list Message) : string + string :=
  let item (m : Message) :=
    "  {" ++ nl ++ "    " ++ quote ++ "role" ++ quote ++ ": "
    ++ quote ++ Role m ++ quote ++ "," ++ nl
    ++ "    " ++ quote ++ "content" ++ quote ++ ": "
    ++ quote ++ Content m ++ quote ++ nl ++ "  }" in
  match ms with
  | [] => inl "[]"
  | m :: rest =>
      inl ("[" ++ nl ++ fold_left (fun acc x => acc ++ "," ++ nl ++ item x) rest (item m)
           ++ nl ++ "]")
  end.

#[export] Instance runtime : Runtime := {
  ParseFloat := parse_float;
  Sprintf_2f := sprintf_2f;
  MarshalIndent := marshal_indent;
  BaseFile_Stat _ := {| Length := 0 |};
  BaseFile_Write _ _ _ := (0, Some ErrPermission);
}.

(** A fresh manager, and one with a single session (id 0). *)
Definition sm0 : SessionManager nat := NewSessionManager 0%nat.
Definition sm1 : SessionManager nat := fst (Create sm0).

End sample.

(** ** Package llmfs, continued: the files outside the session tree *)

(** The global [system] file ([SystemFile]). *)
Module systemfile.
Import golang llm llmfs.

(** The two methods of [llm.Backend] that [SystemFile] calls. *)
Class PromptBackend (B : Type) := {
  SystemPrompt : B -> string;
  SetSystemPrompt : string -> B -> B;
}.

Section systemfile.
Context {B : Type} `{!PromptBackend B} `{!Runtime}.

Definition SystemFile_content (client : B) : string :=
  let content := SystemPrompt client in
  if negb (content =? "")%string then content ++ nl else content.

Definition SystemFile_Read (client : B) (cap : nat) (offset : Z) : ReadResult :=
  read_at (SystemFile_content client) cap offset.

Definition SystemFile_Write (client : B) (p : string) (offset : Z)
  : B * WriteResult :=
  let prompt := TrimSpace p in
  (SetSystemPrompt prompt client, (len p, None)).

Definition SystemFile_Stat (client : B) : Stat :=
  let s := BaseFile_Stat "system" in
  let content := SystemPrompt client in
  if negb (content =? "")%string then with_length (len content + 1) s
  else with_length 0 s.

End systemfile.

End systemfile.

(** The metrics collector and its file (metrics.go). *)
Module metrics.
Import golang llm llmfs.

(** [time.Time] as far as metrics.go uses it: the zero value of the field
    and [Format(time.RFC3339)]. *)
Class Clock (T : Type) := {
  zeroTime : T;
  Format_RFC3339 : T -> string;
}.

(** The counters are [int64]; [wrap] is their arithmetic. *)
Record Metrics (T : Type) := {
  requestCount : Z;
  totalInputToks : Z;
  totalOutputToks : Z;
  totalLatencyMs : Z;
  lastLatencyMs : Z;
  minLatencyMs : Z;
  maxLatencyMs : Z;
  lastRequestTime : T;
}.
Arguments requestCount {T} _.
Arguments totalInputToks {T} _.
Arguments totalOutputToks {T} _.
Arguments totalLatencyMs {T} _.
Arguments lastLatencyMs {T} _.
Arguments minLatencyMs {T} _.
Arguments maxLatencyMs {T} _.
Arguments lastRequestTime {T} _.

Section metrics.
Context {T : Type} `{!Clock T} `{!Runtime}.

Definition GlobalMetrics : Metrics T :=
  {| requestCount := 0; totalInputToks := 0; totalOutputToks := 0;
     totalLatencyMs := 0; lastLatencyMs := 0;
     minLatencyMs := 999999; maxLatencyMs := 0;
     lastRequestTime := zeroTime |}.

(** [now] is the value that [time.Now()] returns during the call. *)
Definition RecordRequest (m : Metrics T) (inputTokens outputTokens : Z)
    (latencyMs : Z) (now : T) : Metrics T :=
  {| requestCount := wrap (requestCount m + 1);
     totalInputToks := wrap (totalInputToks m + inputTokens);
     totalOutputToks := wrap (totalOutputToks m + outputTokens);
     totalLatencyMs := wrap (totalLatencyMs m + latencyMs);
     lastLatencyMs := latencyMs;
     minLatencyMs := if (latencyMs <? minLatencyMs m)%Z then latencyMs
                     else minLatencyMs m;
     maxLatencyMs := if (maxLatencyMs m <? latencyMs)%Z then latencyMs
                     else maxLatencyMs m;
     lastRequestTime := now |}.

(** The quotient of two [int64]: truncated, and wrapping in the one case
    that overflows. *)
Definition div64 (a b : Z) : Z := wrap (Z.quot a b).

(** The two averages that [Report] computes; it calls them only after the
    test for a zero count. *)
Definition avgLatencyMs (m : Metrics T) : Z :=
  div64 (totalLatencyMs m) (requestCount m).

Definition avgToksPerReq (m : Metrics T) : Z :=
  div64 (wrap (totalInputToks m + totalOutputToks m)) (requestCount m).

Definition Report (m : Metrics T) : string :=
  if (requestCount m =? 0)%Z then "requests: 0" ++ nl
  else
    "requests: " ++ Itoa (requestCount m) ++ nl
    ++ "input_tokens: " ++ Itoa (totalInputToks m) ++ nl
    ++ "output_tokens: " ++ Itoa (totalOutputToks m) ++ nl
    ++ "total_tokens: " ++ Itoa (wrap (totalInputToks m + totalOutputToks m)) ++ nl
    ++ "avg_tokens_per_request: " ++ Itoa (avgToksPerReq m) ++ nl
    ++ "last_latency_ms: " ++ Itoa (lastLatencyMs m) ++ nl
    ++ "avg_latency_ms: " ++ Itoa (avgLatencyMs m) ++ nl
    ++ "min_latency_ms: " ++ Itoa (minLatencyMs m) ++ nl
    ++ "max_latency_ms: " ++ Itoa (maxLatencyMs m) ++ nl
    ++ "last_request: " ++ Format_RFC3339 (lastRequestTime m) ++ nl.

Definition MetricsFile_Read (m : Metrics T) (cap : nat) (offset : Z) : ReadResult :=
  read_at (Report m) cap offset.

Definition MetricsFile_Write (p : string) (offset : Z) : WriteResult :=
  (0, Some ErrPermission).

Definition MetricsFile_Stat (m : Metrics T) : Stat :=
  with_length (len (Report m)) (BaseFile_Stat "metrics").

(** One completed backend call, as the callback receives it, with the
    clock reading taken while it is recorded. *)
Record Request := {
  inputTokens : Z;
  outputTokens : Z;
  latencyMs : Z;
  at_time : T;
}.

Definition record (m : Metrics T) (r : Request) : Metrics T :=
  RecordRequest m (inputTokens r) (outputTokens r) (latencyMs r) (at_time r).

Definition record_all (m : Metrics T) (rs : list Request) : Metrics T :=
  fold_left record rs m.

End metrics.

End metrics.

(** ** Vocabulary of the properties *)

Module vocabulary.
Import golang llm llmfs.

(** The session that a node of the tree addresses. *)
Definition file_id (f : File) : option Z :=
  match f with
  | SessionsDir | NewFile => None
  | SessionDir id | SessionAskFile id | SessionContextFile id
  | SessionCtlFile id | SessionModelFile id | SessionTemperatureFile id
  | SessionSystemFile id | SessionThinkingFile id | SessionPrefillFile id =>
      Some id
  end.

(** A byte below 128 that is not white space. *)
Definition plain (c : ascii) : bool :=
  (byte c <? 128)%N && negb (asciiSpace (byte c)).

Definition all_plain (s : string) : bool :=
  forallb plain (list_ascii_of_string s).

(** A history made of user entries each followed by an assistant entry. *)
Fixpoint paired (ms : list Message) : bool :=
  match ms with
  | [] => true
  | u :: a :: rest =>
      (Role u =? "user")%string && (Role a =? "assistant")%string && paired rest
  | _ => false
  end.

(** The value that passes the range check of the temperature file. *)
Definition temperature_ok (t : float64) : bool :=
  negb (SFltb t float_0_0 || SFltb float_2_0 t).

(** What [ask] holds: nothing, a failure text, or the content of the last
    entry of the history, an assistant entry. *)
Definition answer_consistent (s : Session) : Prop :=
  lastResponse s = ""
  \/ (exists msg, lastResponse s = "Error: " ++ msg)
  \/ (exists ms, messages s
                 = (ms ++ [ {| Role := "assistant"; Content := lastResponse s |} ])%list).

Definition same_conversation (s s' : Session) : Prop :=
  messages s' = messages s /\ lastResponse s' = lastResponse s
  /\ lastTokens s' = lastTokens s /\ totalTokens s' = totalTokens s.

Definition same_settings (s s' : Session) : Prop :=
  model s' = model s /\ temperature s' = temperature s
  /\ systemPrompt s' = systemPrompt s /\ thinkingTokens s' = thinkingTokens s
  /\ llm.prefill s' = llm.prefill s.

(** The ways in which a write to a leaf file changes the session object it
    addresses: each constructor is one write path of that file. *)
Inductive mutation : File -> Session -> Session -> Prop :=
  | mut_answer id s prompt response tokens :
      mutation (SessionAskFile id) s
        (SetLastResponse response
           (AddTokens tokens
              (AddMessage "assistant" response
                 (AddMessage "user" prompt s))))
  | mut_failure id s msg :
      mutation (SessionAskFile id) s (SetLastResponse ("Error: " ++ msg) s)
  | mut_reset id s : mutation (SessionCtlFile id) s (Session_Reset s)
  | mut_close id s : mutation (SessionCtlFile id) s (markClosed s)
  | mut_model id s p :
      TrimSpace p <> "" ->
      mutation (SessionModelFile id) s (SetModel (TrimSpace p) s)
  | mut_temperature id s t :
      temperature_ok t = true ->
      mutation (SessionTemperatureFile id) s (SetTemperature t s)
  | mut_system id s p :
      mutation (SessionSystemFile id) s (SetSystemPrompt (TrimSpace p) s)
  | mut_thinking id s v :
      inInt v -> mutation (SessionThinkingFile id) s (SetThinkingTokens v s)
  | mut_prefill id s p :
      mutation (SessionPrefillFile id) s (SetPrefill (TrimSuffix_nl p) s).

Section vocabulary.
Context {B : Type} `{!Backend B} `{!Runtime}.

(** [D] holds of the defaults that the operation installs, if it does. *)
Definition installs (D : SessionDefaults.t -> Prop) (op : Op) : Prop :=
  match op with
  | OpSetDefaults d => D d
  | _ => True
  end.

End vocabulary.

End vocabulary.

(** A string store standing for the global prompt of a backend, and a
    clock that prints a fixed text. *)
Module sample_more.
Import golang llm llmfs systemfile metrics.

#[export] Instance store : PromptBackend string := {
  SystemPrompt b := b;
  SetSystemPrompt v _ := v;
}.

#[export] Instance clock : Clock unit := {
  zeroTime := tt;
  Format_RFC3339 _ := "0001-01-01T00:00:00Z";
}.

End sample_more.

(** ** Properties *)

Import golang llm llmfs sample.

(** *** Strings and the shared read tail *)

Lemma eqb_empty_false (s : string) : s <> "" -> (s =? "")%string = false.
Proof. intros H. apply String.eqb_neq. exact H. Qed.

Lemma take_string_all (s : string) (cap : nat) :
  (String.length s <= cap)%nat -> take_string cap s = s.
Proof.
  revert cap. induction s as [|c r IH]; intros [|cap] Hle; simpl in *;
    try reflexivity; try lia.
  f_equal. apply IH. lia.
Qed.

Lemma length_append (a b : string) :
  String.length (a ++ b) = (String.length a + String.length b)%nat.
Proof. induction a as [|c r IH]; simpl; [reflexivity | now rewrite IH]. Qed.

Lemma len_append_nl (s : string) : len (s ++ nl) = len s + 1.
Proof. unfold len. rewrite length_append. simpl. lia. Qed.

Lemma len_nonneg (s : string) : 0 <= len s.
Proof. unfold len. lia. Qed.

Lemma len_zero (s : string) : len s = 0 -> s = "".
Proof. unfold len. destruct s; simpl; [reflexivity | lia]. Qed.

(** A read from offset zero into a buffer that is large enough returns the
    whole content; an empty content is end-of-data. *)
Lemma read_at_whole (content : string) (cap : nat) :
  content <> "" -> (String.length content <= cap)%nat ->
  read_at content cap 0 = (content, None).
Proof.
  intros Hne Hcap. unfold read_at.
  destruct (len content <=? 0)%Z eqn:E.
  - apply Z.leb_le in E. exfalso. apply Hne. apply len_zero.
    pose proof (len_nonneg content). lia.
  - simpl. unfold copy. now rewrite take_string_all.
Qed.

Lemma read_at_empty (cap : nat) (offset : Z) :
  0 <= offset -> read_at "" cap offset = ("", Some EOF).
Proof.
  intros H. unfold read_at. change (len "") with 0.
  destruct (0 <=? offset)%Z eqn:E; [reflexivity | apply Z.leb_gt in E; lia].
Qed.

Lemma append_nl_nonempty (s : string) : s ++ nl <> "".
Proof. destruct s; discriminate. Qed.

Lemma HasSuffix_nl_append (s : string) : HasSuffix_nl (s ++ nl) = true.
Proof.
  induction s as [|c r IH]; [reflexivity |].
  simpl. destruct (r ++ nl) eqn:E; [now destruct r | exact IH].
Qed.

Lemma terminate_nonempty (s : string) : s <> "" -> terminate s <> "".
Proof.
  intros H. unfold terminate.
  destruct (negb (s =? "")%string && negb (HasSuffix_nl s)); [| exact H].
  apply append_nl_nonempty.
Qed.

(** *** Pointers and objects *)

Section store.
Context {B : Type} `{!Backend B}.
Implicit Types (sm : SessionManager B) (s : Session).

Lemma deref_lookup sm p s : heap sm !! p = Some s -> deref sm p = s.
Proof. intros H. unfold deref. now rewrite H. Qed.

Lemma heap_update sm p f s :
  heap sm !! p = Some s -> heap (update p f sm) !! p = Some (f s).
Proof. intros H. simpl. rewrite list_lookup_alter_eq. now rewrite H. Qed.

Lemma heap_update_ne sm p q f :
  q <> p -> heap (update p f sm) !! q = heap sm !! q.
Proof. intros H. simpl. apply list_lookup_alter_ne. congruence. Qed.

Lemma heap_update_total sm p q f s :
  heap sm !! q = Some s ->
  heap (update p f sm) !! q = Some (if decide (p = q) then f s else s).
Proof.
  intros H. case_decide as E.
  - subst. now apply heap_update.
  - rewrite heap_update_ne; [exact H | congruence].
Qed.

End store.

(** *** The ask cycle *)

Section ask.
Context {B : Type} `{!Backend B} `{!Runtime}.
Implicit Types (sm : SessionManager B) (s : Session).

(** C3. A successful [Ask] on a registered session that is not closed
    appends the user entry and then the assistant entry to the history,
    records the token count in [lastTokens], adds it to [totalTokens] (in
    [int] arithmetic), stores the response as [lastResponse], and changes no
    other field of that session, no other session object, and nothing in
    the registry. *)
Theorem Ask_success sm id ptr s prompt response tokens b :
  sessions sm !! id = Some ptr ->
  heap sm !! ptr = Some s ->
  closed s = false ->
  AskWithRequest (apiClient sm) (request s prompt) = (inl (response, tokens), b) ->
  exists sm' s',
    Ask sm id prompt = (sm', (response, None))
    /\ heap sm' !! ptr = Some s'
    /\ messages s' = (messages s ++ [ {| Role := "user"; Content := prompt |};
                                      {| Role := "assistant"; Content := response |} ])%list
    /\ lastTokens s' = tokens
    /\ totalTokens s' = wrap (totalTokens s + tokens)
    /\ lastResponse s' = response
    /\ (ID s' = ID s /\ model s' = model s /\ temperature s' = temperature s
        /\ systemPrompt s' = systemPrompt s /\ thinkingTokens s' = thinkingTokens s
        /\ llm.prefill s' = llm.prefill s /\ closed s' = closed s)
    /\ (forall q, q <> ptr -> heap sm' !! q = heap sm !! q)
    /\ sessions sm' = sessions sm /\ nextID sm' = nextID sm
    /\ defaults sm' = defaults sm.
Proof.
  intros Hreg Hobj Hopen Hcall.
  unfold Ask, Get. rewrite Hreg, (deref_lookup _ _ _ Hobj), Hopen, Hcall.
  eexists _, _. split; [reflexivity |].
  split.
  { simpl. rewrite !list_lookup_alter_eq, Hobj. reflexivity. }
  simpl. rewrite <- app_assoc. simpl.
  repeat split; try assumption.
  intros q Hq. rewrite !list_lookup_alter_ne by congruence. reflexivity.
Qed.

(** C1. When the backend call fails, the write to [ask] still returns the
    full byte count and no error; the session keeps its history and both
    token counters; [lastResponse] becomes the text [Error: ] followed by
    the backend's message, which is what the next read of [ask] returns
    (newline-terminated); [Ask] itself reports the failure to its caller. *)
Theorem Ask_failure_absorbed sm id ptr s p offset msg b :
  sessions sm !! id = Some ptr ->
  heap sm !! ptr = Some s ->
  closed s = false ->
  TrimSpace p <> "" ->
  AskWithRequest (apiClient sm) (request s (TrimSpace p)) = (inr msg, b) ->
  exists sm' s',
    SessionAskFile_Write sm id p offset = (sm', (len p, None))
    /\ snd (snd (Ask sm id (TrimSpace p))) = Some (BackendError msg)
    /\ heap sm' !! ptr = Some s'
    /\ messages s' = messages s
    /\ lastTokens s' = lastTokens s
    /\ totalTokens s' = totalTokens s
    /\ lastResponse s' = "Error: " ++ msg
    /\ s' = SetLastResponse ("Error: " ++ msg) s
    /\ (forall q, q <> ptr -> heap sm' !! q = heap sm !! q)
    /\ sessions sm' = sessions sm /\ nextID sm' = nextID sm
    /\ (forall cap, (String.length (terminate ("Error: " ++ msg)) <= cap)%nat ->
          SessionAskFile_Read sm' id cap 0 = (terminate ("Error: " ++ msg), None)).
Proof.
  intros Hreg Hobj Hopen Hprompt Hcall.
  unfold SessionAskFile_Write. rewrite (eqb_empty_false _ Hprompt).
  unfold Ask, Get. rewrite Hreg, (deref_lookup _ _ _ Hobj), Hopen, Hcall.
  eexists _, _. split; [reflexivity |].
  split; [reflexivity |].
  split.
  { simpl. rewrite list_lookup_alter_eq, Hobj. reflexivity. }
  repeat split.
  - intros q Hq. simpl. rewrite list_lookup_alter_ne by congruence. reflexivity.
  - intros cap Hcap. unfold SessionAskFile_Read, Get. simpl. rewrite Hreg.
    unfold deref. simpl. rewrite list_lookup_alter_eq, Hobj. simpl.
    unfold SessionAskFile_content. simpl.
    apply read_at_whole; [| exact Hcap].
    apply terminate_nonempty. discriminate.
Qed.

End ask.

Lemma Ask_success_witness :
  exists sm' s',
    Ask sample.sm1 0 "hello" = (sm', ("echo: hello", None))
    /\ heap sm' !! 0%nat = Some s'
    /\ messages s' = [ {| Role := "user"; Content := "hello" |};
                       {| Role := "assistant"; Content := "echo: hello" |} ]
    /\ lastTokens s' = 7
    /\ totalTokens s' = wrap (0 + 7)
    /\ lastResponse s' = "echo: hello".
Proof.
  destruct (Ask_success sample.sm1 0 0%nat
              (NewSession 0 DefaultSessionDefaults) "hello" "echo: hello" 7 1%nat)
    as (sm' & s' & H1 & H2 & H3 & H4 & H5 & H6 & _);
    [reflexivity | reflexivity | reflexivity | reflexivity |].
  exists sm', s'. repeat split; assumption.
Defined.

Lemma Ask_failure_absorbed_witness :
  exists sm' s',
    SessionAskFile_Write sample.sm1 0 " fail " 0 = (sm', (6, None))
    /\ heap sm' !! 0%nat = Some s'
    /\ messages s' = []
    /\ totalTokens s' = 0
    /\ lastResponse s' = "Error: backend unavailable".
Proof.
  destruct (Ask_failure_absorbed sample.sm1 0 0%nat
              (NewSession 0 DefaultSessionDefaults) " fail " 0
              "backend unavailable" 1%nat)
    as (sm' & s' & H1 & _ & H2 & H3 & _ & H4 & H5 & _);
    [reflexivity | reflexivity | reflexivity | discriminate | reflexivity |].
  exists sm', s'. repeat split; assumption.
Defined.

(** *** Settings files *)

Lemma byte_newline (c : ascii) : (byte c =? 10)%N = true -> c = newline.
Proof.
  intros H. apply N.eqb_eq in H. unfold byte in H.
  rewrite <- (ascii_N_embedding c), H. reflexivity.
Qed.

Lemma TrimSuffix_nl_strips (p : string) :
  HasSuffix_nl p = true -> p = TrimSuffix_nl p ++ nl.
Proof.
  induction p as [|c r IH]; [discriminate |].
  destruct r as [|c' r'].
  - simpl. intros H. rewrite H. simpl. now rewrite (byte_newline c H).
  - intros H. change (HasSuffix_nl (String c' r') = true) in H.
    change (String c (String c' r')
            = String c (TrimSuffix_nl (String c' r') ++ nl)).
    f_equal. now apply IH.
Qed.

Lemma TrimSuffix_nl_keeps (p : string) :
  HasSuffix_nl p = false -> TrimSuffix_nl p = p.
Proof.
  induction p as [|c r IH]; [reflexivity |].
  destruct r as [|c' r'].
  - simpl. intros H. now rewrite H.
  - intros H. change (HasSuffix_nl (String c' r') = false) in H.
    change (String c (TrimSuffix_nl (String c' r')) = String c (String c' r')).
    f_equal. now apply IH.
Qed.

Lemma terminate_adds (c : string) :
  c <> "" -> HasSuffix_nl c = false -> terminate c = c ++ nl.
Proof.
  intros Hne Hs. unfold terminate.
  now rewrite (eqb_empty_false _ Hne), Hs.
Qed.

Lemma terminate_keeps (c : string) :
  c = "" \/ HasSuffix_nl c = true -> terminate c = c.
Proof.
  intros [-> | Hs]; [reflexivity |]. unfold terminate. rewrite Hs.
  now rewrite andb_false_r.
Qed.

Section settings.
Context {B : Type} `{!Backend B} `{!Runtime}.
Implicit Types (sm : SessionManager B) (s : Session).

(** C9. A write to [prefill] stores the input as it is, without one
    trailing newline when the input ends in one, and touches nothing else;
    it returns the full byte count.  The content read back is the stored
    value, followed by a newline exactly when the stored value is non-empty
    and does not already end in one.  Writing [Sure, here is  ] reads back
    as that text plus a newline. *)
Theorem prefill_write_read sm id ptr s :
  sessions sm !! id = Some ptr ->
  heap sm !! ptr = Some s ->
  (forall p offset,
     let stored := TrimSuffix_nl p in
     let sm' := update ptr (SetPrefill stored) sm in
     SessionPrefillFile_Write sm id p offset = (sm', (len p, None))
     /\ heap sm' !! ptr = Some (SetPrefill stored s)
     /\ (HasSuffix_nl p = true -> p = stored ++ nl)
     /\ (HasSuffix_nl p = false -> stored = p)
     /\ (forall cap off,
           SessionPrefillFile_Read sm' id cap off = read_at (terminate stored) cap off)
     /\ (stored <> "" -> HasSuffix_nl stored = false ->
           terminate stored = stored ++ nl)
     /\ (stored = "" \/ HasSuffix_nl stored = true -> terminate stored = stored))
  /\ (forall offset cap, (16 <= cap)%nat ->
        SessionPrefillFile_Read
          (fst (SessionPrefillFile_Write sm id "Sure, here is  " offset)) id cap 0
        = ("Sure, here is  " ++ nl, None)).
Proof.
  intros Hreg Hobj.
  assert (Hread : forall v cap off,
            SessionPrefillFile_Read (update ptr (SetPrefill v) sm) id cap off
            = read_at (terminate v) cap off).
  { intros v cap off. unfold SessionPrefillFile_Read, Get. simpl. rewrite Hreg.
    unfold deref. simpl. rewrite list_lookup_alter_eq, Hobj. reflexivity. }
  split.
  - intros p offset stored sm'. subst stored sm'.
    unfold SessionPrefillFile_Write, Get. rewrite Hreg.
    split; [reflexivity |].
    split; [now apply heap_update |].
    split; [apply TrimSuffix_nl_strips |].
    split; [apply TrimSuffix_nl_keeps |].
    split; [apply Hread |].
    split; [apply terminate_adds | apply terminate_keeps].
  - intros offset cap Hcap.
    unfold SessionPrefillFile_Write, Get. rewrite Hreg. simpl fst.
    rewrite Hread. apply read_at_whole; [discriminate | simpl; lia].
Qed.

End settings.

Lemma prefill_write_read_witness :
  SessionPrefillFile_Read
    (fst (SessionPrefillFile_Write sm1 0 "Sure, here is  " 0)) 0 64 0
  = ("Sure, here is  " ++ nl, None).
Proof.
  apply (proj2 (prefill_write_read sm1 0 0%nat (NewSession 0 DefaultSessionDefaults)
                  eq_refl eq_refl) 0 64%nat).
  lia.
Defined.

Section thinking.
Context {B : Type} `{!Backend B}.
Implicit Types (sm : SessionManager B) (s : Session).

Lemma thinking_read_after sm id ptr s v cap off :
  sessions sm !! id = Some ptr ->
  heap sm !! ptr = Some s ->
  SessionThinkingFile_Read (update ptr (SetThinkingTokens v) sm) id cap off
  = read_at (SessionThinkingFile_content (SetThinkingTokens v s)) cap off.
Proof.
  intros Hreg Hobj. unfold SessionThinkingFile_Read, Get. simpl. rewrite Hreg.
  unfold deref. simpl. rewrite list_lookup_alter_eq, Hobj. reflexivity.
Qed.

(** C8. Whatever white space surrounds it, the text [max] and the text
    [-1] both store -1 and read back as [max] and a newline; [0], [off] and
    [disabled] all store 0 and read back as [disabled] and a newline; [500]
    stores 500 and reads back as [500] and a newline.  A text that is none
    of the three words and that [Atoi] refuses makes the write fail with an
    error and a zero count, the manager unchanged. *)
Theorem thinking_write_read sm id ptr s :
  sessions sm !! id = Some ptr ->
  heap sm !! ptr = Some s ->
  let stores p v text :=
    forall offset cap, (String.length text <= cap)%nat ->
      SessionThinkingFile_Write sm id p offset
      = (update ptr (SetThinkingTokens v) sm, (len p, None))
      /\ SessionThinkingFile_Read
           (fst (SessionThinkingFile_Write sm id p offset)) id cap 0
         = (text, None) in
  (forall p, TrimSpace p = "max" \/ TrimSpace p = "-1" ->
             stores p (-1) ("max" ++ nl))
  /\ (forall p, TrimSpace p = "0" \/ TrimSpace p = "off" \/ TrimSpace p = "disabled" ->
                stores p 0 ("disabled" ++ nl))
  /\ (forall p, TrimSpace p = "500" -> stores p 500 ("500" ++ nl))
  /\ (forall p e offset,
        TrimSpace p <> "max" -> TrimSpace p <> "disabled" -> TrimSpace p <> "off" ->
        Atoi (TrimSpace p) = inr e ->
        SessionThinkingFile_Write sm id p offset
        = (sm, (0, Some (ProtocolErrorNum "invalid thinking budget: " e)))).
Proof.
  intros Hreg Hobj stores.
  assert (Hstore : forall p v text,
            (forall offset, SessionThinkingFile_Write sm id p offset
               = (update ptr (SetThinkingTokens v) sm, (len p, None))) ->
            SessionThinkingFile_content (SetThinkingTokens v s) = text ->
            text <> "" -> stores p v text).
  { intros p v text Hw Hc Hne offset cap Hcap. split; [apply Hw |].
    rewrite Hw. simpl fst. rewrite (thinking_read_after _ _ _ _ _ _ _ Hreg Hobj), Hc.
    now apply read_at_whole. }
  split; [| split; [| split]].
  - intros p Hp. apply Hstore; [| reflexivity | discriminate].
    intros offset. unfold SessionThinkingFile_Write, Get. rewrite Hreg.
    destruct Hp as [-> | ->]; reflexivity.
  - intros p Hp. apply Hstore; [| reflexivity | discriminate].
    intros offset. unfold SessionThinkingFile_Write, Get. rewrite Hreg.
    destruct Hp as [-> | [-> | ->]]; reflexivity.
  - intros p Hp. apply Hstore; [| reflexivity | discriminate].
    intros offset. unfold SessionThinkingFile_Write, Get. rewrite Hreg, Hp.
    reflexivity.
  - intros p e offset H1 H2 H3 He.
    unfold SessionThinkingFile_Write, Get. rewrite Hreg.
    apply String.eqb_neq in H1, H2, H3. rewrite H1, H2, H3, He.
    destruct (TrimSpace p =? "-1")%string eqn:E1.
    { apply String.eqb_eq in E1. rewrite E1 in He. discriminate. }
    destruct (TrimSpace p =? "0")%string eqn:E2.
    { apply String.eqb_eq in E2. rewrite E2 in He. discriminate. }
    reflexivity.
Qed.

End thinking.

Lemma thinking_write_read_witness :
  SessionThinkingFile_Write sm1 0 ("max" ++ nl) 0
  = (update 0%nat (SetThinkingTokens (-1)) sm1, (4, None))
  /\ SessionThinkingFile_Read
       (fst (SessionThinkingFile_Write sm1 0 ("max" ++ nl) 0)) 0 32 0
     = ("max" ++ nl, None).
Proof.
  apply (proj1 (thinking_write_read sm1 0 0%nat (NewSession 0 DefaultSessionDefaults)
                  eq_refl eq_refl) ("max" ++ nl) (or_introl eq_refl) 0 32%nat).
  simpl. lia.
Defined.

(** *** temperature *)

Lemma SFcompare_antisym (x y : float64) (c : comparison) :
  SFcompare x y = Some c -> SFcompare y x = Some (CompOpp c).
Proof.
  destruct x as [sx | sx | | sx mx ex], y as [sy | sy | | sy my ey];
    simpl; try discriminate;
    try (destruct sx; intros [= <-]; reflexivity);
    try (destruct sy; intros [= <-]; reflexivity);
    try (destruct sx, sy; intros [= <-]; reflexivity).
  destruct sx, sy; intros [= <-]; try reflexivity.
  - rewrite (Z.compare_antisym ex ey).
    destruct (ex ?= ey)%Z; simpl; try reflexivity.
    rewrite (Pos.compare_cont_antisym mx my Eq). simpl.
    rewrite ?CompOpp_involutive. reflexivity.
  - rewrite (Z.compare_antisym ex ey).
    destruct (ex ?= ey)%Z; simpl; try reflexivity.
    rewrite (Pos.compare_cont_antisym mx my Eq). simpl.
    rewrite ?CompOpp_involutive. reflexivity.
Qed.

Lemma SFleb_not_gt (x y : float64) : SFleb x y = true -> SFltb y x = false.
Proof.
  unfold SFleb, SFltb. destruct (SFcompare x y) as [c |] eqn:E; [| discriminate].
  rewrite (SFcompare_antisym _ _ _ E). now destruct c.
Qed.

Section temperature.
Context {B : Type} `{!Backend B} `{!Runtime}.
Implicit Types (sm : SessionManager B) (s : Session).

Lemma temperature_read_after sm id ptr s t cap off :
  sessions sm !! id = Some ptr ->
  heap sm !! ptr = Some s ->
  SessionTemperatureFile_Read (update ptr (SetTemperature t) sm) id cap off
  = read_at (Sprintf_2f t ++ nl) cap off.
Proof.
  intros Hreg Hobj. unfold SessionTemperatureFile_Read, Get. simpl. rewrite Hreg.
  unfold deref. simpl. rewrite list_lookup_alter_eq, Hobj. reflexivity.
Qed.

(** A text that parses to a number between 0.0 and 2.0 is stored, and the
    file then reads as that number in the [%.2f] format and a newline. *)
Lemma temperature_write_in_range sm id ptr s p offset t :
  sessions sm !! id = Some ptr ->
  heap sm !! ptr = Some s ->
  ParseFloat (TrimSpace p) = inl t ->
  SFleb float_0_0 t = true -> SFleb t float_2_0 = true ->
  SessionTemperatureFile_Write sm id p offset
  = (update ptr (SetTemperature t) sm, (len p, None))
  /\ forall cap, (String.length (Sprintf_2f t ++ nl) <= cap)%nat ->
       SessionTemperatureFile_Read (update ptr (SetTemperature t) sm) id cap 0
       = (Sprintf_2f t ++ nl, None).
Proof.
  intros Hreg Hobj Hparse H0 H2. split.
  - unfold SessionTemperatureFile_Write, Get. rewrite Hreg, Hparse.
    now rewrite (SFleb_not_gt _ _ H0), (SFleb_not_gt _ _ H2).
  - intros cap Hcap. rewrite (temperature_read_after _ _ _ _ _ _ _ Hreg Hobj).
    apply read_at_whole; [apply append_nl_nonempty | exact Hcap].
Qed.

(** A text that does not parse, or that parses to a number below 0.0 or
    above 2.0, is refused: the write returns an error and a zero count, and
    the manager, so the stored temperature, stays as it was. *)
Lemma temperature_write_refused sm id ptr p offset :
  sessions sm !! id = Some ptr ->
  (forall e, ParseFloat (TrimSpace p) = inr e ->
     SessionTemperatureFile_Write sm id p offset
     = (sm, (0, Some (ProtocolErrorNum "invalid temperature: " e))))
  /\ (forall t, ParseFloat (TrimSpace p) = inl t ->
        SFltb t float_0_0 = true \/ SFltb float_2_0 t = true ->
        SessionTemperatureFile_Write sm id p offset
        = (sm, (0, Some (ProtocolError "temperature must be between 0.0 and 2.0")))).
Proof.
  intros Hreg. split.
  - intros e He. unfold SessionTemperatureFile_Write, Get. now rewrite Hreg, He.
  - intros t Ht Hout. unfold SessionTemperatureFile_Write, Get. rewrite Hreg, Ht.
    destruct Hout as [-> | ->]; [reflexivity | now rewrite orb_true_r].
Qed.

(** C7 (the case the range check misses). A text that [ParseFloat] turns
    into NaN, as it does the word [NaN], passes both comparisons of the
    range check although NaN is not between 0.0 and 2.0: the write
    succeeds, NaN replaces the stored temperature, and the file reads as the
    rendering of NaN. *)
Theorem temperature_write_NaN_stored sm id ptr s p offset :
  sessions sm !! id = Some ptr ->
  heap sm !! ptr = Some s ->
  ParseFloat (TrimSpace p) = inl S754_nan ->
  SFleb float_0_0 S754_nan && SFleb S754_nan float_2_0 = false
  /\ SessionTemperatureFile_Write sm id p offset
     = (update ptr (SetTemperature S754_nan) sm, (len p, None))
  /\ heap (fst (SessionTemperatureFile_Write sm id p offset)) !! ptr
     = Some (SetTemperature S754_nan s)
  /\ forall cap, (String.length (Sprintf_2f S754_nan ++ nl) <= cap)%nat ->
       SessionTemperatureFile_Read
         (fst (SessionTemperatureFile_Write sm id p offset)) id cap 0
       = (Sprintf_2f S754_nan ++ nl, None).
Proof.
  intros Hreg Hobj Hparse.
  assert (Hw : SessionTemperatureFile_Write sm id p offset
               = (update ptr (SetTemperature S754_nan) sm, (len p, None))).
  { unfold SessionTemperatureFile_Write, Get. now rewrite Hreg, Hparse. }
  split; [reflexivity |]. split; [exact Hw |]. rewrite Hw. simpl fst.
  split; [now apply heap_update |].
  intros cap Hcap. rewrite (temperature_read_after _ _ _ _ _ _ _ Hreg Hobj).
  apply read_at_whole; [apply append_nl_nonempty | exact Hcap].
Qed.

End temperature.

Lemma temperature_write_NaN_stored_witness :
  SessionTemperatureFile_Write sm1 0 "NaN" 0
  = (update 0%nat (SetTemperature S754_nan) sm1, (3, None))
  /\ SessionTemperatureFile_Read
       (fst (SessionTemperatureFile_Write sm1 0 "NaN" 0)) 0 16 0
     = ("NaN" ++ nl, None).
Proof.
  destruct (temperature_write_NaN_stored sm1 0 0%nat
              (NewSession 0 DefaultSessionDefaults) "NaN" 0)
    as (_ & Hw & _ & Hr); [reflexivity | reflexivity | reflexivity |].
  split; [exact Hw | apply (Hr 16%nat); simpl; lia].
Defined.

(** Writing [0.5] and reading, on the sample runtime. *)
Example temperature_half :
  SessionTemperatureFile_Read
    (fst (SessionTemperatureFile_Write sm1 0 "0.5" 0)) 0 16 0
  = ("0.50" ++ nl, None).
Proof. reflexivity. Qed.

(** *** Decimal names of ids *)

Lemma Atoi_digits (d : Decimal.uint) :
  d <> Decimal.Nil ->
  let s := NilEmpty.string_of_uint d in
  let v := Z.of_N (N.of_uint d) in
  (Atoi s = if ((minInt <=? v) && (v <=? maxInt))%Z then inl v
            else inr {| Func := "Atoi"; Num := s |})
  /\ (Atoi (String "-" s)
      = if ((minInt <=? - v) && (- v <=? maxInt))%Z then inl (- v)
        else inr {| Func := "Atoi"; Num := String "-" s |}).
Proof.
  intros Hd s v. pose proof (NilEmpty.usu d) as Hu. fold s in Hu.
  assert (Hs : exists c r, s = String c r /\ (byte c =? 45)%N = false
                           /\ (byte c =? 43)%N = false).
  { subst s. destruct d; [congruence | ..]; simpl; eauto. }
  destruct Hs as (c & r & Hs & H45 & H43).
  split.
  - unfold Atoi. rewrite Hs, H45, H43. rewrite <- Hs, Hu. fold v. now rewrite Hs.
  - unfold Atoi. change (byte "-" =? 45)%N with true. cbv iota beta.
    rewrite Hs. rewrite <- Hs, Hu. fold v. now rewrite Hs.
Qed.

(** [Atoi] reads back what [Itoa] prints, for every [int]. *)
Lemma Atoi_Itoa (z : Z) : inInt z -> Atoi (Itoa z) = inl z.
Proof.
  intros [Hlo Hhi].
  destruct z as [| p | p]; [reflexivity | |].
  - unfold Itoa. simpl.
    pose proof (DecimalPos.Unsigned.to_uint_nonnil p) as Hn.
    unfold NilZero.string_of_uint.
    destruct (Atoi_digits (Pos.to_uint p) Hn) as [H _].
    assert (E : NilZero.string_of_uint (Pos.to_uint p)
                = NilEmpty.string_of_uint (Pos.to_uint p)).
    { unfold NilZero.string_of_uint. now destruct (Pos.to_uint p). }
    fold (NilZero.string_of_uint (Pos.to_uint p)). rewrite E, H.
    unfold N.of_uint. rewrite DecimalPos.Unsigned.of_to. simpl Z.of_N.
    apply Z.leb_le in Hlo, Hhi. now rewrite Hlo, Hhi.
  - unfold Itoa. simpl.
    pose proof (DecimalPos.Unsigned.to_uint_nonnil p) as Hn.
    destruct (Atoi_digits (Pos.to_uint p) Hn) as [_ H].
    assert (E : NilZero.string_of_uint (Pos.to_uint p)
                = NilEmpty.string_of_uint (Pos.to_uint p)).
    { unfold NilZero.string_of_uint. now destruct (Pos.to_uint p). }
    rewrite E, H.
    unfold N.of_uint. rewrite DecimalPos.Unsigned.of_to. simpl Z.of_N.
    change (- Z.pos p) with (Z.neg p).
    apply Z.leb_le in Hlo, Hhi. now rewrite Hlo, Hhi.
Qed.

Lemma to_int_proper (z : Z) :
  Z.to_int z <> Decimal.Pos Decimal.Nil /\ Z.to_int z <> Decimal.Neg Decimal.Nil.
Proof.
  destruct z as [| p | p]; simpl; split; try discriminate;
    intros [= E]; now apply (DecimalPos.Unsigned.to_uint_nonnil p).
Qed.

Lemma int_of_string_Itoa (z : Z) :
  NilZero.int_of_string (Itoa z) = Some (Z.to_int z).
Proof.
  destruct (to_int_proper z) as [H1 H2]. now apply NilZero.isi.
Qed.

Lemma Itoa_inj (a b : Z) : Itoa a = Itoa b -> a = b.
Proof.
  intros E. apply DecimalZ.to_int_inj.
  pose proof (int_of_string_Itoa a) as Ha. rewrite E, int_of_string_Itoa in Ha.
  congruence.
Qed.

#[global] Instance Itoa_Inj : Inj (=) (=) Itoa.
Proof. intros a b. apply Itoa_inj. Qed.

Lemma Itoa_not_new (z : Z) : (Itoa z =? "new")%string = false.
Proof.
  apply String.eqb_neq. intros E.
  pose proof (int_of_string_Itoa z) as H. rewrite E in H. discriminate.
Qed.

(** *** Closing a session *)

Section close.
Context {B : Type} `{!Backend B} `{!Runtime}.
Implicit Types (sm : SessionManager B) (s : Session).

Lemma Close_unregisters sm id : sessions (Close sm id) !! id = None.
Proof.
  unfold Close. destruct (sessions sm !! id) eqn:E; simpl.
  - apply lookup_delete_eq.
  - exact E.
Qed.

Lemma Close_other sm id id' :
  id' <> id -> sessions (Close sm id) !! id' = sessions sm !! id'.
Proof.
  intros Hne. unfold Close. destruct (sessions sm !! id); simpl; [| reflexivity].
  apply lookup_delete_ne. congruence.
Qed.

Lemma ListSessions_registered sm id :
  id ∈ ListSessions sm <-> is_Some (sessions sm !! id).
Proof. unfold ListSessions. rewrite elem_of_elements. apply elem_of_dom. Qed.

(** What every node answers for an id that the registry does not hold. *)
Lemma unregistered_answers sm id :
  sessions sm !! id = None ->
  (SessionDir id ∉ SessionsDir_Children sm)
  /\ (Itoa id ∉ map Name (SessionsDir_Children sm))
  /\ (forall name, Atoi name = inl id -> SessionsDir_Lookup sm name = inr ErrNotFound)
  /\ (inInt id -> SessionsDir_Lookup sm (Itoa id) = inr ErrNotFound)
  /\ SessionDir_Children sm id = []
  /\ (forall name, SessionDir_Lookup sm id name = inr ErrNotFound)
  /\ (forall cap off,
        SessionAskFile_Read sm id cap off = ("", Some ErrNotFound)
        /\ SessionContextFile_Read sm id cap off = ("", Some ErrNotFound)
        /\ SessionModelFile_Read sm id cap off = ("", Some ErrNotFound)
        /\ SessionTemperatureFile_Read sm id cap off = ("", Some ErrNotFound)
        /\ SessionSystemFile_Read sm id cap off = ("", Some ErrNotFound)
        /\ SessionThinkingFile_Read sm id cap off = ("", Some ErrNotFound)
        /\ SessionPrefillFile_Read sm id cap off = ("", Some ErrNotFound))
  /\ (forall q off,
        SessionModelFile_Write sm id q off = (sm, (0, Some ErrNotFound))
        /\ SessionTemperatureFile_Write sm id q off = (sm, (0, Some ErrNotFound))
        /\ SessionSystemFile_Write sm id q off = (sm, (0, Some ErrNotFound))
        /\ SessionThinkingFile_Write sm id q off = (sm, (0, Some ErrNotFound))
        /\ SessionPrefillFile_Write sm id q off = (sm, (0, Some ErrNotFound)))
  /\ (forall q off,
        SessionAskFile_Write sm id q off = (sm, (len q, None))
        /\ fst (Ask sm id (TrimSpace q)) = sm
        /\ snd (snd (Ask sm id (TrimSpace q))) = Some ErrSessionNotFound)
  /\ (forall cap off, SessionCtlFile_Read cap off = ("", Some EOF))
  /\ (forall q off, TrimSpace q = "reset" \/ TrimSpace q = "close" ->
        SessionCtlFile_Write sm id q off = (sm, (len q, None))).
Proof.
  intros Hnone.
  assert (Hlist : id ∉ ListSessions sm).
  { rewrite ListSessions_registered, Hnone. intros [? [=]]. }
  split.
  { unfold SessionsDir_Children. rewrite elem_of_cons. intros [[=] | Hin].
    apply list_elem_of_fmap in Hin as (id' & [= ->] & Hin). now apply Hlist. }
  split.
  { unfold SessionsDir_Children. simpl. rewrite elem_of_cons. intros [Hnew | Hin].
    - pose proof (Itoa_not_new id) as E. apply String.eqb_neq in E. congruence.
    - rewrite map_map in Hin. apply list_elem_of_In, in_map_iff in Hin.
      destruct Hin as (id' & Heq & Hin). simpl in Heq.
      apply Itoa_inj in Heq. subst id'. apply Hlist. now apply list_elem_of_In. }
  assert (Hlook : forall name, Atoi name = inl id ->
                    SessionsDir_Lookup sm name = inr ErrNotFound).
  { intros name Hname. unfold SessionsDir_Lookup, Get.
    destruct (name =? "new")%string eqn:E.
    - apply String.eqb_eq in E. subst name. discriminate.
    - now rewrite Hname, Hnone. }
  split; [exact Hlook |].
  split; [intros Hin; apply Hlook; now apply Atoi_Itoa |].
  split; [unfold SessionDir_Children, Get; now rewrite Hnone |].
  split; [intros name; unfold SessionDir_Lookup, Get; now rewrite Hnone |].
  split.
  { intros cap off.
    unfold SessionAskFile_Read, SessionContextFile_Read, SessionModelFile_Read,
      SessionTemperatureFile_Read, SessionSystemFile_Read,
      SessionThinkingFile_Read, SessionPrefillFile_Read, Get.
    rewrite Hnone. repeat split. }
  split.
  { intros q off.
    unfold SessionModelFile_Write, SessionTemperatureFile_Write,
      SessionSystemFile_Write, SessionThinkingFile_Write,
      SessionPrefillFile_Write, Get.
    rewrite Hnone. repeat split. }
  split.
  { intros q off. unfold SessionAskFile_Write, Ask, Get. rewrite Hnone.
    destruct (TrimSpace q =? "")%string; repeat split. }
  split; [reflexivity |].
  intros q off Hq. unfold SessionCtlFile_Write, Reset, Close, Get.
  rewrite Hnone. destruct Hq as [-> | ->]; reflexivity.
Qed.

End close.

(** *** Stat against Read *)

Section stat.
Context {B : Type} `{!Backend B} `{!Runtime}.
Implicit Types (sm : SessionManager B) (s : Session).

(** C5 (as the code has it). For a registered session, the size that
    [Stat] reports is the byte length of the content that [Read] serves at
    that moment for [model], for [temperature], for [context] when the
    history encodes, and for [system] and [prefill] when the stored value is
    non-empty and not newline-terminated (and when it is empty, if the
    embedded base file reports the length 0).  [Stat] of [thinking] reports
    16 and [Stat] of [new] reports 0, whatever a read returns. *)
Theorem Stat_length_of_content sm id ptr s :
  sessions sm !! id = Some ptr ->
  heap sm !! ptr = Some s ->
  let agrees (st : Stat) (rd : nat -> Z -> ReadResult) :=
    exists content,
      (forall cap off, rd cap off = read_at content cap off)
      /\ Length st = len content in
  agrees (SessionModelFile_Stat sm id) (SessionModelFile_Read sm id)
  /\ agrees (SessionTemperatureFile_Stat sm id) (SessionTemperatureFile_Read sm id)
  /\ (forall c, MarshalIndent (messages s) = inl c ->
        agrees (SessionContextFile_Stat sm id) (SessionContextFile_Read sm id))
  /\ (systemPrompt s <> "" -> HasSuffix_nl (systemPrompt s) = false ->
        agrees (SessionSystemFile_Stat sm id) (SessionSystemFile_Read sm id))
  /\ (llm.prefill s <> "" -> HasSuffix_nl (llm.prefill s) = false ->
        agrees (SessionPrefillFile_Stat sm id) (SessionPrefillFile_Read sm id))
  /\ (systemPrompt s = "" -> Length (BaseFile_Stat "system") = 0 ->
        agrees (SessionSystemFile_Stat sm id) (SessionSystemFile_Read sm id))
  /\ (llm.prefill s = "" -> Length (BaseFile_Stat "prefill") = 0 ->
        agrees (SessionPrefillFile_Stat sm id) (SessionPrefillFile_Read sm id))
  /\ Length SessionThinkingFile_Stat = 16
  /\ (forall cap off,
        SessionThinkingFile_Read sm id cap off
        = read_at (SessionThinkingFile_content s) cap off)
  /\ Length NewFile_Stat = 0.
Proof.
  intros Hreg Hobj agrees. subst agrees. cbv beta.
  pose proof (deref_lookup _ _ _ Hobj) as Hd.
  split.
  { exists (llm.model s ++ nl).
    unfold SessionModelFile_Stat, SessionModelFile_Read, Get.
    rewrite Hreg, Hd. split; [reflexivity |]. simpl. now rewrite len_append_nl. }
  split.
  { exists (SessionTemperatureFile_content s).
    unfold SessionTemperatureFile_Stat, SessionTemperatureFile_Read, Get.
    rewrite Hreg, Hd. split; reflexivity. }
  split.
  { intros c Hc. exists (c ++ nl).
    unfold SessionContextFile_Stat, SessionContextFile_Read, Get.
    rewrite Hreg, Hd, Hc. split; [reflexivity |]. simpl. now rewrite len_append_nl. }
  split.
  { intros Hne Hs. exists (systemPrompt s ++ nl).
    unfold SessionSystemFile_Stat, SessionSystemFile_Read,
      SessionSystemFile_content, Get.
    rewrite Hreg, Hd, (terminate_adds _ Hne Hs), (eqb_empty_false _ Hne).
    split; [reflexivity |]. simpl. now rewrite len_append_nl. }
  split.
  { intros Hne Hs. exists (llm.prefill s ++ nl).
    unfold SessionPrefillFile_Stat, SessionPrefillFile_Read,
      SessionPrefillFile_content, Get.
    rewrite Hreg, Hd, (terminate_adds _ Hne Hs), (eqb_empty_false _ Hne).
    split; [reflexivity |]. simpl. now rewrite len_append_nl. }
  split.
  { intros He Hbase. exists "".
    unfold SessionSystemFile_Stat, SessionSystemFile_Read,
      SessionSystemFile_content, Get.
    rewrite Hreg, Hd, He. split; [reflexivity | exact Hbase]. }
  split.
  { intros He Hbase. exists "".
    unfold SessionPrefillFile_Stat, SessionPrefillFile_Read,
      SessionPrefillFile_content, Get.
    rewrite Hreg, Hd, He. split; [reflexivity | exact Hbase]. }
  split; [reflexivity |].
  split; [| reflexivity].
  intros cap off. unfold SessionThinkingFile_Read, Get. now rewrite Hreg, Hd.
Qed.

End stat.

Lemma Stat_length_of_content_witness :
  let sm := fst (SessionPrefillFile_Write sm1 0 "Sure" 0) in
  Length (SessionModelFile_Stat sm 0) = 25
  /\ fst (SessionModelFile_Read sm 0 64 0) = "claude-sonnet-4-20250514" ++ nl
  /\ (exists content,
        (forall cap off, SessionPrefillFile_Read sm 0 cap off = read_at content cap off)
        /\ Length (SessionPrefillFile_Stat sm 0) = len content).
Proof.
  intros sm.
  destruct (Stat_length_of_content sm 0 0%nat
              (SetPrefill "Sure" (NewSession 0 DefaultSessionDefaults))
              eq_refl eq_refl) as (_ & _ & _ & _ & Hp & _).
  split; [reflexivity |]. split; [reflexivity |].
  apply Hp; [discriminate | reflexivity].
Defined.

(** C5 (as stated) fails: on a fresh session [thinking] serves the nine
    bytes of [disabled] and a newline while its [Stat] reports 16; and once
    [ask] holds a response without a final newline, its [Stat] reports one
    byte less than a read returns. *)
Lemma Stat_differs_from_read :
  fst (SessionThinkingFile_Read sm1 0 64 0) = "disabled" ++ nl
  /\ len (fst (SessionThinkingFile_Read sm1 0 64 0)) = 9
  /\ Length SessionThinkingFile_Stat = 16
  /\ (let sm := fst (SessionAskFile_Write sm1 0 "hello" 0) in
      fst (SessionAskFile_Read sm 0 64 0) = "echo: hello" ++ nl
      /\ len (fst (SessionAskFile_Read sm 0 64 0)) = 12
      /\ Length (SessionAskFile_Stat sm 0) = 11).
Proof. repeat split. Qed.

(** *** The registry invariant *)

Create HintDb session_wf.

Section invariant.
Context {B : Type} `{!Backend B} `{!Runtime}.
Implicit Types (sm : SessionManager B) (s : Session).

Lemma wf_init (client : B) : wf (NewSessionManager client).
Proof.
  split.
  - intros id p Hp. simpl in Hp. now rewrite lookup_empty in Hp.
  - intros id1 id2 p Hp. simpl in Hp. now rewrite lookup_empty in Hp.
Qed.

Lemma wf_update sm p f :
  (forall s, closed (f s) = closed s) -> wf sm -> wf (update p f sm).
Proof.
  intros Hf [Hopen Hinj]. split; [| exact Hinj].
  intros id q Hq. simpl in Hq. destruct (Hopen id q Hq) as (s & Hs & Hc).
  exists (if decide (p = q) then f s else s).
  split; [now apply heap_update_total |].
  case_decide; [now rewrite Hf | exact Hc].
Qed.

Lemma wf_with_client sm b : wf sm -> wf (with_client b sm).
Proof. intros Hw. exact Hw. Qed.

Lemma wf_SetDefaults sm d : wf sm -> wf (SetDefaults d sm).
Proof. intros Hw. exact Hw. Qed.

Lemma wf_Create sm : wf sm -> wf (fst (Create sm)).
Proof.
  intros [Hopen Hinj]. split.
  - intros id p Hp. simpl in Hp.
    destruct (decide (id = nextID sm)) as [-> | Hne].
    + rewrite lookup_insert_eq in Hp. injection Hp as <-.
      exists (NewSession (nextID sm) (defaults sm)). split; [| reflexivity]. simpl.
      rewrite lookup_app_r by lia. now rewrite Nat.sub_diag.
    + rewrite lookup_insert_ne in Hp by congruence.
      destruct (Hopen id p Hp) as (s & Hs & Hc).
      exists s. split; [| exact Hc]. simpl. now apply lookup_app_l_Some.
  - intros id1 id2 p H1 H2. simpl in H1, H2.
    assert (Hold : forall id, sessions sm !! id = Some p -> (p < length (heap sm))%nat).
    { intros id Hid. destruct (Hopen id p Hid) as (s & Hs & _).
      now apply lookup_lt_Some in Hs. }
    destruct (decide (id1 = nextID sm)) as [-> | N1];
      destruct (decide (id2 = nextID sm)) as [-> | N2]; [reflexivity | | |].
    + rewrite lookup_insert_eq in H1. rewrite lookup_insert_ne in H2 by congruence.
      injection H1 as <-. apply Hold in H2. lia.
    + rewrite lookup_insert_eq in H2. rewrite lookup_insert_ne in H1 by congruence.
      injection H2 as <-. apply Hold in H1. lia.
    + rewrite lookup_insert_ne in H1, H2 by congruence. eauto.
Qed.

Lemma wf_Close sm id : wf sm -> wf (Close sm id).
Proof.
  intros [Hopen Hinj]. unfold Close.
  destruct (sessions sm !! id) as [p |] eqn:E; [| now split].
  split.
  - intros id' q Hq. simpl in Hq.
    apply lookup_delete_Some in Hq as [Hne Hq].
    destruct (Hopen id' q Hq) as (s & Hs & Hc).
    exists s. split; [| exact Hc]. simpl.
    rewrite list_lookup_alter_ne; [exact Hs |].
    intros ->. apply Hne. eauto.
  - intros id1 id2 q H1 H2. simpl in H1, H2.
    apply lookup_delete_Some in H1 as [_ H1].
    apply lookup_delete_Some in H2 as [_ H2]. eauto.
Qed.

Lemma wf_Reset sm id : wf sm -> wf (Reset sm id).
Proof.
  intros Hw. unfold Reset. destruct (Get sm id); [| exact Hw].
  now apply wf_update.
Qed.

Lemma wf_Ask sm id prompt : wf sm -> wf (fst (Ask sm id prompt)).
Proof.
  intros Hw. unfold Ask. destruct (Get sm id) as [p |]; [| exact Hw].
  destruct (closed (deref sm p)); [exact Hw |].
  destruct (AskWithRequest _ _) as [[[response tokens] | msg] b]; simpl.
  - repeat (apply wf_update; [reflexivity |]). now apply wf_with_client.
  - apply wf_update; [reflexivity |]. now apply wf_with_client.
Qed.

#[local] Hint Resolve wf_update wf_Create wf_Close wf_Reset wf_SetDefaults
  : session_wf.

Lemma wf_Write sm f p off : wf sm -> wf (fst (Write sm f p off)).
Proof.
  intros Hwf. destruct f; simpl; try exact Hwf.
  - unfold SessionAskFile_Write. destruct (TrimSpace p =? "")%string; [exact Hwf |].
    pose proof (wf_Ask sm id (TrimSpace p) Hwf) as HA.
    destruct (Ask sm id (TrimSpace p)) as [sm' [response [e |]]]; exact HA.
  - unfold SessionCtlFile_Write. repeat case_match; simpl; auto with session_wf.
  - unfold SessionModelFile_Write. repeat case_match; simpl; auto with session_wf.
  - unfold SessionTemperatureFile_Write.
    repeat case_match; simpl; auto with session_wf.
  - unfold SessionSystemFile_Write. repeat case_match; simpl; auto with session_wf.
  - unfold SessionThinkingFile_Write.
    repeat case_match; simpl; auto with session_wf.
  - unfold SessionPrefillFile_Write. repeat case_match; simpl; auto with session_wf.
Qed.

Lemma wf_step sm op : wf sm -> wf (step sm op).
Proof.
  intros Hwf. destruct op as [f cap off | f p off | d]; simpl.
  - destruct f; simpl; try exact Hwf.
    unfold NewFile_Read. destruct (0 <? off)%Z; [exact Hwf |].
    now apply wf_Create.
  - now apply wf_Write.
  - now apply wf_SetDefaults.
Qed.

Lemma wf_run sm ops : wf sm -> wf (run sm ops).
Proof.
  revert sm. induction ops as [| op ops IH]; intros sm Hwf; [exact Hwf |].
  simpl. apply IH. now apply wf_step.
Qed.

(** C10. In every state that a run of client operations reaches from a
    fresh manager, each registered id points at a session object whose
    [closed] flag is false, so [Ask] never answers session-closed.  [Close]
    sets the flag on the object and takes the id out of the registry in one
    step, after which [Ask] on that id answers session-not-found. *)
Theorem registered_sessions_are_open (client : B) (ops : list Op) :
  let sm := run (NewSessionManager client) ops in
  registry_open sm
  /\ (forall id prompt, snd (snd (Ask sm id prompt)) <> Some ErrSessionClosed)
  /\ (forall id ptr s,
        sessions sm !! id = Some ptr -> heap sm !! ptr = Some s ->
        closed s = false
        /\ heap (Close sm id) !! ptr = Some (markClosed s)
        /\ closed (markClosed s) = true
        /\ sessions (Close sm id) !! id = None
        /\ registry_open (Close sm id)
        /\ forall prompt,
             Ask (Close sm id) id prompt
             = (Close sm id, ("", Some ErrSessionNotFound))).
Proof.
  intros sm.
  assert (Hwf : wf sm) by (apply wf_run, wf_init).
  split; [exact (proj1 Hwf) |].
  split.
  - intros id prompt. unfold Ask, Get.
    destruct (sessions sm !! id) as [p |] eqn:E; [| discriminate].
    destruct (proj1 Hwf id p E) as (s & Hs & Hc).
    rewrite (deref_lookup _ _ _ Hs), Hc.
    destruct (AskWithRequest _ _) as [[[response tokens] | msg] b]; discriminate.
  - intros id ptr s Hreg Hobj.
    destruct (proj1 Hwf id ptr Hreg) as (s0 & Hs0 & Hc).
    assert (s0 = s) by congruence. subst s0.
    split; [exact Hc |].
    split.
    { unfold Close. rewrite Hreg. simpl. now rewrite list_lookup_alter_eq, Hobj. }
    split; [reflexivity |].
    split; [apply Close_unregisters |].
    split; [apply wf_Close, Hwf |].
    intros prompt. unfold Ask, Get. now rewrite Close_unregisters.
Qed.

End invariant.

Lemma registered_sessions_are_open_witness :
  let sm := run sm0 [OpRead NewFile 8 0; OpWrite (SessionAskFile 0) "hello" 0] in
  snd (snd (Ask sm 0 "again")) <> Some ErrSessionClosed
  /\ Ask (Close sm 0) 0 "again" = (Close sm 0, ("", Some ErrSessionNotFound)).
Proof.
  intros sm.
  destruct (registered_sessions_are_open 0%nat
              [OpRead NewFile 8 0; OpWrite (SessionAskFile 0) "hello" 0])
    as (_ & Hask & Hclose).
  split; [apply Hask |].
  destruct (Hclose 0 0%nat
              (SetLastResponse "echo: hello"
                 (AddTokens 7
                    (AddMessage "assistant" "echo: hello"
                       (AddMessage "user" "hello"
                          (NewSession 0 DefaultSessionDefaults)))))
              eq_refl eq_refl) as (_ & _ & _ & _ & _ & Hnf).
  apply Hnf.
Defined.

(** *** Identifier allocation *)

Lemma wrap_range (z : Z) : inInt (wrap z).
Proof.
  unfold inInt, wrap, minInt, maxInt.
  pose proof (Z.mod_pos_bound (z + 2 ^ 63) (2 ^ 64) eq_refl). lia.
Qed.

Lemma wrap_id (z : Z) : inInt z -> wrap z = z.
Proof.
  unfold inInt, wrap, minInt, maxInt. intros Hz.
  rewrite Z.mod_small; lia.
Qed.

Lemma wrap_add (a b : Z) : wrap (wrap a + b) = wrap (a + b).
Proof.
  unfold wrap. f_equal.
  replace ((a + 2 ^ 63) mod 2 ^ 64 - 2 ^ 63 + b + 2 ^ 63)
    with ((a + 2 ^ 63) mod 2 ^ 64 + b) by lia.
  rewrite Zplus_mod_idemp_l. f_equal. lia.
Qed.

Section allocation.
Context {B : Type} `{!Backend B} `{!Runtime}.
Implicit Types (sm : SessionManager B) (s : Session).

Lemma nextID_Ask sm id prompt : nextID (fst (Ask sm id prompt)) = nextID sm.
Proof.
  unfold Ask. destruct (Get sm id) as [p |]; [| reflexivity].
  destruct (closed (deref sm p)); [reflexivity |].
  destruct (AskWithRequest _ _) as [[[response tokens] | msg] b]; reflexivity.
Qed.

Lemma nextID_Write sm f p off : nextID (fst (Write sm f p off)) = nextID sm.
Proof.
  destruct f; simpl; try reflexivity.
  - unfold SessionAskFile_Write. destruct (TrimSpace p =? "")%string; [reflexivity |].
    pose proof (nextID_Ask sm id (TrimSpace p)) as HA.
    destruct (Ask sm id (TrimSpace p)) as [sm' [response [e |]]]; exact HA.
  - unfold SessionCtlFile_Write, Reset, Close, Get.
    repeat case_match; reflexivity.
  - unfold SessionModelFile_Write. repeat case_match; reflexivity.
  - unfold SessionTemperatureFile_Write. repeat case_match; reflexivity.
  - unfold SessionSystemFile_Write. repeat case_match; reflexivity.
  - unfold SessionThinkingFile_Write. repeat case_match; reflexivity.
  - unfold SessionPrefillFile_Write. repeat case_match; reflexivity.
Qed.

(** Only a creating read of [new] moves the counter; it returns the old
    value and stores the successor, in [int] arithmetic. *)
Lemma created_step sm op :
  (created sm op = None /\ nextID (step sm op) = nextID sm)
  \/ (created sm op = Some (nextID sm)
      /\ nextID (step sm op) = wrap (nextID sm + 1)).
Proof.
  destruct op as [f cap off | f p off | d]; simpl.
  - destruct f; simpl; try (left; split; reflexivity).
    unfold NewFile_Read. destruct (0 <? off)%Z; [left | right]; split; reflexivity.
  - left. split; [now destruct f | apply nextID_Write].
  - left. split; reflexivity.
Qed.

(** The bytes that a creating read of [new] serves are the decimal name of
    the id that [Create] returned, and a newline. *)
Lemma NewFile_Read_serves_created sm cap off :
  off <= 0 ->
  created sm (OpRead NewFile cap off) = Some (snd (Create sm))
  /\ NewFile_Read sm cap off
     = (fst (Create sm), (copy cap (Itoa (snd (Create sm)) ++ nl), None)).
Proof.
  intros Hoff. unfold created, NewFile_Read.
  destruct (0 <? off)%Z eqn:E; [apply Z.ltb_lt in E; lia |]. split; reflexivity.
Qed.

Lemma run_app sm ops1 ops2 : run sm (ops1 ++ ops2) = run (run sm ops1) ops2.
Proof. unfold run. apply fold_left_app. Qed.

Lemma issued_app sm ops1 ops2 :
  issued sm (ops1 ++ ops2) = (issued sm ops1 ++ issued (run sm ops1) ops2)%list.
Proof.
  revert sm. induction ops1 as [| op ops1 IH]; intros sm; [reflexivity |].
  simpl. destruct (created sm op); rewrite IH; reflexivity.
Qed.

(** The k-th id issued along a run is the counter's start plus k, wrapped;
    the counter ends at its start plus the number of ids, wrapped. *)
Lemma issued_run sm ops :
  inInt (nextID sm) ->
  issued sm ops
  = map (fun k : nat => wrap (nextID sm + Z.of_nat k))
        (seq 0 (length (issued sm ops)))
  /\ nextID (run sm ops)
     = wrap (nextID sm + Z.of_nat (length (issued sm ops))).
Proof.
  revert sm. induction ops as [| op ops IH]; intros sm Hin.
  - simpl. split; [reflexivity |]. rewrite Z.add_0_r. now rewrite wrap_id.
  - simpl. destruct (created_step sm op) as [[Hc Hn] | [Hc Hn]]; rewrite Hc.
    + rewrite <- Hn. apply IH. now rewrite Hn.
    + destruct (IH (step sm op)) as [IH1 IH2]; [rewrite Hn; apply wrap_range |].
      split.
      * simpl. rewrite Z.add_0_r, (wrap_id _ Hin). f_equal.
        rewrite <- seq_shift, map_map. rewrite IH1 at 1.
        apply map_ext. intros k. rewrite Hn, wrap_add. f_equal. lia.
      * change (run (step sm op) ops) with (run (step sm op) ops).
        rewrite IH2, Hn, wrap_add. f_equal. simpl length. lia.
Qed.

(** While the counter stays within [int], the ids issued along a run are
    consecutive from the counter's start, and the counter ends at its start
    plus their number. *)
Lemma issued_consecutive sm ops :
  inInt (nextID sm) ->
  nextID sm + Z.of_nat (length (issued sm ops)) <= maxInt ->
  issued sm ops = seqZ (nextID sm) (Z.of_nat (length (issued sm ops)))
  /\ nextID (run sm ops) = nextID sm + Z.of_nat (length (issued sm ops)).
Proof.
  intros Hin Hmax. destruct (issued_run sm ops Hin) as [Hids Hnext].
  set (n := length (issued sm ops)) in *.
  split.
  - rewrite Hids. unfold seqZ. rewrite Nat2Z.id.
    change (map (fun k : nat => wrap (nextID sm + Z.of_nat k)) (seq 0 n)
            = map (fun i : nat => Z.of_nat i + nextID sm) (seq 0 n)).
    apply map_ext_in. intros k Hk. apply in_seq in Hk.
    rewrite wrap_id; unfold inInt in *; lia.
  - rewrite Hnext. apply wrap_id. unfold inInt in *. lia.
Qed.

(** C2. Along any run of client operations in which the counter stays
    within [int] (its start plus the number of ids issued does not pass the
    largest [int]), the ids that [Create] returns are pairwise distinct,
    whatever was closed and removed in between: they are consecutive from
    the counter's start.  The counter is strictly increasing and above
    every id returned: each [Create] returns the counter's value, which no
    earlier [Create] returned and no later one returns, and leaves the
    counter one higher; at the end the counter is above every id issued. *)
Theorem issued_ids_distinct sm ops :
  inInt (nextID sm) ->
  nextID sm + Z.of_nat (length (issued sm ops)) <= maxInt ->
  NoDup (issued sm ops)
  /\ issued sm ops = seqZ (nextID sm) (Z.of_nat (length (issued sm ops)))
  /\ nextID (run sm ops) = nextID sm + Z.of_nat (length (issued sm ops))
  /\ nextID sm <= nextID (run sm ops)
  /\ (forall id, id ∈ issued sm ops -> nextID sm <= id < nextID (run sm ops))
  /\ (forall before op after id,
        ops = (before ++ op :: after)%list ->
        created (run sm before) op = Some id ->
        id = nextID (run sm before)
        /\ nextID (run sm (before ++ [op])) = id + 1
        /\ (forall id', id' ∈ issued sm before -> id' < id)
        /\ (forall id', id' ∈ issued (run sm (before ++ [op])) after -> id < id')).
Proof.
  intros Hin Hmax. destruct (issued_consecutive sm ops Hin Hmax) as [Hseq Hend].
  split; [rewrite Hseq; apply NoDup_seqZ |].
  split; [exact Hseq |]. split; [exact Hend |]. split; [lia |].
  split.
  { intros id Hid. rewrite Hseq in Hid. apply elem_of_seqZ in Hid. lia. }
  intros before op after id -> Hc.
  assert (Hlen : length (issued sm (before ++ op :: after))
                 = (length (issued sm before)
                    + S (length (issued (step (run sm before) op) after)))%nat).
  { rewrite issued_app, length_app. simpl. now rewrite Hc. }
  rewrite Hlen in Hmax.
  destruct (issued_consecutive sm before Hin) as [Hb1 Hb2]; [lia |].
  destruct (created_step (run sm before) op) as [[Hn _] | [Hs Hn]]; [congruence |].
  rewrite Hc in Hs. injection Hs as ->.
  assert (Hone : nextID (step (run sm before) op) = nextID (run sm before) + 1).
  { rewrite Hn. apply wrap_id. unfold inInt in *. lia. }
  assert (Hrun : run sm (before ++ [op]) = step (run sm before) op)
    by now rewrite run_app.
  rewrite Hrun.
  destruct (issued_consecutive (step (run sm before) op) after) as [Ha1 _].
  { rewrite Hone. unfold inInt in *. lia. }
  { rewrite Hone. lia. }
  split; [reflexivity |]. split; [exact Hone |]. split.
  - intros id' Hid'. rewrite Hb1 in Hid'. apply elem_of_seqZ in Hid'. lia.
  - intros id' Hid'. rewrite Ha1 in Hid'. apply elem_of_seqZ in Hid'. lia.
Qed.

End allocation.

Lemma issued_ids_distinct_witness :
  let ops := [OpRead NewFile 8 0; OpWrite (SessionCtlFile 0) "close" 0;
              OpRead NewFile 8 0; OpRead NewFile 8 5; OpRead NewFile 8 0] in
  issued sm0 ops = [0; 1; 2]
  /\ NoDup (issued sm0 ops)
  /\ nextID (run sm0 ops) = 3.
Proof.
  intros ops.
  destruct (issued_ids_distinct sm0 ops) as (Hnd & _ & Hnext & _).
  - unfold inInt, minInt, maxInt. simpl. lia.
  - unfold maxInt. simpl. lia.
  - split; [reflexivity |]. split; [exact Hnd | exact Hnext].
Defined.

(** *** Token counters *)

Section tokens.
Context {B : Type} `{!Backend B} `{!Runtime}.
Implicit Types (sm : SessionManager B) (s : Session).

Lemma tokens_update sm p f q s :
  (forall s0, totalTokens (f s0) = totalTokens s0) ->
  heap sm !! q = Some s ->
  exists s', heap (update p f sm) !! q = Some s' /\ totalTokens s' = totalTokens s.
Proof.
  intros Hf Hq. exists (if decide (p = q) then f s else s).
  split; [now apply heap_update_total |].
  case_decide; [apply Hf | reflexivity].
Qed.

Lemma fst_SessionAskFile_Write sm id p off :
  (TrimSpace p =? "")%string = false ->
  fst (SessionAskFile_Write sm id p off) = fst (Ask sm id (TrimSpace p)).
Proof.
  intros E. unfold SessionAskFile_Write. rewrite E.
  destruct (Ask sm id (TrimSpace p)) as [sm' [response [e |]]]; reflexivity.
Qed.

(** The three ways in which an operation finds a session object: as the
    one it asks successfully, as the one it resets, or as neither. *)
Ltac not_ask :=
  let H := fresh in intros ? (? & ? & ? & ? & ? & H & _); discriminate H.
Ltac not_reset :=
  let H := fresh in intros (? & ? & ? & H & _); discriminate H.
Ltac untouched s Hq :=
  exists s; split;
  [exact Hq | right; right; split; [not_ask | split; [not_reset | reflexivity]]].

Lemma answers_tokens sm op q s t1 t2 :
  answers sm op q s t1 -> answers sm op q s t2 -> t1 = t2.
Proof.
  intros (id1 & p1 & o1 & r1 & b1 & Hop1 & _ & _ & _ & Hc1)
         (id2 & p2 & o2 & r2 & b2 & Hop2 & _ & _ & _ & Hc2).
  rewrite Hop1 in Hop2. injection Hop2 as <- <- <-.
  rewrite Hc1 in Hc2. now injection Hc2.
Qed.

Lemma answers_not_resets sm op q s t : answers sm op q s t -> resets sm op q -> False.
Proof.
  intros (id1 & p1 & o1 & r1 & b1 & Hop1 & _) (id2 & p2 & o2 & Hop2 & _).
  rewrite Hop1 in Hop2. discriminate.
Qed.

(** How one operation moves the total of a session object: exactly one of
    the three cases applies. *)
Lemma step_moves_totalTokens sm op q s :
  heap sm !! q = Some s ->
  exists s',
    heap (step sm op) !! q = Some s'
    /\ ((exists tokens, answers sm op q s tokens
                        /\ totalTokens s' = wrap (totalTokens s + tokens))
        \/ (resets sm op q /\ totalTokens s' = 0)
        \/ ((forall tokens, ~ answers sm op q s tokens)
            /\ ~ resets sm op q
            /\ totalTokens s' = totalTokens s)).
Proof.
  intros Hq.
  assert (Hupd : forall p f, (forall s0, totalTokens (f s0) = totalTokens s0) ->
            (forall tokens, ~ answers sm op q s tokens) -> ~ resets sm op q ->
            exists s', heap (update p f sm) !! q = Some s'
              /\ ((exists tokens, answers sm op q s tokens
                          /\ totalTokens s' = wrap (totalTokens s + tokens))
                  \/ (resets sm op q /\ totalTokens s' = 0)
                  \/ ((forall tokens, ~ answers sm op q s tokens)
                      /\ ~ resets sm op q
                      /\ totalTokens s' = totalTokens s))).
  { intros p f Hf Hna Hnr.
    destruct (tokens_update sm p f q s Hf Hq) as (s' & Hs' & Ht).
    exists s'. split; [exact Hs' |]. right. right. auto. }
  destruct op as [f cap off | f p off | d]; simpl; [| | untouched s Hq].
  - destruct f; simpl; try untouched s Hq.
    unfold NewFile_Read. destruct (0 <? off)%Z; [untouched s Hq |].
    simpl. exists s. split; [now apply lookup_app_l_Some |].
    right. right. split; [not_ask | split; [not_reset | reflexivity]].
  - destruct f; simpl; try untouched s Hq.
    + (* ask *)
      assert (Hnr : ~ resets sm (OpWrite (SessionAskFile id) p off) q) by not_reset.
      destruct (TrimSpace p =? "")%string eqn:Eb.
      { unfold SessionAskFile_Write. rewrite Eb.
        apply String.eqb_eq in Eb. exists s. split; [exact Hq |].
        right. right. split; [| split; [exact Hnr | reflexivity]].
        intros t (id0 & p0 & o0 & r0 & b0 & Hop & _ & Hnb & _).
        injection Hop as <- <- <-. contradiction. }
      rewrite (fst_SessionAskFile_Write sm id p off Eb). unfold Ask, Get.
      destruct (sessions sm !! id) as [ptr |] eqn:Ereg.
      2: { exists s. split; [exact Hq |].
           right. right. split; [| split; [exact Hnr | reflexivity]].
           intros t (id0 & p0 & o0 & r0 & b0 & Hop & Hreg & _).
           injection Hop as <- <- <-. congruence. }
      destruct (decide (ptr = q)) as [-> | Hne].
      * rewrite (deref_lookup _ _ _ Hq).
        destruct (closed s) eqn:Ec.
        { exists s. split; [exact Hq |].
          right. right. split; [| split; [exact Hnr | reflexivity]].
          intros t (id0 & p0 & o0 & r0 & b0 & Hop & _ & _ & Hopen & _). congruence. }
        destruct (AskWithRequest (apiClient sm) (request s (TrimSpace p)))
          as [[[response tokens] | msg] b] eqn:Hcall; simpl.
        -- rewrite !list_lookup_alter_eq, Hq. eexists. split; [reflexivity |].
           left. exists tokens. split; [| reflexivity].
           exists id, p, off, response, b. apply String.eqb_neq in Eb. auto.
        -- rewrite list_lookup_alter_eq, Hq. eexists. split; [reflexivity |].
           right. right. split; [| split; [exact Hnr | reflexivity]].
           intros t (id0 & p0 & o0 & r0 & b0 & Hop & _ & _ & _ & Hc).
           injection Hop as <- <- <-. rewrite Hcall in Hc. discriminate.
      * assert (Hna : forall t, ~ answers sm (OpWrite (SessionAskFile id) p off) q s t).
        { intros t (id0 & p0 & o0 & r0 & b0 & Hop & Hreg & _).
          injection Hop as <- <- <-. congruence. }
        destruct (closed (deref sm ptr)).
        { exists s. split; [exact Hq |]. right. right. auto. }
        destruct (AskWithRequest _ _) as [[[response tokens] | msg] b]; simpl.
        -- rewrite !list_lookup_alter_ne by exact Hne.
           exists s. split; [exact Hq |]. right. right. auto.
        -- rewrite list_lookup_alter_ne by exact Hne.
           exists s. split; [exact Hq |]. right. right. auto.
    + (* ctl *)
      assert (Hna : forall t, ~ answers sm (OpWrite (SessionCtlFile id) p off) q s t)
        by not_ask.
      unfold SessionCtlFile_Write.
      destruct (TrimSpace p =? "reset")%string eqn:Er.
      * apply String.eqb_eq in Er. unfold Reset, Get.
        destruct (sessions sm !! id) as [ptr |] eqn:Ereg.
        2: { exists s. split; [exact Hq |].
             right. right. split; [exact Hna | split; [| reflexivity]].
             intros (id0 & p0 & o0 & Hop & Hreg & _).
             injection Hop as <- <- <-. congruence. }
        simpl. destruct (decide (ptr = q)) as [-> | Hne].
        -- rewrite list_lookup_alter_eq, Hq. eexists. split; [reflexivity |].
           right. left. split; [| reflexivity]. exists id, p, off. auto.
        -- rewrite list_lookup_alter_ne by exact Hne.
           exists s. split; [exact Hq |].
           right. right. split; [exact Hna | split; [| reflexivity]].
           intros (id0 & p0 & o0 & Hop & Hreg & _).
           injection Hop as <- <- <-. congruence.
      * assert (Hnr : ~ resets sm (OpWrite (SessionCtlFile id) p off) q).
        { intros (id0 & p0 & o0 & Hop & _ & Hcmd).
          injection Hop as <- <- <-. apply String.eqb_neq in Er. contradiction. }
        destruct (TrimSpace p =? "close")%string.
        2: { exists s. split; [exact Hq |]. right. right. auto. }
        unfold Close. destruct (sessions sm !! id) as [ptr |].
        2: { exists s. split; [exact Hq |]. right. right. auto. }
        simpl. destruct (decide (ptr = q)) as [-> | Hne].
        -- rewrite list_lookup_alter_eq, Hq. eexists. split; [reflexivity |].
           right. right. auto.
        -- rewrite list_lookup_alter_ne by exact Hne.
           exists s. split; [exact Hq |]. right. right. auto.
    + assert (Hna : forall t, ~ answers sm (OpWrite (SessionModelFile id) p off) q s t)
        by not_ask.
      assert (Hnr : ~ resets sm (OpWrite (SessionModelFile id) p off) q) by not_reset.
      unfold SessionModelFile_Write. destruct (Get sm id); [| untouched s Hq].
      destruct (negb _); [now apply Hupd | untouched s Hq].
    + assert (Hna : forall t,
                ~ answers sm (OpWrite (SessionTemperatureFile id) p off) q s t)
        by not_ask.
      assert (Hnr : ~ resets sm (OpWrite (SessionTemperatureFile id) p off) q)
        by not_reset.
      unfold SessionTemperatureFile_Write. destruct (Get sm id); [| untouched s Hq].
      destruct (ParseFloat _); [| untouched s Hq].
      destruct (_ || _); [untouched s Hq | now apply Hupd].
    + assert (Hna : forall t, ~ answers sm (OpWrite (SessionSystemFile id) p off) q s t)
        by not_ask.
      assert (Hnr : ~ resets sm (OpWrite (SessionSystemFile id) p off) q) by not_reset.
      unfold SessionSystemFile_Write. destruct (Get sm id); [| untouched s Hq].
      now apply Hupd.
    + assert (Hna : forall t,
                ~ answers sm (OpWrite (SessionThinkingFile id) p off) q s t)
        by not_ask.
      assert (Hnr : ~ resets sm (OpWrite (SessionThinkingFile id) p off) q)
        by not_reset.
      unfold SessionThinkingFile_Write. destruct (Get sm id); [| untouched s Hq].
      destruct (_ || _); [now apply Hupd |].
      destruct (_ || _); [now apply Hupd |].
      destruct (Atoi _); [now apply Hupd | untouched s Hq].
    + assert (Hna : forall t, ~ answers sm (OpWrite (SessionPrefillFile id) p off) q s t)
        by not_ask.
      assert (Hnr : ~ resets sm (OpWrite (SessionPrefillFile id) p off) q) by not_reset.
      unfold SessionPrefillFile_Write. destruct (Get sm id); [| untouched s Hq].
      now apply Hupd.
Qed.

(** C4 (as the code has it). What an operation does to the total of a
    session object is decided by how it finds that object.  A successful
    ask on that session (a prompt that is not blank, written to the [ask]
    file of an id registered to the object, which is not closed, and
    answered by the backend) adds the backend's token count in [int]
    arithmetic.  A [reset] written to the [ctl] file of an id registered to
    the object sets the total to zero.  Every other operation, a reset or
    an ask of another session included, leaves the total as it is.  Hence
    no operation other than a reset of that session lowers the total, as
    long as the backend's counts are non-negative and the sum stays within
    [int]. *)
Theorem totalTokens_step sm op q s :
  heap sm !! q = Some s ->
  exists s',
    heap (step sm op) !! q = Some s'
    /\ (forall tokens, answers sm op q s tokens ->
          totalTokens s' = wrap (totalTokens s + tokens))
    /\ (resets sm op q -> totalTokens s' = 0)
    /\ ((forall tokens, ~ answers sm op q s tokens) -> ~ resets sm op q ->
        totalTokens s' = totalTokens s)
    /\ (~ resets sm op q ->
        minInt <= totalTokens s ->
        (forall req response tokens b,
           AskWithRequest (apiClient sm) req = (inl (response, tokens), b) ->
           0 <= tokens /\ totalTokens s + tokens <= maxInt) ->
        totalTokens s <= totalTokens s').
Proof.
  intros Hq.
  destruct (step_moves_totalTokens sm op q s Hq) as (s' & Hs' & Hc).
  exists s'. split; [exact Hs' |].
  split; [| split; [| split]].
  - intros t Ha.
    destruct Hc as [(t' & Ha' & ->) | [[Hr _] | (Hna & _)]].
    + now rewrite (answers_tokens _ _ _ _ _ _ Ha Ha').
    + destruct (answers_not_resets _ _ _ _ _ Ha Hr).
    + destruct (Hna t Ha).
  - intros Hr.
    destruct Hc as [(t' & Ha' & _) | [[_ H0] | (_ & Hnr & _)]].
    + destruct (answers_not_resets _ _ _ _ _ Ha' Hr).
    + exact H0.
    + destruct (Hnr Hr).
  - intros Hna Hnr.
    destruct Hc as [(t' & Ha' & _) | [[Hr _] | (_ & _ & Hsame)]].
    + destruct (Hna t' Ha').
    + destruct (Hnr Hr).
    + exact Hsame.
  - intros Hnr Hlo Hback.
    destruct Hc as [(t' & Ha' & ->) | [[Hr _] | (_ & _ & ->)]].
    + destruct Ha' as (id & p & off & response & b & _ & _ & _ & _ & Hcall).
      destruct (Hback _ _ _ _ Hcall) as [H0 Hmax].
      rewrite wrap_id; [lia | unfold inInt; lia].
    + destruct (Hnr Hr).
    + lia.
Qed.

End tokens.

Lemma totalTokens_step_witness :
  let sm := run sm0 [OpRead NewFile 8 0; OpWrite (SessionAskFile 0) "hello" 0] in
  exists s',
    heap (step sm (OpWrite (SessionAskFile 0) "more" 0)) !! 0%nat = Some s'
    /\ totalTokens s' = 14
    /\ 7 <= totalTokens s'.
Proof.
  intros sm.
  destruct (totalTokens_step sm (OpWrite (SessionAskFile 0) "more" 0) 0%nat
              (SetLastResponse "echo: hello"
                 (AddTokens 7
                    (AddMessage "assistant" "echo: hello"
                       (AddMessage "user" "hello"
                          (NewSession 0 DefaultSessionDefaults)))))
              eq_refl) as (s' & Hs' & Hadd & _ & _ & Hmono).
  exists s'. split; [exact Hs' |]. split.
  - rewrite (Hadd 7); [reflexivity |].
    exists 0, "more", 0, "echo: more", 2%nat.
    split; [reflexivity |]. split; [reflexivity |]. split; [discriminate |].
    split; reflexivity.
  - apply Hmono; [| apply Z.leb_le; reflexivity |].
    + intros (id & p & off & Hop & _). discriminate Hop.
    + intros req response tokens b Hcall. simpl in Hcall.
      destruct (AskRequest.Prompt req =? "fail")%string; [discriminate |].
      injection Hcall as _ <- _.
      split; [lia | apply Z.leb_le; reflexivity].
Defined.

(** C4 (as stated) fails: a reset lowers the total from 7 to 0. *)
Lemma reset_lowers_totalTokens :
  let sm := run sm0 [OpRead NewFile 8 0; OpWrite (SessionAskFile 0) "hello" 0] in
  let sm' := step sm (OpWrite (SessionCtlFile 0) "reset" 0) in
  totalTokens (deref sm 0%nat) = 7
  /\ totalTokens (deref sm' 0%nat) = 0
  /\ ~ totalTokens (deref sm 0%nat) <= totalTokens (deref sm' 0%nat).
Proof.
  split; [reflexivity |]. split; [reflexivity |].
  intros Hle. apply Z.leb_le in Hle. vm_compute in Hle. discriminate.
Qed.

(** ** Further properties of the code *)

Import systemfile metrics vocabulary sample_more.

(** *** White space *)

Lemma list_ascii_app (a b : string) :
  list_ascii_of_string (a ++ b)
  = (list_ascii_of_string a ++ list_ascii_of_string b)%list.
Proof. induction a as [| c r IH]; simpl; [reflexivity | now rewrite IH]. Qed.

Lemma append_empty_r (s : string) : s ++ "" = s.
Proof.
  induction s as [| c r IH]; [reflexivity |].
  change (String c (r ++ "") = String c r). f_equal. exact IH.
Qed.

Lemma rev_string_involutive (s : string) : rev_string (rev_string s) = s.
Proof.
  unfold rev_string.
  rewrite list_ascii_of_string_of_list_ascii, rev_involutive.
  apply string_of_list_ascii_of_string.
Qed.

Lemma rev_string_snoc (s : string) (c : ascii) :
  rev_string (s ++ String c "") = String c (rev_string s).
Proof.
  unfold rev_string. rewrite list_ascii_app, rev_app_distr. reflexivity.
Qed.

Lemma rev_string_cons (s : string) (c : ascii) :
  rev_string (String c s) = rev_string s ++ String c "".
Proof.
  unfold rev_string. simpl.
  generalize (rev (list_ascii_of_string s)). intros l.
  induction l as [| a l IH]; simpl; [reflexivity | now rewrite IH].
Qed.

Lemma plain_not_space (c : ascii) : plain c = true -> asciiSpace (byte c) = false.
Proof.
  unfold plain. intros Hp. apply andb_prop in Hp as [_ Hp].
  now apply negb_true_iff in Hp.
Qed.

Lemma plain_space2 (c : ascii) (b : N) :
  plain c = true -> space2 (byte c) b = false /\ space2 b (byte c) = false.
Proof.
  unfold plain, space2. intros Hp. apply andb_prop in Hp as [Hlt _].
  apply N.ltb_lt in Hlt.
  assert (E1 : (byte c =? 194)%N = false) by (apply N.eqb_neq; lia).
  assert (E2 : (byte c =? 133)%N = false) by (apply N.eqb_neq; lia).
  assert (E3 : (byte c =? 160)%N = false) by (apply N.eqb_neq; lia).
  rewrite E1, E2, E3. split; [reflexivity | apply andb_false_r].
Qed.

Lemma plain_space3 (c : ascii) (a b : N) :
  plain c = true -> space3 (byte c) a b = false /\ space3 a b (byte c) = false.
Proof.
  unfold plain, space3. intros Hp. apply andb_prop in Hp as [Hlt _].
  apply N.ltb_lt in Hlt.
  assert (E1 : (byte c =? 225)%N = false) by (apply N.eqb_neq; lia).
  assert (E2 : (byte c =? 226)%N = false) by (apply N.eqb_neq; lia).
  assert (E3 : (byte c =? 227)%N = false) by (apply N.eqb_neq; lia).
  assert (E4 : (byte c =? 128)%N = false) by (apply N.eqb_neq; lia).
  assert (E5 : (128 <=? byte c)%N = false) by (apply N.leb_gt; lia).
  assert (E6 : (byte c =? 168)%N = false) by (apply N.eqb_neq; lia).
  assert (E7 : (byte c =? 169)%N = false) by (apply N.eqb_neq; lia).
  assert (E8 : (byte c =? 175)%N = false) by (apply N.eqb_neq; lia).
  assert (E9 : (byte c =? 159)%N = false) by (apply N.eqb_neq; lia).
  rewrite E1, E2, E3, E4, E5, E6, E7, E8, E9. simpl.
  rewrite !andb_false_r. split; reflexivity.
Qed.

(** Trimming stops at a plain byte. *)
Lemma trimHead_plain (back : bool) (c : ascii) (r : string) :
  plain c = true -> trimHead back (String c r) = String c r.
Proof.
  intros Hp. simpl. rewrite (plain_not_space c Hp).
  destruct r as [| c1 r1]; [reflexivity |].
  destruct (plain_space2 c (byte c1) Hp) as [F2 B2].
  rewrite F2, B2. destruct back.
  - destruct r1 as [| c2 r2]; [reflexivity |].
    now rewrite (proj2 (plain_space3 c (byte c2) (byte c1) Hp)).
  - destruct r1 as [| c2 r2]; [reflexivity |].
    now rewrite (proj1 (plain_space3 c (byte c1) (byte c2) Hp)).
Qed.

(** What trimming leaves never starts with an ASCII white-space byte. *)
Lemma trimHead_head (back : bool) (s : string) (c : ascii) (r : string) :
  trimHead back s = String c r -> asciiSpace (byte c) = false.
Proof.
  remember (String.length s) as n eqn:Hn.
  revert s Hn c r. induction n as [n IH] using lt_wf_ind.
  intros s Hn c r. destruct s as [| c0 r0]; [discriminate |].
  simpl. destruct (asciiSpace (byte c0)) eqn:E0.
  { apply (IH (String.length r0)); [subst; simpl; lia | reflexivity]. }
  destruct r0 as [| c1 r1]; [intros [= <- <-]; exact E0 |].
  destruct (if back then space2 (byte c1) (byte c0) else space2 (byte c0) (byte c1)).
  { apply (IH (String.length r1)); [subst; simpl; lia | reflexivity]. }
  destruct r1 as [| c2 r2]; [intros [= <- <-]; exact E0 |].
  destruct (if back then space3 (byte c2) (byte c1) (byte c0)
            else space3 (byte c0) (byte c1) (byte c2)).
  { apply (IH (String.length r2)); [subst; simpl; lia | reflexivity]. }
  intros [= <- <-]. exact E0.
Qed.

Lemma HasSuffix_nl_snoc (s : string) (c : ascii) :
  HasSuffix_nl (s ++ String c "") = (byte c =? 10)%N.
Proof.
  induction s as [| a r IH]; [reflexivity |].
  simpl. destruct (r ++ String c "") eqn:E; [now destruct r | exact IH].
Qed.

(** The result of [TrimSpace] never ends in a newline. *)
Lemma TrimSpace_no_newline (p : string) : HasSuffix_nl (TrimSpace p) = false.
Proof.
  unfold TrimSpace.
  destruct (trimHead true (rev_string (trimHead false p))) as [| c r] eqn:E;
    [reflexivity |].
  rewrite rev_string_cons, HasSuffix_nl_snoc.
  apply trimHead_head in E. unfold asciiSpace in E.
  destruct (byte c =? 10)%N; [| reflexivity].
  destruct (byte c =? 9)%N; simpl in E; discriminate E.
Qed.

Lemma all_plain_last (s : string) (c : ascii) :
  all_plain (s ++ String c "") = true -> plain c = true.
Proof.
  unfold all_plain. rewrite list_ascii_app, forallb_app. simpl.
  intros Hp. apply andb_prop in Hp as [_ Hp]. now rewrite andb_true_r in Hp.
Qed.

Lemma string_snoc_cases (s : string) :
  s = "" \/ exists r c, s = r ++ String c "".
Proof.
  induction s as [| a r IH]; [now left |]. right.
  destruct IH as [-> | (r' & c & ->)].
  - exists "", a. reflexivity.
  - exists (String a r'), c. reflexivity.
Qed.

(** A text of plain bytes is its own trimming, also when one newline
    follows it. *)
Lemma TrimSpace_all_plain (s : string) :
  all_plain s = true ->
  TrimSpace s = s /\ (s <> "" -> TrimSpace (s ++ nl) = s).
Proof.
  intros Hp.
  assert (Hfwd : forall t, trimHead false (s ++ t) = s ++ t \/ s = "").
  { intros t. destruct s as [| c r]; [now right |]. left.
    apply trimHead_plain. unfold all_plain in Hp. simpl in Hp.
    now apply andb_prop in Hp as [Hc _]. }
  assert (Hback : trimHead true (rev_string s) = rev_string s).
  { destruct (string_snoc_cases s) as [-> | (r & c & ->)]; [reflexivity |].
    rewrite rev_string_snoc. apply trimHead_plain. now apply all_plain_last in Hp. }
  split.
  - unfold TrimSpace. destruct (Hfwd "") as [E | ->]; [| reflexivity].
    rewrite append_empty_r in E.
    rewrite E, Hback. apply rev_string_involutive.
  - intros Hne. unfold TrimSpace. destruct (Hfwd nl) as [E | ->]; [| congruence].
    rewrite E. unfold nl. rewrite rev_string_snoc.
    change (trimHead true (String newline (rev_string s)))
      with (trimHead true (rev_string s)).
    rewrite Hback. apply rev_string_involutive.
Qed.

Lemma all_plain_digits (d : Decimal.uint) :
  all_plain (NilEmpty.string_of_uint d) = true.
Proof. induction d; simpl; try reflexivity; exact IHd. Qed.

Lemma all_plain_Itoa (z : Z) : all_plain (Itoa z) = true /\ Itoa z <> "".
Proof.
  assert (Hnz : forall d, NilZero.string_of_uint d
                          = match d with
                            | Decimal.Nil => "0"
                            | _ => NilEmpty.string_of_uint d
                            end) by reflexivity.
  assert (Hu : forall d, all_plain (NilZero.string_of_uint d) = true
                         /\ NilZero.string_of_uint d <> "").
  { intros d. rewrite Hnz. destruct d; split; try discriminate; try reflexivity;
      apply (all_plain_digits (_ d)) || apply all_plain_digits. }
  unfold Itoa. destruct (Z.to_int z) as [d | d]; simpl.
  - apply Hu.
  - split; [| discriminate]. unfold all_plain. simpl. apply (proj1 (Hu d)).
Qed.

Lemma Atoi_inInt (s : string) (v : Z) : Atoi s = inl v -> inInt v.
Proof.
  unfold Atoi.
  destruct (match s with
            | EmptyString => (false, s)
            | String c r =>
                if (byte c =? 45)%N then (true, r)
                else if (byte c =? 43)%N then (false, r) else (false, s)
            end) as [neg digits].
  destruct digits; [discriminate |].
  destruct (NilEmpty.uint_of_string _); [| discriminate].
  destruct (_ && _)%bool eqn:E; [| discriminate].
  intros [= <-]. apply andb_prop in E as [E1 E2].
  apply Z.leb_le in E1, E2. split; assumption.
Qed.

(** *** Partial reads *)

Lemma length_take_string (n : nat) (s : string) :
  String.length (take_string n s) = Nat.min n (String.length s).
Proof.
  revert s. induction n as [| n IH]; intros [| c r]; simpl; try reflexivity.
  now rewrite IH.
Qed.

Lemma length_drop_string (n : nat) (s : string) :
  String.length (drop_string n s) = (String.length s - n)%nat.
Proof.
  revert s. induction n as [| n IH]; intros [| c r]; simpl; try reflexivity; try lia.
  apply IH.
Qed.

Lemma take_drop_string (n : nat) (s : string) :
  take_string n s ++ drop_string n s = s.
Proof.
  revert s. induction n as [| n IH]; intros [| c r]; try reflexivity.
  change (String c (take_string n r ++ drop_string n r) = String c r).
  now rewrite IH.
Qed.

Lemma drop_drop_string (a b : nat) (s : string) :
  drop_string b (drop_string a s) = drop_string (a + b) s.
Proof.
  revert s. induction a as [| a IH]; intros s; [reflexivity |].
  destruct s as [| c r]; simpl; [now destruct b | apply IH].
Qed.

Lemma drop_string_min (n : nat) (s : string) :
  drop_string (Nat.min n (String.length s)) s = drop_string n s.
Proof.
  revert s. induction n as [| n IH]; intros [| c r]; simpl; try reflexivity.
  apply IH.
Qed.

(** X1. The tail shared by every [Read].  At or past the end of the
    content it reports end-of-data; before the end it hands out
    [min(cap, len - offset)] bytes, which are the content from [offset] on,
    so that the read that starts where this one stopped continues it
    without gap or overlap; a buffer of size zero gets zero bytes and no
    end-of-data; a negative offset panics. *)
Theorem read_at_partial (content : string) (cap : nat) (offset : Z) :
  (len content <= offset -> read_at content cap offset = ("", Some EOF))
  /\ (0 <= offset < len content ->
      exists data,
        read_at content cap offset = (data, None)
        /\ String.length data
           = Nat.min cap (String.length content - Z.to_nat offset)
        /\ drop_string (Z.to_nat offset) content
           = data ++ drop_string (Z.to_nat offset + String.length data) content
        /\ (cap = 0%nat -> data = "")
        /\ ((0 < cap)%nat -> data <> ""))
  /\ (offset < 0 -> read_at content cap offset = ("", Some PanicSliceBounds)).
Proof.
  unfold read_at. split; [| split].
  - intros Hle. apply Z.leb_le in Hle. now rewrite Hle.
  - intros [H0 Hlt]. unfold len in Hlt.
    destruct (len content <=? offset)%Z eqn:E1;
      [apply Z.leb_le in E1; unfold len in E1; lia |].
    destruct (offset <? 0)%Z eqn:E2; [apply Z.ltb_lt in E2; lia |].
    eexists. split; [reflexivity |]. unfold copy.
    assert (Hlen : String.length
                     (take_string cap (drop_string (Z.to_nat offset) content))
                   = Nat.min cap (String.length content - Z.to_nat offset)).
    { now rewrite length_take_string, length_drop_string. }
    split; [exact Hlen |].
    split.
    { rewrite <- drop_drop_string, length_take_string.
      set (rest := drop_string (Z.to_nat offset) content).
      rewrite drop_string_min. symmetry. apply take_drop_string. }
    split.
    { intros ->. reflexivity. }
    intros Hcap Hd. rewrite Hd in Hlen. simpl in Hlen. lia.
  - intros Hneg.
    destruct (len content <=? offset)%Z eqn:E1.
    { apply Z.leb_le in E1. pose proof (len_nonneg content). lia. }
    apply Z.ltb_lt in Hneg. now rewrite Hneg.
Qed.

Lemma read_at_partial_witness :
  exists data,
    read_at "hello world" 4 6 = (data, None)
    /\ String.length data = Nat.min 4 (String.length "hello world" - Z.to_nat 6).
Proof.
  destruct (proj1 (proj2 (read_at_partial "hello world" 4 6)))
    as (data & H1 & H2 & _).
  - unfold len. simpl. lia.
  - exists data. split; assumption.
Defined.

(** *** ask, ctl *)

Lemma trimHead_spaces (back : bool) (s : string) :
  forallb (fun c => asciiSpace (byte c)) (list_ascii_of_string s) = true ->
  trimHead back s = "".
Proof.
  induction s as [| c r IH]; [reflexivity |].
  simpl. intros Hs. apply andb_prop in Hs as [Hc Hr]. rewrite Hc. now apply IH.
Qed.

Section ask_ctl.
Context {B : Type} `{!Backend B} `{!Runtime}.
Implicit Types (sm : SessionManager B) (s : Session).

(** X2. A write to [ask] whose bytes are all ASCII white space (none at
    all included) is a no-op that reports success: the manager, the
    backend state in it included, is returned as it was and the count is
    the input length, whether or not the id is registered. *)
Theorem ask_blank_write sm id p offset :
  forallb (fun c => asciiSpace (byte c)) (list_ascii_of_string p) = true ->
  TrimSpace p = ""
  /\ SessionAskFile_Write sm id p offset = (sm, (len p, None)).
Proof.
  intros Hs.
  assert (E : TrimSpace p = "").
  { unfold TrimSpace. now rewrite (trimHead_spaces false p Hs). }
  split; [exact E |]. unfold SessionAskFile_Write. now rewrite E.
Qed.

(** X3. [ctl] accepts exactly two commands: a write succeeds if and only
    if its trimmed text is [reset] or [close]; any other text returns the
    count 0 with the error [unknown command: ] followed by the trimmed
    text, and leaves the manager as it was. *)
Theorem ctl_commands sm id p offset :
  (snd (snd (SessionCtlFile_Write sm id p offset)) = None
   <-> TrimSpace p = "reset" \/ TrimSpace p = "close")
  /\ (TrimSpace p = "reset" ->
      SessionCtlFile_Write sm id p offset = (Reset sm id, (len p, None)))
  /\ (TrimSpace p = "close" ->
      SessionCtlFile_Write sm id p offset = (Close sm id, (len p, None)))
  /\ (TrimSpace p <> "reset" -> TrimSpace p <> "close" ->
      SessionCtlFile_Write sm id p offset
      = (sm, (0, Some (ProtocolError ("unknown command: " ++ TrimSpace p))))).
Proof.
  unfold SessionCtlFile_Write.
  destruct (TrimSpace p =? "reset")%string eqn:Er;
    [apply String.eqb_eq in Er | apply String.eqb_neq in Er].
  { rewrite Er. simpl. repeat split; auto; try congruence; discriminate. }
  destruct (TrimSpace p =? "close")%string eqn:Ec;
    [apply String.eqb_eq in Ec | apply String.eqb_neq in Ec].
  { rewrite Ec. simpl. repeat split; auto; try congruence; discriminate. }
  simpl. repeat split; try congruence; try discriminate.
  intros [? | ?]; congruence.
Qed.

(** X4. [reset] on a registered session empties its history, clears the
    last response and both token counters, and keeps its id, its five
    settings and its place in the registry; no other session object
    changes.  Afterwards [ask] reads as end-of-data, [context] serves the
    encoding of the empty history, and the five settings files read as
    before. *)
Theorem ctl_reset sm id ptr s p offset :
  sessions sm !! id = Some ptr ->
  heap sm !! ptr = Some s ->
  TrimSpace p = "reset" ->
  let sm' := fst (SessionCtlFile_Write sm id p offset) in
  exists s',
    heap sm' !! ptr = Some s'
    /\ messages s' = [] /\ lastResponse s' = ""
    /\ lastTokens s' = 0 /\ totalTokens s' = 0
    /\ same_settings s s' /\ ID s' = ID s /\ closed s' = closed s
    /\ (forall q, q <> ptr -> heap sm' !! q = heap sm !! q)
    /\ sessions sm' = sessions sm /\ nextID sm' = nextID sm
    /\ (forall cap, SessionAskFile_Read sm' id cap 0 = ("", Some EOF))
    /\ (forall cap off,
          SessionContextFile_Read sm' id cap off
          = match MarshalIndent [] with
            | inl c => read_at (c ++ nl) cap off
            | inr e => ("", Some (EncodingError e))
            end)
    /\ (forall cap off,
          SessionModelFile_Read sm' id cap off = SessionModelFile_Read sm id cap off
          /\ SessionTemperatureFile_Read sm' id cap off
             = SessionTemperatureFile_Read sm id cap off
          /\ SessionSystemFile_Read sm' id cap off
             = SessionSystemFile_Read sm id cap off
          /\ SessionThinkingFile_Read sm' id cap off
             = SessionThinkingFile_Read sm id cap off
          /\ SessionPrefillFile_Read sm' id cap off
             = SessionPrefillFile_Read sm id cap off).
Proof.
  intros Hreg Hobj Hp sm'. subst sm'.
  unfold SessionCtlFile_Write. rewrite Hp. simpl fst.
  unfold Reset, Get. rewrite Hreg.
  pose proof (heap_update sm ptr Session_Reset s Hobj) as Hs'.
  assert (Hd : deref (update ptr Session_Reset sm) ptr = Session_Reset s)
    by now apply deref_lookup.
  exists (Session_Reset s). split; [exact Hs' |].
  repeat (split; [reflexivity |]).
  split; [repeat split |].
  repeat (split; [reflexivity |]).
  split; [intros q Hq; now apply heap_update_ne |].
  repeat (split; [reflexivity |]).
  split.
  { intros cap. unfold SessionAskFile_Read, Get. simpl sessions.
    rewrite Hreg, Hd. reflexivity. }
  split.
  { intros cap off. unfold SessionContextFile_Read, Get. simpl sessions.
    rewrite Hreg, Hd. simpl. now destruct (MarshalIndent []). }
  intros cap off.
  unfold SessionModelFile_Read, SessionTemperatureFile_Read,
    SessionSystemFile_Read, SessionThinkingFile_Read, SessionPrefillFile_Read, Get.
  simpl sessions. rewrite Hreg, Hd, (deref_lookup _ _ _ Hobj).
  repeat split.
Qed.

(** X5. [Close] and [Reset] are idempotent and succeed silently on an id
    that is not registered, where they change nothing; a [Reset] after a
    [Close] of the same id changes nothing either. *)
Theorem Close_Reset_idempotent sm id :
  Close (Close sm id) id = Close sm id
  /\ Reset (Reset sm id) id = Reset sm id
  /\ Reset (Close sm id) id = Close sm id
  /\ (sessions sm !! id = None -> Close sm id = sm /\ Reset sm id = sm).
Proof.
  split; [| split; [| split]].
  - unfold Close at 1. now rewrite Close_unregisters.
  - unfold Reset, Get. destruct (sessions sm !! id) as [p |] eqn:E; simpl.
    + rewrite E. unfold update. simpl. f_equal.
      rewrite list_alter_alter_eq. apply list_alter_ext; [| reflexivity].
      intros x _. reflexivity.
    + now rewrite E.
  - unfold Reset, Get. now rewrite Close_unregisters.
  - intros E. unfold Close, Reset, Get. now rewrite E.
Qed.

End ask_ctl.

Lemma ask_blank_write_witness :
  SessionAskFile_Write sm1 0 ("  " ++ nl) 0 = (sm1, (3, None)).
Proof. apply (ask_blank_write sm1 0 ("  " ++ nl) 0). reflexivity. Defined.

Lemma ctl_reset_witness :
  let sm := fst (SessionAskFile_Write sm1 0 "hello" 0) in
  let sm' := fst (SessionCtlFile_Write sm 0 "reset" 0) in
  exists s', heap sm' !! 0%nat = Some s' /\ messages s' = [] /\ totalTokens s' = 0.
Proof.
  intros sm sm'.
  destruct (ctl_reset sm 0 0%nat
              (SetLastResponse "echo: hello"
                 (AddTokens 7
                    (AddMessage "assistant" "echo: hello"
                       (AddMessage "user" "hello"
                          (NewSession 0 DefaultSessionDefaults)))))
              "reset" 0)
    as (s' & H1 & H2 & _ & _ & H3 & _); [reflexivity | reflexivity | reflexivity |].
  exists s'. repeat split; assumption.
Defined.

(** *** How writes reach session objects *)

Section mutations.
Context {B : Type} `{!Backend B} `{!Runtime}.
Implicit Types (sm : SessionManager B) (s : Session) (f : File).

Lemma update_mutates sm f id ptr fn q s :
  file_id f = Some id ->
  sessions sm !! id = Some ptr ->
  (forall s0, mutation f s0 (fn s0)) ->
  heap sm !! q = Some s ->
  exists s',
    heap (update ptr fn sm) !! q = Some s'
    /\ (s' = s
        \/ (mutation f s s'
            /\ exists id, file_id f = Some id /\ sessions sm !! id = Some q)).
Proof.
  intros Hf Hreg Hm Hq. exists (if decide (ptr = q) then fn s else s).
  split; [now apply heap_update_total |].
  case_decide as E; [| now left]. subst q. right. eauto.
Qed.

Lemma Ask_mutates sm id prompt q s :
  heap sm !! q = Some s ->
  exists s',
    heap (fst (Ask sm id prompt)) !! q = Some s'
    /\ (s' = s
        \/ (mutation (SessionAskFile id) s s' /\ sessions sm !! id = Some q)).
Proof.
  intros Hq. unfold Ask, Get.
  destruct (sessions sm !! id) as [p |] eqn:E; [| eauto].
  destruct (closed (deref sm p)); [eauto |].
  destruct (AskWithRequest _ _) as [[[response tokens] | msg] b]; simpl.
  - destruct (decide (p = q)) as [-> | Hne].
    + rewrite !list_lookup_alter_eq, Hq. eexists. split; [reflexivity |].
      right. split; [constructor | reflexivity].
    + rewrite !list_lookup_alter_ne by exact Hne. eauto.
  - destruct (decide (p = q)) as [-> | Hne].
    + rewrite list_lookup_alter_eq, Hq. eexists. split; [reflexivity |].
      right. split; [constructor | reflexivity].
    + rewrite list_lookup_alter_ne by exact Hne. eauto.
Qed.

Lemma temperature_ok_checked (t : float64) :
  SFltb t float_0_0 || SFltb float_2_0 t = false -> temperature_ok t = true.
Proof. unfold temperature_ok. now intros ->. Qed.

(** A write changes a session object only along one of the write paths of
    the file written, and only the object registered under the id of that
    file. *)
Lemma Write_mutates sm f p off q s :
  heap sm !! q = Some s ->
  exists s',
    heap (fst (Write sm f p off)) !! q = Some s'
    /\ (s' = s
        \/ (mutation f s s'
            /\ exists id, file_id f = Some id /\ sessions sm !! id = Some q)).
Proof.
  intros Hq.
  assert (Hsame : exists s', heap sm !! q = Some s'
            /\ (s' = s
                \/ (mutation f s s'
                    /\ exists id, file_id f = Some id /\ sessions sm !! id = Some q)))
    by eauto.
  destruct f; simpl; try exact Hsame.
  - unfold SessionAskFile_Write.
    destruct (TrimSpace p =? "")%string; [exact Hsame |].
    destruct (Ask_mutates sm id (TrimSpace p) q s Hq) as (s' & Hs' & Hm).
    exists s'. split.
    + destruct (Ask sm id (TrimSpace p)) as [sm' [response [e |]]]; exact Hs'.
    + destruct Hm as [-> | [Hm Hr]]; [now left | right; eauto].
  - unfold SessionCtlFile_Write.
    destruct (TrimSpace p =? "reset")%string.
    { unfold Reset, Get. destruct (sessions sm !! id) as [ptr |] eqn:E;
        [| exact Hsame].
      apply (update_mutates sm (SessionCtlFile id) id ptr); auto. constructor. }
    destruct (TrimSpace p =? "close")%string; [| exact Hsame].
    unfold Close. destruct (sessions sm !! id) as [ptr |] eqn:E; [| exact Hsame].
    apply (update_mutates sm (SessionCtlFile id) id ptr markClosed); auto.
    constructor.
  - unfold SessionModelFile_Write, Get.
    destruct (sessions sm !! id) as [ptr |] eqn:E; [| exact Hsame].
    destruct (negb _) eqn:En; [| exact Hsame].
    apply (update_mutates sm (SessionModelFile id) id ptr); auto.
    intros s0. constructor. apply negb_true_iff in En. now apply String.eqb_neq.
  - unfold SessionTemperatureFile_Write, Get.
    destruct (sessions sm !! id) as [ptr |] eqn:E; [| exact Hsame].
    destruct (ParseFloat _) as [t | e]; [| exact Hsame].
    destruct (_ || _) eqn:Ec; [exact Hsame |].
    apply (update_mutates sm (SessionTemperatureFile id) id ptr); auto.
    intros s0. constructor. now apply temperature_ok_checked.
  - unfold SessionSystemFile_Write, Get.
    destruct (sessions sm !! id) as [ptr |] eqn:E; [| exact Hsame].
    apply (update_mutates sm (SessionSystemFile id) id ptr); auto. constructor.
  - unfold SessionThinkingFile_Write, Get.
    destruct (sessions sm !! id) as [ptr |] eqn:E; [| exact Hsame].
    destruct (_ || _).
    { apply (update_mutates sm (SessionThinkingFile id) id ptr); auto.
      intros s0. constructor. unfold inInt, minInt, maxInt. lia. }
    destruct (_ || _).
    { apply (update_mutates sm (SessionThinkingFile id) id ptr); auto.
      intros s0. constructor. unfold inInt, minInt, maxInt. lia. }
    destruct (Atoi _) as [v | e] eqn:Ea; [| exact Hsame].
    apply (update_mutates sm (SessionThinkingFile id) id ptr); auto.
    intros s0. constructor. now apply Atoi_inInt in Ea.
  - unfold SessionPrefillFile_Write, Get.
    destruct (sessions sm !! id) as [ptr |] eqn:E; [| exact Hsame].
    apply (update_mutates sm (SessionPrefillFile id) id ptr); auto. constructor.
Qed.

Lemma length_heap_Ask sm id prompt :
  length (heap (fst (Ask sm id prompt))) = length (heap sm)
  /\ defaults (fst (Ask sm id prompt)) = defaults sm
  /\ sessions (fst (Ask sm id prompt)) = sessions sm.
Proof.
  unfold Ask. destruct (Get sm id) as [p |]; [| auto].
  destruct (closed (deref sm p)); [auto |].
  destruct (AskWithRequest _ _) as [[[response tokens] | msg] b]; simpl;
    rewrite ?length_alter; auto.
Qed.

(** A write allocates nothing, keeps the defaults, and takes at most the id
    of the file written out of the registry. *)
Lemma Write_registry sm f p off :
  length (heap (fst (Write sm f p off))) = length (heap sm)
  /\ defaults (fst (Write sm f p off)) = defaults sm
  /\ (sessions (fst (Write sm f p off)) = sessions sm
      \/ exists id, f = SessionCtlFile id
                    /\ sessions (fst (Write sm f p off)) = delete id (sessions sm)).
Proof.
  destruct f; simpl; auto.
  - unfold SessionAskFile_Write. destruct (TrimSpace p =? "")%string; [auto |].
    pose proof (length_heap_Ask sm id (TrimSpace p)) as (H1 & H2 & H3).
    destruct (Ask sm id (TrimSpace p)) as [sm' [response [e |]]]; auto.
  - unfold SessionCtlFile_Write, Reset, Close, Get.
    repeat case_match; simpl; rewrite ?length_alter;
      (split; [reflexivity | split; [reflexivity | eauto]]).
  - unfold SessionModelFile_Write.
    repeat case_match; simpl; rewrite ?length_alter; auto.
  - unfold SessionTemperatureFile_Write.
    repeat case_match; simpl; rewrite ?length_alter; auto.
  - unfold SessionSystemFile_Write.
    repeat case_match; simpl; rewrite ?length_alter; auto.
  - unfold SessionThinkingFile_Write.
    repeat case_match; simpl; rewrite ?length_alter; auto.
  - unfold SessionPrefillFile_Write.
    repeat case_match; simpl; rewrite ?length_alter; auto.
Qed.

(** Where an object of the heap after one operation comes from: it is the
    object that was there, possibly changed along a write path of a file
    of its session, or it is the fresh object of a creating read. *)
Lemma step_object_origin sm op q s' :
  heap (step sm op) !! q = Some s' ->
  (exists s,
     heap sm !! q = Some s
     /\ (s' = s
         \/ exists f id, mutation f s s' /\ file_id f = Some id
                         /\ sessions sm !! id = Some q))
  \/ (q = length (heap sm)
      /\ s' = NewSession (nextID sm) (defaults sm)
      /\ created sm op = Some (nextID sm)).
Proof.
  intros Hq. destruct op as [f cap off | f p off | d]; simpl in Hq.
  - destruct f; simpl in Hq; try solve [left; eauto].
    unfold NewFile_Read in Hq. simpl.
    destruct (0 <? off)%Z; [left; eauto |]. simpl in Hq.
    apply lookup_app_Some in Hq as [Hq | [Hge Hq]]; [left; eauto |].
    right. apply list_lookup_singleton_Some in Hq as [Hq <-].
    split; [lia | split; reflexivity].
  - left. destruct (Write_registry sm f p off) as (Hlen & _).
    assert (Hlt : (q < length (heap sm))%nat).
    { rewrite <- Hlen. now apply lookup_lt_Some in Hq. }
    apply lookup_lt_is_Some in Hlt as [s Hs]. exists s. split; [exact Hs |].
    destruct (Write_mutates sm f p off q s Hs) as (s'' & Hs'' & Hm).
    assert (s'' = s') by congruence. subst s''.
    destruct Hm as [-> | [Hm (id & Hid & Hr)]]; [now left | right; eauto].
  - left. eauto.
Qed.

Lemma defaults_step sm op :
  defaults (step sm op)
  = match op with OpSetDefaults d => d | _ => defaults sm end.
Proof.
  destruct op as [f cap off | f p off | d]; simpl; [| | reflexivity].
  - destruct f; simpl; try reflexivity.
    unfold NewFile_Read. now destruct (0 <? off)%Z.
  - apply Write_registry.
Qed.

(** A property of session objects that every write path preserves and
    every fresh object has holds of every object after a run. *)
Lemma run_objects (P : Session -> Prop) (D : SessionDefaults.t -> Prop) sm ops :
  (forall f s s', mutation f s s' -> P s -> P s') ->
  (forall id d, D d -> P (NewSession id d)) ->
  Forall (installs D) ops ->
  D (defaults sm) ->
  (forall q s, heap sm !! q = Some s -> P s) ->
  forall q s, heap (run sm ops) !! q = Some s -> P s.
Proof.
  intros Hmut Hnew. revert sm.
  induction ops as [| op ops IH]; intros sm Hops HD Hheap; [exact Hheap |].
  apply Forall_cons in Hops as [Hop Hops]. simpl. apply IH; [exact Hops | |].
  - rewrite defaults_step. destruct op; simpl in Hop; assumption.
  - intros q s' Hq. apply step_object_origin in Hq
      as [(s & Hs & [-> | (f & id & Hm & _)]) | (_ & -> & _)]; eauto.
Qed.

(** X6. Sessions are isolated: a write to a file leaves every session
    object untouched but the one registered under the id of that file. *)
Theorem write_isolation sm f p off q s :
  heap sm !! q = Some s ->
  (forall id, file_id f = Some id -> sessions sm !! id <> Some q) ->
  heap (fst (Write sm f p off)) !! q = Some s.
Proof.
  intros Hq Hother.
  destruct (Write_mutates sm f p off q s Hq) as (s' & Hs' & [-> | [_ (id & Hid & Hr)]]);
    [exact Hs' |].
  exfalso. exact (Hother id Hid Hr).
Qed.

(** X7. What a write may change in the object it addresses.  A write to
    [ask] leaves the five settings and the closed flag; a write to one of
    the five settings files leaves the history, the last response, both
    token counters, the closed flag and the four other settings; a write to
    [ctl] leaves the settings; a write to [context], [new] or a directory
    leaves everything.  No write changes the id. *)
Theorem write_frame sm f p off q s s' :
  heap sm !! q = Some s ->
  heap (fst (Write sm f p off)) !! q = Some s' ->
  ID s' = ID s
  /\ match f with
     | SessionAskFile _ => same_settings s s' /\ closed s' = closed s
     | SessionCtlFile _ => same_settings s s'
     | SessionModelFile _ =>
         same_conversation s s' /\ closed s' = closed s
         /\ temperature s' = temperature s /\ systemPrompt s' = systemPrompt s
         /\ thinkingTokens s' = thinkingTokens s /\ llm.prefill s' = llm.prefill s
     | SessionTemperatureFile _ =>
         same_conversation s s' /\ closed s' = closed s
         /\ model s' = model s /\ systemPrompt s' = systemPrompt s
         /\ thinkingTokens s' = thinkingTokens s /\ llm.prefill s' = llm.prefill s
     | SessionSystemFile _ =>
         same_conversation s s' /\ closed s' = closed s
         /\ model s' = model s /\ temperature s' = temperature s
         /\ thinkingTokens s' = thinkingTokens s /\ llm.prefill s' = llm.prefill s
     | SessionThinkingFile _ =>
         same_conversation s s' /\ closed s' = closed s
         /\ model s' = model s /\ temperature s' = temperature s
         /\ systemPrompt s' = systemPrompt s /\ llm.prefill s' = llm.prefill s
     | SessionPrefillFile _ =>
         same_conversation s s' /\ closed s' = closed s
         /\ model s' = model s /\ temperature s' = temperature s
         /\ systemPrompt s' = systemPrompt s /\ thinkingTokens s' = thinkingTokens s
     | _ => s' = s
     end.
Proof.
  intros Hq Hq'.
  destruct (Write_mutates sm f p off q s Hq) as (s'' & Hs'' & Hm).
  assert (s'' = s') by congruence. subst s''.
  destruct Hm as [-> | [Hm _]].
  - split; [reflexivity |]. destruct f; repeat split.
  - destruct Hm; repeat split.
Qed.

End mutations.

Lemma write_isolation_witness :
  let sm := run sm0 [OpRead NewFile 8 0; OpRead NewFile 8 0] in
  heap (fst (Write sm (SessionAskFile 0) "hello" 0)) !! 1%nat
  = Some (NewSession 1 DefaultSessionDefaults).
Proof.
  intros sm. apply write_isolation; [reflexivity |].
  intros id [= <-]. discriminate.
Defined.

Lemma write_frame_witness :
  let sm := fst (SessionModelFile_Write sm1 0 "m2" 0) in
  exists s',
    heap sm !! 0%nat = Some s'
    /\ same_conversation (NewSession 0 DefaultSessionDefaults) s'
    /\ temperature s' = float_0_7.
Proof.
  intros sm. exists (SetModel "m2" (NewSession 0 DefaultSessionDefaults)).
  destruct (write_frame sm1 (SessionModelFile 0) "m2" 0 0%nat
              (NewSession 0 DefaultSessionDefaults)
              (SetModel "m2" (NewSession 0 DefaultSessionDefaults))
              eq_refl eq_refl) as (_ & Hc & _ & Ht & _).
  split; [reflexivity |]. split; [exact Hc | exact Ht].
Defined.

(** *** Invariants of the reachable states *)

Lemma paired_app (ms : list Message) (prompt response : string) :
  paired ms = true ->
  paired (ms ++ [ {| Role := "user"; Content := prompt |};
                  {| Role := "assistant"; Content := response |} ]) = true.
Proof.
  remember (length ms) as n eqn:Hn. revert ms Hn.
  induction n as [n IH] using lt_wf_ind. intros ms Hn Hp.
  destruct ms as [| u [| a rest]]; [reflexivity | discriminate |].
  simpl in Hp |- *. apply andb_prop in Hp as [Hua Hrest]. rewrite Hua. simpl.
  apply (IH (length rest)); [subst; simpl; lia | reflexivity | exact Hrest].
Qed.

Lemma temperature_ok_meaning (t : float64) :
  temperature_ok t = true ->
  t = S754_nan \/ (SFleb float_0_0 t = true /\ SFleb t float_2_0 = true).
Proof.
  unfold temperature_ok. intros Hok. apply negb_true_iff, orb_false_elim in Hok.
  destruct Hok as [H0 H2].
  destruct t as [st | st | | st mt et]; [right | right | now left | right].
  - split; reflexivity.
  - destruct st; [discriminate H0 | discriminate H2].
  - unfold SFleb, SFltb in *.
    destruct (SFcompare (S754_finite st mt et) float_0_0) as [c0 |] eqn:E0;
      [| destruct st; discriminate E0].
    destruct (SFcompare float_2_0 (S754_finite st mt et)) as [c2 |] eqn:E2;
      [| discriminate E2].
    apply SFcompare_antisym in E0, E2. rewrite E0, E2.
    destruct c0, c2; try discriminate; split; reflexivity.
Qed.

Section reachable.
Context {B : Type} `{!Backend B} `{!Runtime}.
Implicit Types (sm : SessionManager B) (s : Session) (f : File).

Lemma fresh_heap_empty (client : B) q s :
  heap (NewSessionManager client) !! q = Some s -> False.
Proof. intros Hq. simpl in Hq. now rewrite lookup_nil in Hq. Qed.

(** X8. In every state that a run of client operations reaches from a
    fresh manager, the history of every session object is made of pairs: a
    user entry followed by an assistant entry. *)
Theorem history_is_paired (client : B) (ops : list Op) q s :
  heap (run (NewSessionManager client) ops) !! q = Some s ->
  paired (messages s) = true
  /\ Nat.Even (length (messages s)).
Proof.
  intros Hq.
  assert (Hp : paired (messages s) = true).
  { revert q s Hq.
    apply (run_objects (fun s => paired (messages s) = true) (fun _ => True)).
    - intros f s s' Hm Hp. destruct Hm; simpl; try exact Hp; try reflexivity.
      rewrite <- app_assoc. now apply paired_app.
    - reflexivity.
    - apply Forall_forall. intros op _. now destruct op.
    - exact I.
    - intros q s Hq. now apply fresh_heap_empty in Hq. }
  split; [exact Hp |].
  clear Hq. remember (length (messages s)) as n eqn:Hn.
  generalize dependent (messages s). clear s.
  induction n as [n IH] using lt_wf_ind. intros ms Hp Hn.
  destruct ms as [| u [| a rest]]; [subst; now exists 0%nat | discriminate |].
  simpl in Hp. apply andb_prop in Hp as [_ Hrest].
  destruct (IH (length rest)) with (l := rest) as [k Hk];
    [subst; simpl; lia | exact Hrest | reflexivity |].
  exists (S k). subst n. simpl. lia.
Qed.

(** X9. In every reachable state, what a session's [ask] holds is empty,
    or a failure text that starts with [Error: ], or the content of the
    last entry of the session's history, which is then an assistant
    entry. *)
Theorem last_response_consistent (client : B) (ops : list Op) q s :
  heap (run (NewSessionManager client) ops) !! q = Some s ->
  answer_consistent s.
Proof.
  revert q s. apply (run_objects answer_consistent (fun _ => True)).
  - intros f s s' Hm Hc. destruct Hm; try exact Hc.
    + right. right. exists (messages s ++ [ {| Role := "user"; Content := prompt |} ])%list.
      simpl. now rewrite <- app_assoc.
    + right. left. now exists msg.
    + now left.
  - intros id d _. now left.
  - apply Forall_forall. intros op _. now destruct op.
  - exact I.
  - intros q s Hq. now apply fresh_heap_empty in Hq.
Qed.

(** X10. As long as every [SetDefaults] installs a temperature that would
    pass the range check of the temperature file, the temperature of every
    session object in every reachable state passes it: it is neither below
    0.0 nor above 2.0, that is, it lies between the two or is NaN. *)
Theorem temperature_stays_checked (client : B) (ops : list Op) q s :
  Forall (installs (fun d => temperature_ok (SessionDefaults.Temperature d) = true))
         ops ->
  heap (run (NewSessionManager client) ops) !! q = Some s ->
  temperature_ok (temperature s) = true
  /\ (temperature s = S754_nan
      \/ (SFleb float_0_0 (temperature s) = true
          /\ SFleb (temperature s) float_2_0 = true)).
Proof.
  intros Hops Hq.
  assert (Hok : temperature_ok (temperature s) = true).
  { revert q s Hq.
    apply (run_objects (fun s => temperature_ok (temperature s) = true)
             (fun d => temperature_ok (SessionDefaults.Temperature d) = true)).
    - intros f s s' Hm Hp. destruct Hm; simpl; assumption.
    - intros id d Hd. exact Hd.
    - exact Hops.
    - reflexivity.
    - intros q s Hq. now apply fresh_heap_empty in Hq. }
  split; [exact Hok | now apply temperature_ok_meaning].
Qed.

(** The same operation, seen from the registry. *)
Lemma step_registry_origin sm op id p :
  sessions (step sm op) !! id = Some p ->
  sessions sm !! id = Some p
  \/ (created sm op = Some id /\ id = nextID sm /\ p = length (heap sm)).
Proof.
  intros Hr. destruct op as [f cap off | f q off | d]; simpl in Hr.
  - destruct f; simpl in Hr; try (now left).
    unfold NewFile_Read in Hr. simpl. destruct (0 <? off)%Z; [now left |].
    simpl in Hr. destruct (decide (id = nextID sm)) as [-> | Hne].
    + rewrite lookup_insert_eq in Hr. injection Hr as <-. now right.
    + rewrite lookup_insert_ne in Hr by congruence. now left.
  - left. destruct (Write_registry sm f q off) as (_ & _ & [E | (id' & _ & E)]);
      rewrite E in Hr; [exact Hr |].
    now apply lookup_delete_Some in Hr as [_ Hr].
  - now left.
Qed.

Lemma mutation_ID f s s' : mutation f s s' -> ID s' = ID s.
Proof. now destruct 1. Qed.

Lemma mutation_closed f s s' : mutation f s s' -> closed s = true -> closed s' = true.
Proof. destruct 1; simpl; auto. Qed.

(** The registry is well formed, the counter is an [int], and every
    registered object carries the id it is registered under. *)
Lemma keyed_run sm ops :
  wf sm -> inInt (nextID sm) ->
  (forall id p s, sessions sm !! id = Some p -> heap sm !! p = Some s ->
                  ID s = id /\ inInt id) ->
  forall id p s,
    sessions (run sm ops) !! id = Some p -> heap (run sm ops) !! p = Some s ->
    ID s = id /\ inInt id.
Proof.
  revert sm. induction ops as [| op ops IH]; intros sm Hwf Hn Hk; [exact Hk |].
  simpl. apply IH.
  - now apply wf_step.
  - destruct (created_step sm op) as [[_ ->] | [_ ->]];
      [exact Hn | apply wrap_range].
  - intros id p s' Hr Hq.
    apply step_registry_origin in Hr as [Hr | (_ & -> & ->)].
    + destruct (proj1 Hwf id p Hr) as (s0 & Hs0 & _).
      apply step_object_origin in Hq
        as [(s & Hs & [-> | (f & id' & Hm & _)]) | (Hlen & _)].
      * now apply (Hk id p).
      * rewrite (mutation_ID _ _ _ Hm). now apply (Hk id p).
      * apply lookup_lt_Some in Hs0. lia.
    + apply step_object_origin in Hq as [(s & Hs & _) | (_ & -> & _)].
      * apply lookup_lt_Some in Hs. lia.
      * split; [reflexivity | exact Hn].
Qed.

Lemma registered_were_issued sm ops id :
  is_Some (sessions (run sm ops) !! id) ->
  is_Some (sessions sm !! id) \/ id ∈ issued sm ops.
Proof.
  revert sm. induction ops as [| op ops IH]; intros sm Hr; [now left |].
  simpl in Hr |- *. destruct (IH _ Hr) as [[p Hp] | Hin].
  - apply step_registry_origin in Hp as [Hp | (Hc & _)]; [left; eauto |].
    right. rewrite Hc. apply list_elem_of_here.
  - right. destruct (created sm op); [now apply list_elem_of_further | exact Hin].
Qed.

Lemma registered_keyed (client : B) (ops : list Op) id ptr s :
  sessions (run (NewSessionManager client) ops) !! id = Some ptr ->
  heap (run (NewSessionManager client) ops) !! ptr = Some s ->
  ID s = id /\ inInt id.
Proof.
  intros Hr Hq.
  apply (keyed_run (NewSessionManager client) ops) with (p := ptr); try assumption.
  - apply wf_init.
  - unfold inInt, minInt, maxInt. simpl. lia.
  - intros id' p s' Hr'. simpl in Hr'. now rewrite lookup_empty in Hr'.
Qed.

(** X11. In every reachable state a registered id is an [int] that some
    creating read of [new] issued during the run, and the object it is
    registered to carries that id in its [ID] field. *)
Theorem registered_ids_match (client : B) (ops : list Op) id ptr s :
  let sm := run (NewSessionManager client) ops in
  sessions sm !! id = Some ptr ->
  heap sm !! ptr = Some s ->
  ID s = id /\ inInt id /\ id ∈ issued (NewSessionManager client) ops.
Proof.
  intros sm Hr Hq.
  destruct (registered_keyed client ops id ptr s Hr Hq) as [H1 H2].
  split; [exact H1 |]. split; [exact H2 |].
  destruct (registered_were_issued (NewSessionManager client) ops id) as [[p Hp] | Hin];
    [fold sm; eauto | | exact Hin].
  simpl in Hp. now rewrite lookup_empty in Hp.
Qed.

(** X12. Closed is terminal: once the [closed] flag of a session object is
    set in a reachable state, no further run of client operations changes
    any field of that object. *)
Theorem closed_object_frozen (client : B) (ops more : list Op) q s :
  let sm := run (NewSessionManager client) ops in
  heap sm !! q = Some s ->
  closed s = true ->
  heap (run sm more) !! q = Some s.
Proof.
  intros sm Hq Hc.
  assert (Hwf : wf sm) by apply wf_run, wf_init.
  clearbody sm. revert sm Hwf Hq.
  induction more as [| op more IH]; intros sm Hwf Hq; [exact Hq |].
  simpl. apply IH; [now apply wf_step |].
  destruct op as [f cap off | f p off | d]; simpl; [| | exact Hq].
  - destruct f; simpl; try exact Hq.
    unfold NewFile_Read. destruct (0 <? off)%Z; [exact Hq |].
    simpl. now apply lookup_app_l_Some.
  - destruct (Write_mutates sm f p off q s Hq)
      as (s' & Hs' & [-> | [_ (id & _ & Hr)]]); [exact Hs' |].
    destruct (proj1 Hwf id q Hr) as (s0 & Hs0 & Hopen). congruence.
Qed.

End reachable.

Lemma temperature_stays_checked_witness :
  let ops := [OpRead NewFile 8 0; OpWrite (SessionTemperatureFile 0) "1.5" 0;
              OpWrite (SessionTemperatureFile 0) "2.5" 0] in
  exists s, heap (run sm0 ops) !! 0%nat = Some s
            /\ temperature_ok (temperature s) = true.
Proof.
  intros ops. eexists. split; [reflexivity |].
  apply (temperature_stays_checked 0%nat ops 0%nat); [| reflexivity].
  repeat constructor.
Defined.

Lemma history_is_paired_witness :
  let ops := [OpRead NewFile 8 0; OpWrite (SessionAskFile 0) "hello" 0;
              OpWrite (SessionAskFile 0) "fail" 0;
              OpWrite (SessionAskFile 0) "again" 0] in
  exists s, heap (run sm0 ops) !! 0%nat = Some s
            /\ paired (messages s) = true /\ length (messages s) = 4%nat.
Proof.
  intros ops. eexists. split; [reflexivity |].
  split; [| reflexivity].
  apply (history_is_paired 0%nat ops 0%nat). reflexivity.
Defined.

Lemma last_response_consistent_witness :
  let ops := [OpRead NewFile 8 0; OpWrite (SessionAskFile 0) "hello" 0;
              OpWrite (SessionAskFile 0) "fail" 0] in
  exists s, heap (run sm0 ops) !! 0%nat = Some s /\ answer_consistent s.
Proof.
  intros ops. eexists. split; [reflexivity |].
  apply (last_response_consistent 0%nat ops 0%nat). reflexivity.
Defined.

Lemma registered_ids_match_witness :
  let ops := [OpRead NewFile 8 0; OpRead NewFile 8 0;
              OpWrite (SessionCtlFile 0) "close" 0] in
  exists s, heap (run sm0 ops) !! 1%nat = Some s /\ ID s = 1 /\ inInt 1.
Proof.
  intros ops. eexists. split; [reflexivity |].
  destruct (registered_ids_match 0%nat ops 1 1%nat
              (NewSession 1 DefaultSessionDefaults) eq_refl eq_refl)
    as (H1 & H2 & _).
  split; assumption.
Defined.

Lemma closed_object_frozen_witness :
  let ops := [OpRead NewFile 8 0; OpWrite (SessionCtlFile 0) "close" 0] in
  let more := [OpRead NewFile 8 0; OpWrite (SessionAskFile 0) "hello" 0;
               OpWrite (SessionModelFile 0) "m" 0] in
  heap (run (run sm0 ops) more) !! 0%nat
  = Some (markClosed (NewSession 0 DefaultSessionDefaults)).
Proof.
  intros ops more.
  apply (closed_object_frozen 0%nat ops more 0%nat); reflexivity.
Defined.

(** *** After a close *)

Section closed_for_good.
Context {B : Type} `{!Backend B} `{!Runtime}.
Implicit Types (sm : SessionManager B) (s : Session).

(** While the counter has not passed the largest [int], every registered
    id lies below it. *)
Lemma registered_below (client : B) (ops : list Op) id :
  Z.of_nat (length (issued (NewSessionManager client) ops)) <= maxInt ->
  is_Some (sessions (run (NewSessionManager client) ops) !! id) ->
  0 <= id < nextID (run (NewSessionManager client) ops)
  /\ nextID (run (NewSessionManager client) ops)
     = Z.of_nat (length (issued (NewSessionManager client) ops)).
Proof.
  intros Hmax Hr.
  destruct (issued_consecutive (NewSessionManager client) ops) as [Hseq Hend].
  { unfold inInt, minInt, maxInt. simpl. lia. }
  { simpl. lia. }
  simpl nextID in Hseq, Hend. rewrite Z.add_0_l in Hend.
  split; [| exact Hend].
  destruct (registered_were_issued _ ops id Hr) as [[p Hp] | Hin].
  - simpl in Hp. now rewrite lookup_empty in Hp.
  - rewrite Hseq in Hin. apply elem_of_seqZ in Hin. lia.
Qed.

(** An id below the counter that the registry does not hold is never
    registered again while the counter stays within [int]. *)
Lemma stays_unregistered sm (ops : list Op) id :
  inInt (nextID sm) ->
  nextID sm + Z.of_nat (length (issued sm ops)) <= maxInt ->
  id < nextID sm ->
  sessions sm !! id = None ->
  sessions (run sm ops) !! id = None.
Proof.
  intros Hin Hmax Hlt Hnone.
  destruct (sessions (run sm ops) !! id) as [p |] eqn:E; [| reflexivity].
  destruct (registered_were_issued sm ops id) as [[p' Hp'] | Hi];
    [rewrite E; eauto | congruence |].
  destruct (issued_consecutive sm ops Hin Hmax) as [Hseq _].
  rewrite Hseq in Hi. apply elem_of_seqZ in Hi. lia.
Qed.

(** C6 (as the code has it). Once [close] has been written to the [ctl]
    file of a registered session, then after that write and after every
    further run of client operations (as long as the ids issued in all do
    not pass the largest [int]) the registry does not hold the id: the root
    listing has no directory for it, by node and by name; looking up its
    name in the root, in any spelling, or any name in its directory fails
    NotFound; reading [ask], [context], [model], [temperature], [system],
    [thinking] or [prefill], and writing any of the last five, fails
    NotFound and changes nothing.  [ctl] is a command file: it reads as
    end-of-data, and it accepts [reset] and [close] again without effect. *)
Theorem close_then_NotFound (client : B) (ops more : list Op) id ptr p offset :
  let sm := run (NewSessionManager client) ops in
  let close := OpWrite (SessionCtlFile id) p offset in
  sessions sm !! id = Some ptr ->
  TrimSpace p = "close" ->
  Z.of_nat (length (issued (NewSessionManager client) (ops ++ close :: more)))
  <= maxInt ->
  let sm' := run sm (close :: more) in
  SessionCtlFile_Write sm id p offset = (Close sm id, (len p, None))
  /\ sessions sm' !! id = None
  /\ (SessionDir id ∉ SessionsDir_Children sm')
  /\ (Itoa id ∉ map Name (SessionsDir_Children sm'))
  /\ SessionsDir_Lookup sm' (Itoa id) = inr ErrNotFound
  /\ (forall name, Atoi name = inl id ->
                   SessionsDir_Lookup sm' name = inr ErrNotFound)
  /\ SessionDir_Children sm' id = []
  /\ (forall name, SessionDir_Lookup sm' id name = inr ErrNotFound)
  /\ (forall cap off,
        SessionAskFile_Read sm' id cap off = ("", Some ErrNotFound)
        /\ SessionContextFile_Read sm' id cap off = ("", Some ErrNotFound)
        /\ SessionModelFile_Read sm' id cap off = ("", Some ErrNotFound)
        /\ SessionTemperatureFile_Read sm' id cap off = ("", Some ErrNotFound)
        /\ SessionSystemFile_Read sm' id cap off = ("", Some ErrNotFound)
        /\ SessionThinkingFile_Read sm' id cap off = ("", Some ErrNotFound)
        /\ SessionPrefillFile_Read sm' id cap off = ("", Some ErrNotFound))
  /\ (forall q off,
        SessionModelFile_Write sm' id q off = (sm', (0, Some ErrNotFound))
        /\ SessionTemperatureFile_Write sm' id q off = (sm', (0, Some ErrNotFound))
        /\ SessionSystemFile_Write sm' id q off = (sm', (0, Some ErrNotFound))
        /\ SessionThinkingFile_Write sm' id q off = (sm', (0, Some ErrNotFound))
        /\ SessionPrefillFile_Write sm' id q off = (sm', (0, Some ErrNotFound)))
  /\ (forall cap off, SessionCtlFile_Read cap off = ("", Some EOF))
  /\ (forall q off, TrimSpace q = "reset" \/ TrimSpace q = "close" ->
        SessionCtlFile_Write sm' id q off = (sm', (len q, None))).
Proof.
  intros sm close Hreg Hp Hmax sm'.
  assert (E : SessionCtlFile_Write sm id p offset = (Close sm id, (len p, None))).
  { unfold SessionCtlFile_Write. now rewrite Hp. }
  assert (Hstep : step sm close = Close sm id).
  { unfold close. simpl. now rewrite E. }
  assert (Hlen : length (issued (NewSessionManager client) (ops ++ close :: more))
                 = (length (issued (NewSessionManager client) ops)
                    + length (issued (Close sm id) more))%nat).
  { rewrite issued_app, length_app. fold sm.
    change (issued sm (close :: more)) with (issued (step sm close) more).
    now rewrite Hstep. }
  rewrite Hlen in Hmax.
  destruct (registered_below client ops id) as [Hid Hnext]; [lia | fold sm; eauto |].
  fold sm in Hid, Hnext.
  assert (Hnone : sessions sm' !! id = None).
  { unfold sm'. change (run sm (close :: more)) with (run (step sm close) more).
    rewrite Hstep.
    assert (Hn : nextID (Close sm id) = nextID sm).
    { rewrite <- Hstep. exact (nextID_Write sm (SessionCtlFile id) p offset). }
    apply stays_unregistered.
    - rewrite Hn, Hnext. unfold inInt, minInt, maxInt in *. lia.
    - rewrite Hn, Hnext. lia.
    - rewrite Hn. lia.
    - apply Close_unregisters. }
  assert (Hint : inInt id) by (unfold inInt, minInt, maxInt in *; lia).
  destruct (unregistered_answers sm' id Hnone)
    as (H1 & H2 & Hany & H3 & H4 & H5 & H6 & H7 & _ & H9 & H10).
  split; [exact E |]. split; [exact Hnone |]. split; [exact H1 |].
  split; [exact H2 |]. split; [exact (H3 Hint) |]. split; [exact Hany |].
  split; [exact H4 |]. split; [exact H5 |]. split; [exact H6 |].
  split; [exact H7 |]. split; [exact H9 | exact H10].
Qed.

End closed_for_good.

Lemma close_then_NotFound_witness :
  let sm := run sm0 [OpRead NewFile 8 0] in
  let sm' := run sm [OpWrite (SessionCtlFile 0) ("close" ++ nl) 0;
                     OpRead NewFile 8 0;
                     OpWrite (SessionAskFile 1) "hello" 0] in
  SessionsDir_Lookup sm' "0" = inr ErrNotFound
  /\ SessionDir_Lookup sm' 0 "ask" = inr ErrNotFound
  /\ SessionModelFile_Read sm' 0 16 0 = ("", Some ErrNotFound)
  /\ SessionPrefillFile_Write sm' 0 "x" 0 = (sm', (0, Some ErrNotFound)).
Proof.
  intros sm sm'.
  destruct (close_then_NotFound 0%nat [OpRead NewFile 8 0]
              [OpRead NewFile 8 0; OpWrite (SessionAskFile 1) "hello" 0]
              0 0%nat ("close" ++ nl) 0)
    as (_ & _ & _ & _ & H1 & _ & _ & H2 & H3 & H4 & _).
  - reflexivity.
  - reflexivity.
  - apply Z.leb_le. reflexivity.
  - split; [exact H1 |]. split; [exact (H2 "ask") |].
    split; [apply (H3 16%nat 0) | apply (H4 "x" 0)].
Defined.

(** C6 (as stated) fails for [ctl]: for the id of a session that has been
    closed, a read of [ctl] reports end-of-data and a write of [close] or
    [reset] succeeds; none of them fails NotFound. *)
Lemma close_then_ctl_answers :
  let sm' := fst (SessionCtlFile_Write sm1 0 "close" 0) in
  sessions sm' !! 0 = None
  /\ Read sm' (SessionCtlFile 0) 16 0 = (sm', Some ("", Some EOF))
  /\ Write sm' (SessionCtlFile 0) "close" 0 = (sm', (5, None))
  /\ Write sm' (SessionCtlFile 0) "reset" 0 = (sm', (5, None))
  /\ snd (SessionCtlFile_Read 16 0) <> Some ErrNotFound
  /\ snd (snd (Write sm' (SessionCtlFile 0) "close" 0)) <> Some ErrNotFound.
Proof.
  simpl. split; [reflexivity |]. split; [reflexivity |]. split; [reflexivity |].
  split; [reflexivity |]. split; discriminate.
Qed.

(** *** Directories and the clone file *)

Section directories.
Context {B : Type} `{!Backend B} `{!Runtime}.
Implicit Types (sm : SessionManager B) (s : Session) (f : File).

Lemma SessionsDir_Lookup_child sm name f :
  SessionsDir_Lookup sm name = inl f -> f ∈ SessionsDir_Children sm.
Proof.
  unfold SessionsDir_Lookup, SessionsDir_Children, Get.
  destruct (name =? "new")%string; [intros [= <-]; apply list_elem_of_here |].
  destruct (Atoi name) as [id | e]; [| discriminate].
  destruct (sessions sm !! id) as [p |] eqn:E; [| discriminate].
  intros [= <-]. apply list_elem_of_further, list_elem_of_fmap.
  exists id. split; [reflexivity |]. apply ListSessions_registered. eauto.
Qed.

(** X13. The root listing and the root lookup agree in every reachable
    state: a node is in the listing exactly when looking up its own name
    returns it.  Whatever a lookup returns is in the listing, also when the
    name is another spelling of the id that [Atoi] accepts. *)
Theorem root_listing_matches_lookup (client : B) (ops : list Op) :
  let sm := run (NewSessionManager client) ops in
  (forall f, f ∈ SessionsDir_Children sm <-> SessionsDir_Lookup sm (Name f) = inl f)
  /\ (forall name f, SessionsDir_Lookup sm name = inl f ->
                     f ∈ SessionsDir_Children sm)
  /\ (forall name id, (name =? "new")%string = false -> Atoi name = inl id ->
                      SessionsDir_Lookup sm name = SessionsDir_Lookup sm (Itoa id)).
Proof.
  intros sm.
  assert (Hwf : wf sm) by apply wf_run, wf_init.
  split; [| split].
  - intros f. split; [| apply SessionsDir_Lookup_child].
    unfold SessionsDir_Children. rewrite elem_of_cons.
    intros [-> | Hin]; [reflexivity |].
    apply list_elem_of_fmap in Hin as (id & -> & Hin).
    apply ListSessions_registered in Hin as [p Hp].
    destruct (proj1 Hwf id p Hp) as (s & Hs & _).
    destruct (registered_keyed client ops id p s Hp Hs) as (_ & Hint).
    unfold SessionsDir_Lookup, Get. simpl Name.
    now rewrite Itoa_not_new, (Atoi_Itoa id Hint), Hp.
  - apply SessionsDir_Lookup_child.
  - intros name id Hnew Hname. unfold SessionsDir_Lookup.
    rewrite Hnew, Hname, Itoa_not_new.
    apply Atoi_inInt in Hname. now rewrite (Atoi_Itoa id Hname).
Qed.

(** X14. For a registered id the session directory lists eight nodes with
    eight different names, and a lookup returns a node exactly when that
    node is listed under the name asked for; every other name fails
    NotFound. *)
Theorem session_dir_listing_matches_lookup sm id ptr :
  sessions sm !! id = Some ptr ->
  map Name (SessionDir_Children sm id)
  = ["ask"; "context"; "ctl"; "model"; "temperature"; "system"; "thinking";
     "prefill"]
  /\ NoDup (map Name (SessionDir_Children sm id))
  /\ (forall name f,
        SessionDir_Lookup sm id name = inl f
        <-> (f ∈ SessionDir_Children sm id /\ Name f = name))
  /\ (forall name, name ∉ map Name (SessionDir_Children sm id) ->
                   SessionDir_Lookup sm id name = inr ErrNotFound).
Proof.
  intros Hreg.
  assert (Hc : SessionDir_Children sm id
               = [SessionAskFile id; SessionContextFile id; SessionCtlFile id;
                  SessionModelFile id; SessionTemperatureFile id;
                  SessionSystemFile id; SessionThinkingFile id;
                  SessionPrefillFile id]).
  { unfold SessionDir_Children, Get. now rewrite Hreg. }
  rewrite Hc. split; [reflexivity |].
  split.
  { simpl. repeat (apply NoDup_cons; split;
                   [rewrite ?elem_of_cons, elem_of_nil; intuition discriminate |]).
    apply NoDup_nil_2. }
  split.
  - intros name f. unfold SessionDir_Lookup, Get. rewrite Hreg. split.
    + repeat (match goal with
              | |- context [(name =? ?lit)%string] =>
                  destruct (String.eqb_spec name lit) as [-> | ?];
                  [intros [= <-]; split;
                   [rewrite !elem_of_cons; tauto | reflexivity] |]
              end).
      discriminate.
    + intros [Hin <-]. rewrite !elem_of_cons, elem_of_nil in Hin.
      repeat (destruct Hin as [-> | Hin]; [reflexivity |]). contradiction.
  - intros name Hnot. unfold SessionDir_Lookup, Get. rewrite Hreg.
    simpl in Hnot. rewrite !elem_of_cons, elem_of_nil in Hnot.
    repeat (match goal with
            | |- context [(name =? ?lit)%string] =>
                destruct (String.eqb_spec name lit) as [-> | ?];
                [exfalso; apply Hnot; tauto |]
            end).
    reflexivity.
Qed.

(** X15. The clone file.  A read of [new] at an offset that is not
    positive registers the counter's value as a new id, bound to a fresh
    object built from the current defaults with an empty history, and
    leaves every other id and every existing object as it was; it serves
    the first [cap] bytes of the decimal id and a newline.  When the buffer
    takes them all, trimming the bytes served and looking the result up in
    the root returns the new session directory, in which [ask] resolves.  A
    read at a positive offset is end-of-data and creates nothing; a write
    is refused with a permission error. *)
Theorem clone_read sm cap offset :
  inInt (nextID sm) ->
  let id := nextID sm in
  (offset <= 0 ->
   exists sm',
     NewFile_Read sm cap offset = (sm', (copy cap (Itoa id ++ nl), None))
     /\ sessions sm' !! id = Some (length (heap sm))
     /\ heap sm' !! length (heap sm) = Some (NewSession id (defaults sm))
     /\ (forall id', id' <> id -> sessions sm' !! id' = sessions sm !! id')
     /\ (forall q s, heap sm !! q = Some s -> heap sm' !! q = Some s)
     /\ ((String.length (Itoa id ++ nl) <= cap)%nat ->
         SessionsDir_Lookup sm' (TrimSpace (copy cap (Itoa id ++ nl)))
         = inl (SessionDir id)
         /\ SessionDir_Lookup sm' id "ask" = inl (SessionAskFile id)
         /\ forall n off, SessionModelFile_Read sm' id n off
                          = read_at (SessionDefaults.Model (defaults sm) ++ nl) n off))
  /\ (0 < offset -> NewFile_Read sm cap offset = (sm, ("", Some EOF)))
  /\ (forall p off, Write sm NewFile p off = (sm, (0, Some ErrPermission))).
Proof.
  intros Hin id. subst id. split; [| split].
  - intros Hoff. unfold NewFile_Read.
    destruct (0 <? offset)%Z eqn:E; [apply Z.ltb_lt in E; lia |].
    eexists. split; [reflexivity |]. simpl.
    assert (Hnew : (heap sm ++ [NewSession (nextID sm) (defaults sm)])%list
                     !! length (heap sm)
                   = Some (NewSession (nextID sm) (defaults sm))).
    { rewrite lookup_app_r by lia. now rewrite Nat.sub_diag. }
    split; [apply lookup_insert_eq |].
    split; [exact Hnew |].
    split; [intros id' Hne; apply lookup_insert_ne; intros Heq; apply Hne;
            symmetry; exact Heq |].
    split; [intros q s Hq; now apply lookup_app_l_Some |].
    intros Hcap. unfold copy. rewrite take_string_all by exact Hcap.
    destruct (all_plain_Itoa (nextID sm)) as [Hplain Hne].
    rewrite (proj2 (TrimSpace_all_plain _ Hplain) Hne).
    split.
    { unfold SessionsDir_Lookup, Get. simpl sessions.
      now rewrite Itoa_not_new, (Atoi_Itoa _ Hin), lookup_insert_eq. }
    split.
    { unfold SessionDir_Lookup, Get. simpl sessions. now rewrite lookup_insert_eq. }
    intros n off. unfold SessionModelFile_Read, Get, deref. simpl sessions.
    simpl heap. rewrite lookup_insert_eq, Hnew. reflexivity.
  - intros Hoff. unfold NewFile_Read. apply Z.ltb_lt in Hoff. now rewrite Hoff.
  - reflexivity.
Qed.

End directories.

Lemma session_dir_listing_matches_lookup_witness :
  SessionDir_Lookup sm1 0 "thinking" = inl (SessionThinkingFile 0)
  /\ SessionDir_Lookup sm1 0 "metrics" = inr ErrNotFound.
Proof.
  destruct (session_dir_listing_matches_lookup sm1 0 0%nat eq_refl)
    as (_ & _ & Hiff & Hnot).
  assert (Hc : SessionDir_Children sm1 0
               = [SessionAskFile 0; SessionContextFile 0; SessionCtlFile 0;
                  SessionModelFile 0; SessionTemperatureFile 0;
                  SessionSystemFile 0; SessionThinkingFile 0;
                  SessionPrefillFile 0]) by reflexivity.
  split.
  - apply Hiff. split; [| reflexivity]. rewrite Hc, !elem_of_cons. tauto.
  - apply Hnot. rewrite Hc. simpl. rewrite !elem_of_cons, elem_of_nil.
    intuition discriminate.
Defined.

Lemma clone_read_witness :
  exists sm',
    NewFile_Read sm1 16 0 = (sm', ("1" ++ nl, None))
    /\ SessionsDir_Lookup sm' (TrimSpace ("1" ++ nl)) = inl (SessionDir 1).
Proof.
  destruct (clone_read sm1 16 0) as (Hread & _).
  - split; apply Z.leb_le; reflexivity.
  - destruct Hread as (sm' & H1 & _ & _ & _ & _ & H2); [lia |].
    exists sm'. split; [exact H1 |]. apply H2. simpl. lia.
Defined.

(** *** model, system, thinking *)

Section more_settings.
Context {B : Type} `{!Backend B} `{!Runtime}.
Implicit Types (sm : SessionManager B) (s : Session).

(** X16. A write to [model] whose trimmed text is not empty stores that
    text, after which the file reads as it and a newline and [Stat] reports
    that length; a write that is empty after trimming is ignored and still
    reports success.  So the model of a session object is never empty in a
    reachable state, as long as no [SetDefaults] installs an empty one. *)
Theorem model_write_read sm id ptr s p offset :
  sessions sm !! id = Some ptr ->
  heap sm !! ptr = Some s ->
  (TrimSpace p <> "" ->
   let sm' := update ptr (SetModel (TrimSpace p)) sm in
   SessionModelFile_Write sm id p offset = (sm', (len p, None))
   /\ (forall cap off,
         SessionModelFile_Read sm' id cap off = read_at (TrimSpace p ++ nl) cap off)
   /\ Length (SessionModelFile_Stat sm' id) = len (TrimSpace p ++ nl))
  /\ (TrimSpace p = "" ->
      SessionModelFile_Write sm id p offset = (sm, (len p, None)))
  /\ (forall (client : B) ops q s0,
        Forall (installs (fun d => SessionDefaults.Model d <> "")) ops ->
        heap (run (NewSessionManager client) ops) !! q = Some s0 ->
        model s0 <> "").
Proof.
  intros Hreg Hobj. split; [| split].
  - intros Hne sm'. subst sm'.
    assert (Hd : deref (update ptr (SetModel (TrimSpace p)) sm) ptr
                 = SetModel (TrimSpace p) s)
      by now apply deref_lookup, heap_update.
    unfold SessionModelFile_Write, SessionModelFile_Read, SessionModelFile_Stat, Get.
    simpl sessions. rewrite Hreg, Hd, (eqb_empty_false _ Hne). simpl.
    split; [reflexivity |]. split; [reflexivity |]. now rewrite len_append_nl.
  - intros He. unfold SessionModelFile_Write, Get. now rewrite Hreg, He.
  - intros client ops q s0 Hops. revert q s0.
    apply (run_objects (fun s => model s <> "")
             (fun d => SessionDefaults.Model d <> "")).
    + intros f s1 s1' Hm Hp. destruct Hm; simpl; assumption.
    + intros id0 d Hd. exact Hd.
    + exact Hops.
    + discriminate.
    + intros q0 s1 Hq. now apply fresh_heap_empty in Hq.
Qed.

(** X17. A write to the session's [system] file stores the trimmed text.
    When that text is empty the prompt is cleared and the file reads as
    end-of-data; otherwise the file reads as the text and one newline, and
    [Stat] reports exactly that length. *)
Theorem system_write_read sm id ptr s p offset :
  sessions sm !! id = Some ptr ->
  heap sm !! ptr = Some s ->
  let sm' := update ptr (llm.SetSystemPrompt (TrimSpace p)) sm in
  SessionSystemFile_Write sm id p offset = (sm', (len p, None))
  /\ (TrimSpace p = "" ->
      forall cap, SessionSystemFile_Read sm' id cap 0 = ("", Some EOF))
  /\ (TrimSpace p <> "" ->
      (forall cap off,
         SessionSystemFile_Read sm' id cap off = read_at (TrimSpace p ++ nl) cap off)
      /\ Length (SessionSystemFile_Stat sm' id) = len (TrimSpace p ++ nl)).
Proof.
  intros Hreg Hobj sm'. subst sm'.
  assert (Hd : deref (update ptr (llm.SetSystemPrompt (TrimSpace p)) sm) ptr
               = llm.SetSystemPrompt (TrimSpace p) s)
    by now apply deref_lookup, heap_update.
  unfold SessionSystemFile_Write, SessionSystemFile_Read, SessionSystemFile_Stat,
    SessionSystemFile_content, Get.
  simpl sessions. rewrite Hreg, Hd. simpl.
  split; [reflexivity |]. split.
  - intros ->. reflexivity.
  - intros Hne.
    rewrite (terminate_adds _ Hne (TrimSpace_no_newline p)),
      (eqb_empty_false _ Hne). simpl.
    split; [reflexivity | now rewrite len_append_nl].
Qed.

(** X18. Every [int] can be written to [thinking] in decimal, with or
    without a final newline, and is stored as it is.  A positive value
    reads back as the same decimal text and a newline; zero reads back as
    [disabled] and every negative value as [max]. *)
Theorem thinking_int_round_trip sm id ptr s (n : Z) p offset :
  sessions sm !! id = Some ptr ->
  heap sm !! ptr = Some s ->
  inInt n ->
  p = Itoa n \/ p = Itoa n ++ nl ->
  let sm' := update ptr (SetThinkingTokens n) sm in
  SessionThinkingFile_Write sm id p offset = (sm', (len p, None))
  /\ (forall cap off,
        SessionThinkingFile_Read sm' id cap off
        = read_at (if (n <? 0)%Z then "max" ++ nl
                   else if (n =? 0)%Z then "disabled" ++ nl
                   else Itoa n ++ nl) cap off).
Proof.
  intros Hreg Hobj Hin Hp sm'. subst sm'.
  destruct (all_plain_Itoa n) as [Hplain Hne].
  destruct (TrimSpace_all_plain _ Hplain) as [T1 T2].
  assert (Ht : TrimSpace p = Itoa n) by (destruct Hp as [-> | ->]; auto).
  pose proof (Atoi_Itoa n Hin) as Ha.
  split.
  - unfold SessionThinkingFile_Write, Get. rewrite Hreg, Ht.
    destruct (String.eqb_spec (Itoa n) "max") as [E | _];
      [rewrite E in Ha; discriminate |].
    destruct (String.eqb_spec (Itoa n) "-1") as [E | _].
    { simpl. apply (Itoa_inj n (-1)) in E. now subst n. }
    destruct (String.eqb_spec (Itoa n) "disabled") as [E | _];
      [rewrite E in Ha; discriminate |].
    destruct (String.eqb_spec (Itoa n) "off") as [E | _];
      [rewrite E in Ha; discriminate |].
    destruct (String.eqb_spec (Itoa n) "0") as [E | _].
    { simpl. apply (Itoa_inj n 0) in E. now subst n. }
    simpl. now rewrite Ha.
  - intros cap off. now rewrite (thinking_read_after sm id ptr s n cap off Hreg Hobj).
Qed.

End more_settings.

Lemma model_write_read_witness :
  SessionModelFile_Read (fst (SessionModelFile_Write sm1 0 " opus " 0)) 0 16 0
  = ("opus" ++ nl, None).
Proof.
  destruct (model_write_read sm1 0 0%nat (NewSession 0 DefaultSessionDefaults)
              " opus " 0 eq_refl eq_refl) as (Hw & _).
  destruct Hw as (Hw & Hr & _); [discriminate |].
  rewrite Hw. apply (Hr 16%nat 0).
Defined.

Lemma system_write_read_witness :
  SessionSystemFile_Read (fst (SessionSystemFile_Write sm1 0 (" be brief" ++ nl) 0))
    0 32 0
  = ("be brief" ++ nl, None).
Proof.
  destruct (system_write_read sm1 0 0%nat (NewSession 0 DefaultSessionDefaults)
              (" be brief" ++ nl) 0 eq_refl eq_refl) as (Hw & _ & Hr).
  rewrite Hw. destruct Hr as [Hr _]; [discriminate |]. apply (Hr 32%nat 0).
Defined.

Lemma thinking_int_round_trip_witness :
  SessionThinkingFile_Read
    (fst (SessionThinkingFile_Write sm1 0 ("2048" ++ nl) 0)) 0 16 0
  = ("2048" ++ nl, None).
Proof.
  destruct (thinking_int_round_trip sm1 0 0%nat (NewSession 0 DefaultSessionDefaults)
              2048 ("2048" ++ nl) 0) as (Hw & Hr).
  - reflexivity.
  - reflexivity.
  - split; apply Z.leb_le; reflexivity.
  - right. reflexivity.
  - rewrite Hw. apply (Hr 16%nat 0).
Defined.

(** *** The global system file *)

Section global_system.
Context {B : Type} `{!PromptBackend B} `{!Runtime}.

(** X19. For the global [system] file, and whatever the backend holds as
    its prompt, [Stat] reports exactly the number of bytes that a read
    serves: zero for an empty prompt, the prompt and one newline
    otherwise; a write passes the trimmed text to the backend and reports
    the full input length.  When the backend hands back what it was given,
    a write followed by a read returns the trimmed text and a newline. *)
Theorem SystemFile_stat_read (client : B) :
  (forall cap off,
     SystemFile_Read client cap off = read_at (SystemFile_content client) cap off)
  /\ Length (SystemFile_Stat client) = len (SystemFile_content client)
  /\ (SystemPrompt client = "" -> forall cap, SystemFile_Read client cap 0 = ("", Some EOF))
  /\ (forall p off,
        SystemFile_Write client p off
        = (SetSystemPrompt (TrimSpace p) client, (len p, None)))
  /\ (forall p off cap,
        SystemPrompt (SetSystemPrompt (TrimSpace p) client) = TrimSpace p ->
        TrimSpace p <> "" ->
        (String.length (TrimSpace p ++ nl) <= cap)%nat ->
        SystemFile_Read (fst (SystemFile_Write client p off)) cap 0
        = (TrimSpace p ++ nl, None)).
Proof.
  split; [reflexivity |].
  split.
  { unfold SystemFile_Stat, SystemFile_content.
    destruct (String.eqb_spec (SystemPrompt client) "") as [-> | Hne]; simpl;
      [reflexivity | now rewrite len_append_nl]. }
  split.
  { intros He cap. unfold SystemFile_Read, SystemFile_content. rewrite He.
    reflexivity. }
  split; [reflexivity |].
  intros p off cap Hlaw Hne Hcap.
  unfold SystemFile_Write, SystemFile_Read, SystemFile_content. simpl fst.
  rewrite Hlaw, (eqb_empty_false _ Hne). simpl.
  apply read_at_whole; [apply append_nl_nonempty | exact Hcap].
Qed.

End global_system.

Lemma SystemFile_stat_read_witness :
  SystemFile_Read (fst (SystemFile_Write "old" " be brief " 0)) 32 0
  = ("be brief" ++ nl, None).
Proof.
  destruct (SystemFile_stat_read "old") as (_ & _ & _ & _ & Hrt).
  apply (Hrt " be brief " 0 32%nat); [reflexivity | discriminate | simpl; lia].
Defined.

(** *** The metrics collector *)

Lemma foldr_min_start (a l : Z) (ls : list Z) :
  foldr Z.min (Z.min a l) ls = Z.min l (foldr Z.min a ls).
Proof. induction ls as [| x ls IH]; simpl; [| rewrite IH]; lia. Qed.

Lemma foldr_max_start (a l : Z) (ls : list Z) :
  foldr Z.max (Z.max a l) ls = Z.max l (foldr Z.max a ls).
Proof. induction ls as [| x ls IH]; simpl; [| rewrite IH]; lia. Qed.

Lemma foldr_min_le (a : Z) (ls : list Z) :
  foldr Z.min a ls <= a /\ forall l, l ∈ ls -> foldr Z.min a ls <= l.
Proof.
  induction ls as [| x ls [IH1 IH2]]; simpl.
  - split; [lia |]. intros l Hl. now apply elem_of_nil in Hl.
  - split; [lia |]. intros l Hl. apply elem_of_cons in Hl as [-> | Hl]; [lia |].
    specialize (IH2 l Hl). lia.
Qed.

Lemma foldr_max_ge (a : Z) (ls : list Z) :
  a <= foldr Z.max a ls /\ forall l, l ∈ ls -> l <= foldr Z.max a ls.
Proof.
  induction ls as [| x ls [IH1 IH2]]; simpl.
  - split; [lia |]. intros l Hl. now apply elem_of_nil in Hl.
  - split; [lia |]. intros l Hl. apply elem_of_cons in Hl as [-> | Hl]; [lia |].
    specialize (IH2 l Hl). lia.
Qed.

Lemma foldr_min_all_above (a : Z) (ls : list Z) :
  (forall l, l ∈ ls -> a <= l) -> foldr Z.min a ls = a.
Proof.
  induction ls as [| x ls IH]; simpl; intros Hall; [reflexivity |].
  rewrite IH by (intros l Hl; apply Hall; now right).
  specialize (Hall x ltac:(left)). lia.
Qed.

Lemma foldr_max_all_below (a : Z) (ls : list Z) :
  (forall l, l ∈ ls -> l <= a) -> foldr Z.max a ls = a.
Proof.
  induction ls as [| x ls IH]; simpl; intros Hall; [reflexivity |].
  rewrite IH by (intros l Hl; apply Hall; now right).
  specialize (Hall x ltac:(left)). lia.
Qed.

Lemma sum_between (lo hi : Z) (ls : list Z) :
  (forall l, l ∈ ls -> lo <= l <= hi) ->
  Z.of_nat (length ls) * lo <= foldr Z.add 0 ls <= Z.of_nat (length ls) * hi.
Proof.
  induction ls as [| x ls IH]; intros Hall; [simpl; lia |].
  specialize (IH ltac:(intros l Hl; apply Hall; now right)).
  specialize (Hall x ltac:(left)).
  change (foldr Z.add 0 (x :: ls)) with (x + foldr Z.add 0 ls).
  change (length (x :: ls)) with (S (length ls)). lia.
Qed.

Lemma last_default (a b y : Z) (l : list Z) :
  default a (last (y :: l)) = default b (last (y :: l)).
Proof.
  revert y. induction l as [| z l IH]; intros y; [reflexivity |].
  change (last (y :: z :: l)) with (last (z :: l)). apply IH.
Qed.

Lemma fold_wrap_sum {A : Type} (g : A -> Z) (xs : list A) (c : Z) :
  inInt c ->
  fold_left (fun a x => wrap (a + g x)) xs c = wrap (c + foldr Z.add 0 (g <$> xs)).
Proof.
  revert c. induction xs as [| x xs IH]; intros c Hc.
  - simpl. now rewrite Z.add_0_r, wrap_id.
  - change (foldr Z.add 0 (g <$> x :: xs)) with (g x + foldr Z.add 0 (g <$> xs)).
    cbn [fold_left]. rewrite IH by apply wrap_range. rewrite wrap_add. f_equal. lia.
Qed.

Section collector.
Context {T : Type} `{!Clock T} `{!Runtime}.
Implicit Types (m : Metrics T) (r : @Request T) (rs : list (@Request T)).

(** A field that [RecordRequest] updates from its own old value alone is,
    after a sequence of calls, the left fold of that update. *)
Lemma record_all_field (proj : Metrics T -> Z) (h : Z -> @Request T -> Z) m rs :
  (forall m r, proj (record m r) = h (proj m) r) ->
  proj (record_all m rs) = fold_left h rs (proj m).
Proof.
  intros Hstep. unfold record_all. revert m.
  induction rs as [| r rs IH]; intros m; simpl; [reflexivity |].
  now rewrite IH, Hstep.
Qed.

Lemma requestCount_record_all m rs :
  inInt (requestCount m) ->
  requestCount (record_all m rs) = wrap (requestCount m + Z.of_nat (length rs)).
Proof.
  intros Hc.
  rewrite (record_all_field requestCount (fun a _ => wrap (a + 1)) m rs)
    by reflexivity.
  rewrite (fold_wrap_sum (fun _ : @Request T => 1) rs _ Hc). f_equal. f_equal.
  clear. induction rs as [| r rs IH]; [reflexivity |].
  change (1 + foldr Z.add 0 ((fun _ : @Request T => 1) <$> rs)
          = Z.of_nat (S (length rs))). rewrite IH. lia.
Qed.

Lemma minLatencyMs_record_all m rs :
  minLatencyMs (record_all m rs) = foldr Z.min (minLatencyMs m) (latencyMs <$> rs).
Proof.
  rewrite (record_all_field minLatencyMs (fun a r => Z.min a (latencyMs r)) m rs).
  - generalize (minLatencyMs m). induction rs as [| r rs IH]; intros a; simpl;
      [reflexivity |]. rewrite IH. apply foldr_min_start.
  - intros m0 r. unfold record, RecordRequest. simpl.
    destruct (Z.ltb_spec (latencyMs r) (minLatencyMs m0)); lia.
Qed.

Lemma maxLatencyMs_record_all m rs :
  maxLatencyMs (record_all m rs) = foldr Z.max (maxLatencyMs m) (latencyMs <$> rs).
Proof.
  rewrite (record_all_field maxLatencyMs (fun a r => Z.max a (latencyMs r)) m rs).
  - generalize (maxLatencyMs m). induction rs as [| r rs IH]; intros a; simpl;
      [reflexivity |]. rewrite IH. apply foldr_max_start.
  - intros m0 r. unfold record, RecordRequest. simpl.
    destruct (Z.ltb_spec (maxLatencyMs m0) (latencyMs r)); lia.
Qed.

Lemma totalLatencyMs_record_all m rs :
  inInt (totalLatencyMs m) ->
  totalLatencyMs (record_all m rs)
  = wrap (totalLatencyMs m + foldr Z.add 0 (latencyMs <$> rs)).
Proof.
  intros Hc.
  rewrite (record_all_field totalLatencyMs
             (fun a r => wrap (a + latencyMs r)) m rs) by reflexivity.
  now rewrite (fold_wrap_sum latencyMs rs _ Hc).
Qed.

Lemma latency_within m rs r :
  r ∈ rs ->
  minLatencyMs (record_all m rs) <= latencyMs r <= maxLatencyMs (record_all m rs).
Proof.
  intros Hr. rewrite minLatencyMs_record_all, maxLatencyMs_record_all.
  assert (Hl : latencyMs r ∈ latencyMs <$> rs) by (apply list_elem_of_fmap; eauto).
  split; [now apply foldr_min_le | now apply foldr_max_ge].
Qed.

(** X20. After any sequence of recorded requests the reported minimum
    latency is the least of the recorded latencies and the value the
    collector started with, and the reported maximum the greatest; so
    every recorded latency lies between the two.  From [GlobalMetrics],
    which starts the minimum at 999999 and the maximum at 0, latencies
    that are all at least 999999 leave the minimum at 999999, and
    latencies that are all negative or zero leave the maximum at 0. *)
Theorem latency_bounds m rs :
  minLatencyMs (record_all m rs) = foldr Z.min (minLatencyMs m) (latencyMs <$> rs)
  /\ maxLatencyMs (record_all m rs) = foldr Z.max (maxLatencyMs m) (latencyMs <$> rs)
  /\ (forall r, r ∈ rs ->
        minLatencyMs (record_all m rs) <= latencyMs r <= maxLatencyMs (record_all m rs))
  /\ minLatencyMs (record_all m rs) <= minLatencyMs m
  /\ maxLatencyMs m <= maxLatencyMs (record_all m rs)
  /\ ((forall r, r ∈ rs -> 999999 <= latencyMs r) ->
      minLatencyMs (record_all GlobalMetrics rs) = 999999)
  /\ ((forall r, r ∈ rs -> latencyMs r <= 0) ->
      maxLatencyMs (record_all GlobalMetrics rs) = 0).
Proof.
  split; [apply minLatencyMs_record_all |].
  split; [apply maxLatencyMs_record_all |].
  split; [intros r; apply latency_within |].
  rewrite !minLatencyMs_record_all, !maxLatencyMs_record_all.
  destruct (foldr_min_le (minLatencyMs m) (latencyMs <$> rs)) as [Hm1 Hm2].
  destruct (foldr_max_ge (maxLatencyMs m) (latencyMs <$> rs)) as [Hx1 Hx2].
  split; [exact Hm1 |]. split; [exact Hx1 |]. split.
  - intros Hall. apply foldr_min_all_above.
    intros l Hl. apply list_elem_of_fmap in Hl as (r & -> & Hr). now apply Hall.
  - intros Hall. apply foldr_max_all_below.
    intros l Hl. apply list_elem_of_fmap in Hl as (r & -> & Hr). now apply Hall.
Qed.

(** X21. Starting from [GlobalMetrics], the counters after a sequence of
    recorded requests are the 64-bit wrap-around of the number of
    requests and of the sums of their input tokens, output tokens and
    latencies; the last latency is that of the last request. *)
Theorem counters_are_sums rs :
  let m : Metrics T := record_all GlobalMetrics rs in
  requestCount m = wrap (Z.of_nat (length rs))
  /\ totalInputToks m = wrap (foldr Z.add 0 (inputTokens <$> rs))
  /\ totalOutputToks m = wrap (foldr Z.add 0 (outputTokens <$> rs))
  /\ totalLatencyMs m = wrap (foldr Z.add 0 (latencyMs <$> rs))
  /\ lastLatencyMs m = default 0 (last (latencyMs <$> rs)).
Proof.
  assert (H0 : inInt 0) by (split; apply Z.leb_le; reflexivity).
  intros m. subst m. split; [| split; [| split; [| split]]].
  - exact (requestCount_record_all GlobalMetrics rs H0).
  - rewrite (record_all_field totalInputToks
               (fun a r => wrap (a + inputTokens r)) GlobalMetrics rs) by reflexivity.
    exact (fold_wrap_sum inputTokens rs 0 H0).
  - rewrite (record_all_field totalOutputToks
               (fun a r => wrap (a + outputTokens r)) GlobalMetrics rs) by reflexivity.
    exact (fold_wrap_sum outputTokens rs 0 H0).
  - exact (totalLatencyMs_record_all GlobalMetrics rs H0).
  - rewrite (record_all_field lastLatencyMs
               (fun _ r => latencyMs r) GlobalMetrics rs) by reflexivity.
    change (lastLatencyMs GlobalMetrics) with 0. generalize 0.
    induction rs as [| r rs IH]; intros a; [reflexivity |].
    simpl fold_left. rewrite IH. destruct rs as [| r0 rs]; [reflexivity |].
    apply last_default.
Qed.

(** X22. When at least one request has been recorded since
    [GlobalMetrics], no latency is negative and neither the number of
    requests nor the sum of the latencies exceeds the largest [int64], the
    average latency that [Report] prints is the sum divided by the number
    of requests, rounded down, and lies between the reported minimum and
    the reported maximum. *)
Theorem average_latency_between rs :
  rs <> [] ->
  (forall r, r ∈ rs -> 0 <= latencyMs r) ->
  Z.of_nat (length rs) <= maxInt ->
  foldr Z.add 0 (latencyMs <$> rs) <= maxInt ->
  let m : Metrics T := record_all GlobalMetrics rs in
  avgLatencyMs m = foldr Z.add 0 (latencyMs <$> rs) / Z.of_nat (length rs)
  /\ minLatencyMs m <= avgLatencyMs m <= maxLatencyMs m.
Proof.
  intros Hne Hpos Hn Hsum m.
  assert (H0 : inInt 0) by (split; apply Z.leb_le; reflexivity).
  pose proof (requestCount_record_all GlobalMetrics rs H0) as Hc.
  pose proof (totalLatencyMs_record_all GlobalMetrics rs H0) as Ht.
  pose proof (latency_within GlobalMetrics rs) as Hw.
  change (requestCount GlobalMetrics) with 0 in Hc.
  change (totalLatencyMs GlobalMetrics) with 0 in Ht.
  rewrite Z.add_0_l in Hc, Ht.
  fold m in Hc, Ht, Hw.
  set (n := Z.of_nat (length rs)) in *.
  set (sum := foldr Z.add 0 (latencyMs <$> rs)) in *.
  assert (Hn0 : 0 < n) by (subst n; destruct rs; [congruence | simpl; lia]).
  assert (Hmax : maxInt = 9223372036854775807) by reflexivity.
  assert (Hmin : minInt = -9223372036854775808) by reflexivity.
  assert (Hs0 : 0 <= sum).
  { subst sum.
    pose proof (sum_between 0 (foldr Z.max 0 (latencyMs <$> rs)) (latencyMs <$> rs)) as Hb.
    destruct Hb as [Hb _]; [| lia].
    intros l Hl. split.
    - apply list_elem_of_fmap in Hl as (r & -> & Hr). now apply Hpos.
    - now apply foldr_max_ge. }
  assert (Hcount : requestCount m = n)
    by (rewrite Hc; apply wrap_id; unfold inInt; lia).
  assert (Htotal : totalLatencyMs m = sum)
    by (rewrite Ht; apply wrap_id; unfold inInt; lia).
  assert (Hq : 0 <= sum / n <= sum).
  { split; [apply Z.div_pos; lia |]. apply Z.div_le_upper_bound; nia. }
  assert (Havg : avgLatencyMs m = sum / n).
  { unfold avgLatencyMs, div64. rewrite Hcount, Htotal, Z.quot_div_nonneg by lia.
    apply wrap_id. unfold inInt. lia. }
  split; [exact Havg |]. rewrite Havg.
  pose proof (sum_between (minLatencyMs m) (maxLatencyMs m) (latencyMs <$> rs)) as Hb.
  rewrite length_fmap in Hb. fold n sum in Hb.
  destruct Hb as [Hb1 Hb2].
  { intros l Hl. apply list_elem_of_fmap in Hl as (r & -> & Hr).
    now apply Hw. }
  split.
  - apply Z.div_le_lower_bound; lia.
  - apply Z.div_le_upper_bound; lia.
Qed.

(** X23. The metrics file is read-only, and its [Stat] reports the length
    of the very report that a read serves.  Once between one and the
    largest [int64] requests have been recorded since [GlobalMetrics], the
    report is no longer the empty one: it opens with the exact number of
    requests. *)
Theorem metrics_report rs :
  rs <> [] ->
  Z.of_nat (length rs) <= maxInt ->
  let m : Metrics T := record_all GlobalMetrics rs in
  (exists rest,
     Report m = "requests: " ++ Itoa (Z.of_nat (length rs)) ++ nl ++ rest)
  /\ Report m <> "requests: 0" ++ nl
  /\ Length (MetricsFile_Stat m) = len (Report m)
  /\ (forall cap, (String.length (Report m) <= cap)%nat ->
        MetricsFile_Read m cap 0 = (Report m, None))
  /\ (forall p off, MetricsFile_Write p off = (0, Some ErrPermission)).
Proof.
  intros Hne Hn m.
  assert (Hn0 : 0 < Z.of_nat (length rs)) by (destruct rs; [congruence | simpl; lia]).
  assert (Hmin : minInt = -9223372036854775808) by reflexivity.
  assert (Hcount : requestCount m = Z.of_nat (length rs)).
  { subst m. rewrite requestCount_record_all
      by (split; apply Z.leb_le; reflexivity).
    apply wrap_id. unfold inInt. simpl. lia. }
  assert (Hrep : exists rest,
             Report m = "requests: " ++ Itoa (Z.of_nat (length rs)) ++ nl ++ rest).
  { unfold Report. rewrite Hcount.
    destruct (Z.eqb_spec (Z.of_nat (length rs)) 0) as [E | _]; [lia |].
    eexists. reflexivity. }
  split; [exact Hrep |]. split; [| split; [reflexivity | split; [| reflexivity]]].
  - destruct Hrep as (rest & ->). intros E.
    apply (f_equal (drop_string 10)) in E. simpl in E.
    assert (Hz : Itoa 0 = "0") by reflexivity.
    destruct (Itoa (Z.of_nat (length rs))) as [| c [| d t]] eqn:Hi.
    + now destruct (all_plain_Itoa (Z.of_nat (length rs))).
    + simpl in E. injection E as Hc _. subst c. rewrite <- Hz in Hi.
      apply Itoa_inj in Hi. lia.
    + simpl in E. injection E as _ Hd _. 
      pose proof (all_plain_Itoa (Z.of_nat (length rs))) as [Hp _].
      rewrite Hi in Hp. subst d. vm_compute in Hp.
      destruct c as [[] [] [] [] [] [] [] []]; discriminate.
  - intros cap Hcap. unfold MetricsFile_Read. apply read_at_whole; [| exact Hcap].
    destruct Hrep as (rest & ->). discriminate.
Qed.

End collector.

Lemma average_latency_between_witness :
  let rs := [ {| inputTokens := 10; outputTokens := 20; latencyMs := 30; at_time := tt |};
              {| inputTokens := 5; outputTokens := 7; latencyMs := 51; at_time := tt |} ] in
  avgLatencyMs (record_all GlobalMetrics rs) = 40.
Proof.
  intros rs.
  destruct (average_latency_between rs) as [Havg _].
  - discriminate.
  - intros r Hr. apply elem_of_cons in Hr as [-> | Hr]; [simpl; lia |].
    apply elem_of_cons in Hr as [-> | Hr]; [simpl; lia |].
    now apply elem_of_nil in Hr.
  - apply Z.leb_le. reflexivity.
  - apply Z.leb_le. reflexivity.
  - rewrite Havg. reflexivity.
Defined.

Lemma metrics_report_witness :
  let rs := [ {| inputTokens := 10; outputTokens := 20; latencyMs := 30; at_time := tt |} ] in
  Length (MetricsFile_Stat (record_all GlobalMetrics rs))
  = len (Report (record_all GlobalMetrics rs)).
Proof.
  intros rs.
  destruct (metrics_report rs) as (_ & _ & Hs & _).
  - discriminate.
  - apply Z.leb_le. reflexivity.
  - exact Hs.
Defined.
